(** * TaskPilot: the task routes and the client session

    The development follows the Express router of [routes/tasks.js]
    (list, create, get, update, delete), the route index that mounts it
    behind the [auth] middleware, and the session handling of the React
    client ([App], [useAuth], [Tasks]).

    Conventions of the embedding.
    - A JS object used as a map ([req.query], [req.body], a Mongo filter,
      the [updates] object) is a [gmap] with string keys; a key that is
      absent is JS [undefined].
    - A string holds its text in UTF-8, one to four bytes to the
      character ([chars]).  The whitespace class [\s] is the one of the
      language, with U+00A0 and the other Unicode spaces.  Lengths and
      letter cases are asked of ASCII texts only, and two texts compare
      as their bytes do.
    - The JS numbers that the routes compute with have integer values;
      a number is the [Z] it is equal to, and [NaN] is [None].  Every
      result is rounded to 53 significant bits as a Number is
      ([to_number]).
    - A query parameter is a single string and a body field a JSON
      scalar: a parameter given twice, which Express hands over as an
      array, and arrays and objects in a body are not requests of this
      model.
    - The Task collection is a list of documents in insertion order,
      together with the counter that hands out fresh ObjectIds.
    - Handlers are functions from the request and the database to a
      response and the database after the call; a rejected promise inside
      a [try] block is [None] and becomes the 500 of the [catch].
    - The libraries (express-validator, validator.js, Mongoose) are
      modelled by what the routes ask of them: the validators and the
      sanitizer used in the chains, the casts of the schema types, and
      the five collection operations. *)

From Stdlib Require Import ZArith NArith String Ascii List Bool Lia Sorted.
From Stdlib Require Import DecimalString DecimalZ.
From stdpp Require Import base option list strings gmap.

Local Open Scope string_scope.
Local Open Scope Z_scope.

(** ** JavaScript values and string primitives *)

Module Js.

(** JSON values carried by a request body.  Only scalars are modelled:
    the routes read the three scalar fields [title], [description] and
    [completed]; how the validation library treats arrays and nested
    objects varies between its releases and is outside this model.
    Numbers are integral. *)
Inductive json : Type :=
| JNull
| JBool (b : bool)
| JNum (n : Z)
| JStr (s : string).

#[global] Instance json_eq_dec : EqDecision json.
Proof. solve_decision. Defined.

(** [typeof value === 'string'] *)
Definition isStringValue (v : json) : bool :=
  match v with JStr _ => true | _ => false end.

(** [String(n)] for an integer. *)
Definition string_of_Z (n : Z) : string := NilZero.string_of_int (Z.to_int n).

(** The [toString] helper that express-validator applies to a field
    value before handing it to a validator.js function: [null] becomes
    the empty string, everything else goes through [String(value)]. *)
Definition toString (v : json) : string :=
  match v with
  | JNull => ""
  | JBool true => "true"
  | JBool false => "false"
  | JNum n => string_of_Z n
  | JStr s => s
  end.

(** The number of bytes that follow the byte [a] in the UTF-8 encoding
    of the character that [a] begins. *)
Definition conts (a : ascii) : nat :=
  let n := N_of_ascii a in
  if (n <? 192)%N then 0%nat else if (n <? 224)%N then 1%nat
  else if (n <? 240)%N then 2%nat else 3%nat.

(** The characters of a text, each with the bytes that encode it. *)
Fixpoint chars (s : string) : list string :=
  match s with
  | EmptyString => []
  | String a r1 =>
      match conts a, r1 with
      | S n1, String b r2 =>
          match n1, r2 with
          | S n2, String c r3 =>
              match n2, r3 with
              | S _, String d r4 =>
                  String a (String b (String c (String d ""))) :: chars r4
              | _, _ => String a (String b (String c "")) :: chars r3
              end
          | _, _ => String a (String b "") :: chars r2
          end
      | _, _ => String a "" :: chars r1
      end
  end.

(** [l.join('')] *)
Definition join (l : list string) : string := fold_right String.append "" l.

(** The code point that the bytes of a character encode. *)
Definition code_point (ch : string) : N :=
  let v (x : ascii) := (N_of_ascii x - 128)%N in
  match ch with
  | EmptyString => 0%N
  | String a EmptyString => N_of_ascii a
  | String a (String b EmptyString) => ((N_of_ascii a - 192) * 64 + v b)%N
  | String a (String b (String c EmptyString)) =>
      ((N_of_ascii a - 224) * 4096 + v b * 64 + v c)%N
  | String a (String b (String c (String d _))) =>
      ((N_of_ascii a - 240) * 262144 + v b * 4096 + v c * 64 + v d)%N
  end.

(** The whitespace class [\s], which is also what [trim] strips and
    [parseInt] skips: TAB, LF, VT, FF, CR, the space, the no-break space
    U+00A0, U+1680, U+2000 to U+200A, the line and paragraph separators
    U+2028 and U+2029, U+202F, U+205F, U+3000 and U+FEFF. *)
Definition is_space (ch : string) : bool :=
  let n := code_point ch in
  ((9 <=? n) && (n <=? 13) || (n =? 32) || (n =? 160) || (n =? 5760)
   || (8192 <=? n) && (n <=? 8202) || (n =? 8232) || (n =? 8233)
   || (n =? 8239) || (n =? 8287) || (n =? 12288) || (n =? 65279))%N.

Fixpoint skip_spaces (l : list string) : list string :=
  match l with
  | [] => []
  | ch :: l' => if is_space ch then skip_spaces l' else l
  end.

(** [ltrim(str)] of validator.js: [str.replace(/^\s+/g, '')] *)
Definition ltrim (s : string) : string := join (skip_spaces (chars s)).

(** [rtrim(str)] of validator.js: the characters at the end are dropped
    as long as [/\s/] matches them. *)
Definition rtrim (s : string) : string :=
  join (rev (skip_spaces (rev (chars s)))).

(** [trim(str)] of validator.js with no character set: both ends. *)
Definition trim (s : string) : string := rtrim (ltrim s).

(** A sequence of characters as [chars] cuts them: every one has all
    the bytes its first byte announces, but for the last, which has what
    bytes were left. *)
Fixpoint well_cut (l : list string) : Prop :=
  match l with
  | [] => True
  | ch :: l' =>
      match ch with
      | EmptyString => False
      | String a t =>
          (String.length t = conts a \/ (l' = [] /\ (String.length t <= conts a)%nat))
      end /\ well_cut l'
  end.

(** [str.split(sep)] for a one-character separator. *)
Fixpoint split (sep : ascii) (s : string) : list string :=
  match s with
  | EmptyString => [EmptyString]
  | String c s' =>
      if Ascii.eqb c sep then EmptyString :: split sep s'
      else match split sep s' with
           | hd :: tl => String c hd :: tl
           | [] => [String c EmptyString]
           end
  end.

(** The lower case of a byte: of the letters A-Z. *)
Definition lower (c : ascii) : ascii :=
  let n := nat_of_ascii c in
  if ((65 <=? n) && (n <=? 90))%nat then ascii_of_nat (n + 32) else c.

(** [str.toLowerCase()], as far as the routes need it: the result is
    only compared with ASCII texts, and no character outside ASCII has a
    lower case among the letters of [true], nor an upper case among the
    letters of a hexadecimal prefix. *)
Fixpoint toLowerCase (s : string) : string :=
  match s with
  | EmptyString => EmptyString
  | String c s' => String (lower c) (toLowerCase s')
  end.

(** Truthiness of a JSON value. *)
Definition truthy (v : json) : bool :=
  match v with
  | JNull => false
  | JBool b => b
  | JNum n => negb (n =? 0)
  | JStr s => negb (String.eqb s "")
  end.

(** [x || d] on an optional JSON value. *)
Definition or_json (x : option json) (d : json) : json :=
  match x with
  | Some v => if truthy v then v else d
  | None => d
  end.

Definition is_digit (c : ascii) : bool :=
  let n := nat_of_ascii c in ((48 <=? n) && (n <=? 57))%nat.

Definition digit_val (c : ascii) : Z := Z.of_nat (nat_of_ascii c) - 48.

(** Reads the longest prefix of decimal digits, most significant first.
    Returns the value accumulated onto [acc], the number of digits read
    and the rest of the string. *)
Fixpoint read_digits (s : string) (acc : Z) (count : nat) : Z * nat * string :=
  match s with
  | String c s' =>
      if is_digit c then read_digits s' (10 * acc + digit_val c) (S count)
      else (acc, count, s)
  | EmptyString => (acc, count, s)
  end.

(** An optional sign, as both [parseInt] and the integer pattern of
    validator.js read it. *)
Definition read_sign (s : string) : bool * string :=
  match s with
  | String "-" s' => (true, s')
  | String "+" s' => (false, s')
  | _ => (false, s)
  end.

(** The Number that an integer becomes: itself up to 2^53 in
    magnitude, and beyond that the nearest integer with 53 significant
    bits, the even one of two that are equally near.  [Infinity] is not
    a value of the model: an integer of 309 digits or more is rounded
    like the others. *)
Definition to_number (n : Z) : Z :=
  let a := Z.abs n in
  if a <=? 2 ^ 53 then n
  else
    let e := Z.log2 a - 52 in
    let q := a / 2 ^ e in
    let r := a mod 2 ^ e in
    let half := 2 ^ (e - 1) in
    let q' := if r <? half then q
              else if half <? r then q + 1
              else if Z.even q then q else q + 1 in
    Z.sgn n * (q' * 2 ^ e).

(** [parseInt(s, 10)]: leading whitespace is skipped, then an optional
    sign and the longest run of digits are read and what follows is
    ignored; with no digit the result is [NaN] ([None]). *)
Definition parseInt (s : string) : option Z :=
  let '(neg, s1) := read_sign (ltrim s) in
  let '(v, count, _) := read_digits s1 0 O in
  match count with
  | O => None
  | _ => Some (to_number (if neg then - v else v))
  end.

(** The pattern [/^[-+]?[0-9]+$/] of validator.js [isInt], returning
    the number the string denotes when it matches. *)
Definition int_pattern (s : string) : option Z :=
  let '(neg, s1) := read_sign s in
  match read_digits s1 0 O with
  | (v, S _, EmptyString) => Some (if neg then - v else v)
  | _ => None
  end.

(** [Math.max] and [Math.min] on two arguments; [NaN] is contagious. *)
Definition math_max (a b : option Z) : option Z :=
  match a, b with Some x, Some y => Some (Z.max x y) | _, _ => None end.

Definition math_min (a b : option Z) : option Z :=
  match a, b with Some x, Some y => Some (Z.min x y) | _, _ => None end.

(** [Math.ceil(a / b)] for integers [a >= 0] and [b > 0].  The
    quotient of the two Numbers is rounded before [Math.ceil] sees it;
    with [b] at most 100 that cannot reach an integer as long as the
    quotient is below 2^47, and this is the range the definition is
    for. *)
Definition ceil_div (a b : Z) : Z := (a + b - 1) / b.

(** [x || d] on an optional string: [undefined] and [''] are falsy. *)
Definition or_default (x : option string) (d : string) : string :=
  match x with
  | Some EmptyString | None => d
  | Some s => s
  end.

Definition is_hex (c : ascii) : bool :=
  let n := nat_of_ascii c in
  (((48 <=? n) && (n <=? 57)) || ((65 <=? n) && (n <=? 70))
   || ((97 <=? n) && (n <=? 102)))%nat.

Definition hex_val (c : ascii) : N :=
  let n := N.of_nat (nat_of_ascii c) in
  (if n <=? 57 then n - 48 else if n <=? 70 then n - 55 else n - 87)%N.

Fixpoint string_forallb (p : ascii -> bool) (s : string) : bool :=
  match s with
  | EmptyString => true
  | String c s' => p c && string_forallb p s'
  end.

Fixpoint hex_to_N (s : string) (acc : N) : N :=
  match s with
  | EmptyString => acc
  | String c s' => hex_to_N s' (16 * acc + hex_val c)%N
  end.

End Js.

(** ** The Task collection as Mongoose sees it *)

Module Mongo.
Import Js.

Definition ObjectId := N.

(** Values held in documents, filters and update operators. *)
Inductive bson : Type :=
| BNull
| BBool (b : bool)
| BNum (n : Z)
| BStr (s : string)
| BOid (i : ObjectId)
| BDate (ms : Z).

#[global] Instance bson_eq_dec : EqDecision bson.
Proof. solve_decision. Defined.

Definition of_json (v : json) : bson :=
  match v with
  | JNull => BNull
  | JBool b => BBool b
  | JNum n => BNum n
  | JStr s => BStr s
  end.

(** Modelled from the spec: the Task schema of [models/Task.js], which is
    not among the sources.  A task has a title (non-empty text), an
    optional description text, a completion flag (boolean, default
    false), an owning user reference and a creation timestamp (assigned
    at creation, immutable), besides the [_id] every document has. *)
Record task : Type := {
  _id : ObjectId;
  title : string;
  description : string;
  completed : bool;
  owner : ObjectId;
  createdAt : Z
}.

Inductive path_type : Type := TString | TBoolean | TObjectId | TDate.

Definition schema (k : string) : option path_type :=
  if String.eqb k "_id" then Some TObjectId
  else if String.eqb k "title" then Some TString
  else if String.eqb k "description" then Some TString
  else if String.eqb k "completed" then Some TBoolean
  else if String.eqb k "owner" then Some TObjectId
  else if String.eqb k "createdAt" then Some TDate
  else None.

(** The value a document holds at a path; a path outside the schema is
    missing, which the database treats as null. *)
Definition get_path (k : string) (t : task) : bson :=
  if String.eqb k "_id" then BOid (_id t)
  else if String.eqb k "title" then BStr (title t)
  else if String.eqb k "description" then BStr (description t)
  else if String.eqb k "completed" then BBool (completed t)
  else if String.eqb k "owner" then BOid (owner t)
  else if String.eqb k "createdAt" then BDate (createdAt t)
  else BNull.

(** *** Casting to the schema types

    [None] is Mongoose's CastError.  Only the conversions the routes can
    reach are given a result; the remaining ones (a number to a string,
    null to anything, a 12-character string to an ObjectId) are
    reported as failures. *)

Definition castString (v : bson) : option string :=
  match v with BStr s => Some s | _ => None end.

Definition castBoolean (v : bson) : option bool :=
  match v with
  | BBool b => Some b
  | BNum n => if n =? 1 then Some true else if n =? 0 then Some false else None
  | BStr s =>
      if String.eqb s "true" || String.eqb s "1" || String.eqb s "yes" then Some true
      else if String.eqb s "false" || String.eqb s "0" || String.eqb s "no" then Some false
      else None
  | _ => None
  end.

(** The pattern [/^[0-9a-fA-F]{24}$/] that the ObjectId constructor
    asks of a string of 24 characters. *)
Definition is_hex24 (s : string) : bool :=
  (String.length s =? 24)%nat && string_forallb is_hex s.

Definition castObjectId (v : bson) : option ObjectId :=
  match v with
  | BOid i => Some i
  | BStr s => if is_hex24 s then Some (hex_to_N s 0%N) else None
  | _ => None
  end.

Definition castDate (v : bson) : option Z :=
  match v with BDate ms => Some ms | BNum ms => Some ms | _ => None end.

Definition cast (ty : path_type) (v : bson) : option bson :=
  match ty with
  | TString => BStr <$> castString v
  | TBoolean => BBool <$> castBoolean v
  | TObjectId => BOid <$> castObjectId v
  | TDate => BDate <$> castDate v
  end.

(** A filter value cast for its path; a path outside the schema is
    passed to the database as it is. *)
Definition cast_for (k : string) (v : bson) : option bson :=
  match schema k with
  | Some ty => cast ty v
  | None => Some v
  end.

(** *** Filters *)

Definition filter_casts (f : gmap string bson) : bool :=
  bool_decide (map_Forall (fun k v => is_Some (cast_for k v)) f).

(** A document matches a filter [{ k1: v1, ... }] when it holds the cast
    of every [vi] at [ki]. *)
Definition matches (f : gmap string bson) (t : task) : bool :=
  bool_decide (map_Forall (fun k v => cast_for k v = Some (get_path k t)) f).

(** *** Sort order *)

(** Rank of a value's type in the BSON comparison order. *)
Definition bson_rank (v : bson) : Z :=
  match v with
  | BNull => 0
  | BNum _ => 1
  | BStr _ => 2
  | BOid _ => 3
  | BBool _ => 4
  | BDate _ => 5
  end.

Definition bson_compare (a b : bson) : comparison :=
  match a, b with
  | BNull, BNull => Eq
  | BNum x, BNum y => Z.compare x y
  | BStr x, BStr y => String.compare x y
  | BOid x, BOid y => N.compare x y
  | BBool x, BBool y => Bool.compare x y
  | BDate x, BDate y => Z.compare x y
  | _, _ => Z.compare (bson_rank a) (bson_rank b)
  end.

(** A sort specification [{ k1: d1, ... }] with its keys in order; a
    direction of [1] is ascending, [-1] descending. *)
Definition sort_spec : Type := list (string * Z).

Fixpoint doc_compare (s : sort_spec) (a b : task) : comparison :=
  match s with
  | [] => Eq
  | (k, dir) :: s' =>
      let c := bson_compare (get_path k a) (get_path k b) in
      match (if dir =? 1 then c else CompOpp c) with
      | Eq => doc_compare s' a b
      | r => r
      end
  end.

Definition doc_le (s : sort_spec) (a b : task) : bool :=
  match doc_compare s a b with Gt => false | _ => true end.

Fixpoint insert_doc (s : sort_spec) (x : task) (l : list task) : list task :=
  match l with
  | [] => [x]
  | y :: l' => if doc_le s x y then x :: l else y :: insert_doc s x l'
  end.

(** Documents that compare equal keep their stored order. *)
Definition sort_docs (s : sort_spec) (l : list task) : list task :=
  foldr (insert_doc s) [] l.

(** A name between the dots of a field path: not empty, not beginning
    with a dollar sign, and without a NUL character. *)
Definition field_name_ok (n : string) : bool :=
  match n with
  | EmptyString => false
  | String c _ =>
      negb (Ascii.eqb c "$") && string_forallb (fun x => negb (Ascii.eqb x zero)) n
  end.

(** The sort keys the database accepts: [$natural], or a field path
    whose names are not empty, do not begin with a dollar sign and hold
    no NUL; any other key makes the query fail.  (The database also
    bounds the depth of a path, at some two hundred names, which the
    model does not.) *)
Definition sort_key_ok (k : string) : bool :=
  String.eqb k "$natural" || forallb field_name_ok (split "." k).

Definition sort_ok (s : sort_spec) : bool := forallb (fun kd => sort_key_ok kd.1) s.

(** [.sort(s)]: by the values at the keys; [$natural] is the stored
    order, reversed when its direction is not [1]. *)
Definition order_docs (s : sort_spec) (l : list task) : list task :=
  match s with
  | [(k, dir)] =>
      if String.eqb k "$natural" then (if dir =? 1 then l else rev l)
      else sort_docs s l
  | _ => sort_docs s l
  end.

(** A list of documents in ascending, respectively descending, order of
    the value they hold at a path. *)
Definition ascending_on (k : string) (l : list task) : Prop :=
  Sorted (fun a b => bson_compare (get_path k a) (get_path k b) <> Gt) l.

Definition descending_on (k : string) (l : list task) : Prop :=
  Sorted (fun a b => bson_compare (get_path k a) (get_path k b) <> Lt) l.

(** *** The collection and its operations

    Every operation returns [None] when Mongoose rejects the call (a
    cast or validation error), which the routes catch. *)

Record db : Type := {
  tasks : list task;
  next_id : ObjectId
}.

(** [.limit(n)]: zero means no limit. *)
Definition limit_docs (n : Z) (l : list task) : list task :=
  if n =? 0 then l else take (Z.to_nat (Z.abs n)) l.

(** [Task.find(f).sort(s).skip(skip).limit(limit)].  A sort key outside
    the schema is missing from every document, so that all documents
    compare equal on it; a sort key that the database refuses makes the
    query fail. *)
Definition find (f : gmap string bson) (s : sort_spec) (skip limit : Z)
    (d : db) : option (list task) :=
  if filter_casts f && (0 <=? skip) && sort_ok s
  then Some (limit_docs limit
               (drop (Z.to_nat skip)
                  (order_docs s (List.filter (matches f) (tasks d)))))
  else None.

(** [Task.countDocuments(f)] *)
Definition countDocuments (f : gmap string bson) (d : db) : option Z :=
  if filter_casts f
  then Some (Z.of_nat (length (List.filter (matches f) (tasks d))))
  else None.

(** [Task.findOne(f)] *)
Definition findOne (f : gmap string bson) (d : db) : option (option task) :=
  if filter_casts f then Some (List.find (matches f) (tasks d)) else None.

(** [Task.create(doc)]: the title and the owner are required, the
    completion flag defaults to false, the creation timestamp is the
    server's clock and the identifier is fresh. *)
Definition create (now : Z) (doc : gmap string bson) (d : db)
    : option (task * db) :=
  ti ← doc !! "title" ≫= castString;
  ow ← doc !! "owner" ≫= castObjectId;
  de ← match doc !! "description" with
       | Some v => castString v
       | None => Some ""
       end;
  co ← match doc !! "completed" with
       | Some v => castBoolean v
       | None => Some false
       end;
  if String.eqb ti "" then None
  else
    let t := {| _id := next_id d; title := ti; description := de;
                completed := co; owner := ow; createdAt := now |} in
    Some (t, {| tasks := tasks d ++ [t]; next_id := (next_id d + 1)%N |}).

(** The operator [{ $set: u }] after casting; the schema's immutable
    paths ([_id], [createdAt]) and paths outside the schema are dropped. *)
Record update : Type := {
  set_title : option string;
  set_description : option string;
  set_completed : option bool;
  set_owner : option ObjectId
}.

Definition cast_opt {A : Type} (c : bson -> option A) (x : option bson)
    : option (option A) :=
  match x with
  | Some v => Some <$> c v
  | None => Some None
  end.

Definition cast_update (u : gmap string bson) : option update :=
  ti ← cast_opt castString (u !! "title");
  de ← cast_opt castString (u !! "description");
  co ← cast_opt castBoolean (u !! "completed");
  ow ← cast_opt castObjectId (u !! "owner");
  Some {| set_title := ti; set_description := de;
          set_completed := co; set_owner := ow |}.

Definition apply_update (c : update) (t : task) : task :=
  {| _id := _id t;
     title := default (title t) (set_title c);
     description := default (description t) (set_description c);
     completed := default (completed t) (set_completed c);
     owner := default (owner t) (set_owner c);
     createdAt := createdAt t |}.

Fixpoint update_first (f : gmap string bson) (c : update) (l : list task)
    : option task * list task :=
  match l with
  | [] => (None, [])
  | t :: l' =>
      if matches f t then (Some (apply_update c t), apply_update c t :: l')
      else let '(r, l'') := update_first f c l' in (r, t :: l'')
  end.

(** [Task.findOneAndUpdate(f, { $set: u }, { new: true })] *)
Definition findOneAndUpdate (f u : gmap string bson) (d : db)
    : option (option task * db) :=
  if filter_casts f then
    c ← cast_update u;
    let '(r, l) := update_first f c (tasks d) in
    Some (r, {| tasks := l; next_id := next_id d |})
  else None.

Fixpoint remove_first (f : gmap string bson) (l : list task)
    : option task * list task :=
  match l with
  | [] => (None, [])
  | t :: l' =>
      if matches f t then (Some t, l')
      else let '(r, l'') := remove_first f l' in (r, t :: l'')
  end.

(** [Task.findOneAndDelete(f)] *)
Definition findOneAndDelete (f : gmap string bson) (d : db)
    : option (option task * db) :=
  if filter_casts f then
    let '(r, l) := remove_first f (tasks d) in
    Some (r, {| tasks := l; next_id := next_id d |})
  else None.

End Mongo.

(** ** Requests, responses and the validation chains *)

Module Express.
Import Js Mongo.

(** One entry of [errors.array()], as [handleValidation] reports it. *)
Record error : Type := { param : string; msg : string }.

Record meta : Type := { total : Z; page : Z; limit : Z; pages : Z }.

Inductive payload : Type :=
| PTasks (ts : list task) (m : meta)
| PTask (t : task)
| PMessage (s : string)
| PErrors (l : list error)
| PMe (u : option ObjectId).

Record response : Type := { status : Z; payload_of : payload }.

(** [req.user] is what the [auth] middleware resolved; [errors]
    collects what the validation chains found. *)
Record request : Type := {
  authorization : option string;
  user : option ObjectId;
  query : gmap string string;
  params : gmap string string;
  body : gmap string json;
  errors : list error
}.

Definition middleware : Type := request -> response + request.
Definition handler : Type := request -> db -> response * db.

(** A route: its middlewares in order, then its handler.  A middleware
    that answers ends the request. *)
Fixpoint run (ms : list middleware) (h : handler) (req : request) (d : db)
    : response * db :=
  match ms with
  | [] => h req d
  | m :: ms' =>
      match m req with
      | inl r => (r, d)
      | inr req' => run ms' h req' d
      end
  end.

(** *** express-validator *)

Inductive location : Type := Query | Param | Body.

Inductive validator : Type :=
| IsString
| NotEmpty
| IsIn (vs : list string)
| IsInt (min max : option Z)
| IsMongoId
| IsBoolean.

Inductive item : Type :=
| Verify (v : validator) (message : string)
| Trim.

Record chain : Type := {
  loc : location;
  field : string;
  optional : bool;
  items : list item
}.

Definition invalid_value : string := "Invalid value".

Definition toString_opt (x : option json) : string :=
  match x with Some v => toString v | None => "" end.

Definition in_range (min max : option Z) (n : Z) : bool :=
  match min with Some lo => lo <=? n | None => true end
  && match max with Some hi => n <=? hi | None => true end.

(** [isInt(str, { min, max })]: the pattern, then the string compared
    as a Number with the bounds. *)
Definition isInt (min max : option Z) (s : string) : bool :=
  match int_pattern s with
  | Some n => in_range min max (to_number n)
  | None => false
  end.

(** The pattern [/^(0x|0h)?[0-9A-F]+$/i] of validator.js
    [isHexadecimal]: hexadecimal digits, at least one, after an optional
    prefix. *)
Definition all_hex (s : string) : bool :=
  negb (String.eqb s "") && string_forallb is_hex s.

Definition isHexadecimal (s : string) : bool :=
  all_hex s
  || match s with
     | String "0" (String c r) =>
         (Ascii.eqb (lower c) "x" || Ascii.eqb (lower c) "h") && all_hex r
     | _ => false
     end.

(** [isMongoId]: [isHexadecimal(str) && str.length === 24]. *)
Definition isMongoId (s : string) : bool :=
  isHexadecimal s && (String.length s =? 24)%nat.

Definition isBoolean (s : string) : bool :=
  existsb (String.eqb s) ["true"; "false"; "1"; "0"].

Definition passes (v : validator) (x : option json) : bool :=
  match v with
  | IsString => match x with Some y => isStringValue y | None => false end
  | NotEmpty => negb (String.eqb (toString_opt x) "")
  | IsIn vs => existsb (String.eqb (toString_opt x)) vs
  | IsInt min max => isInt min max (toString_opt x)
  | IsMongoId => isMongoId (toString_opt x)
  | IsBoolean => isBoolean (toString_opt x)
  end.

(** The items of a chain run in order and none stops the chain: every
    failing validator adds its error, a sanitizer replaces the value. *)
Fixpoint run_items (name : string) (its : list item) (x : option json)
    : list error * option json :=
  match its with
  | [] => ([], x)
  | Verify v m :: its' =>
      let '(es, x') := run_items name its' x in
      (if passes v x then es else {| param := name; msg := m |} :: es, x')
  | Trim :: its' => run_items name its' (Some (JStr (trim (toString_opt x))))
  end.

Definition read_field (c : chain) (req : request) : option json :=
  match loc c with
  | Query => JStr <$> query req !! field c
  | Param => JStr <$> params req !! field c
  | Body => body req !! field c
  end.

(** A sanitized value is written back to the request when it differs
    from the one that was read. *)
Definition write_field (c : chain) (x : option json) (req : request) : request :=
  match x with
  | None => req
  | Some v =>
      match loc c with
      | Query =>
          {| authorization := authorization req; user := user req;
             query := <[field c := toString v]> (query req);
             params := params req; body := body req; errors := errors req |}
      | Param =>
          {| authorization := authorization req; user := user req;
             query := query req;
             params := <[field c := toString v]> (params req);
             body := body req; errors := errors req |}
      | Body =>
          {| authorization := authorization req; user := user req;
             query := query req; params := params req;
             body := <[field c := v]> (body req); errors := errors req |}
      end
  end.

Definition add_errors (es : list error) (req : request) : request :=
  {| authorization := authorization req; user := user req;
     query := query req; params := params req; body := body req;
     errors := errors req ++ es |}.

(** A chain as a middleware.  [optional()] skips the whole chain when
    the field is [undefined]. *)
Definition validate (c : chain) : middleware := fun req =>
  let x := read_field c req in
  match x, optional c with
  | None, true => inr req
  | _, _ =>
      let '(es, x') := run_items (field c) (items c) x in
      inr (add_errors es (if decide (x' = x) then req else write_field c x' req))
  end.

(** The errors of a chain that is a single validator on an optional
    field. *)
Definition check_errors (name : string) (v : validator) (m : string)
    (x : option json) : list error :=
  match x with
  | None => []
  | Some _ => if passes v x then [] else [{| param := name; msg := m |}]
  end.

(** The errors of the chain [isString().trim().notEmpty()] on a title
    that is present, and the value the chain leaves in the body. *)
Definition title_value (x : option json) : json := JStr (trim (toString_opt x)).

Definition title_errors (m : string) (x : option json) : list error :=
  (if passes IsString x then [] else [{| param := "title"; msg := invalid_value |}])
  ++ (if passes NotEmpty (Some (title_value x)) then []
      else [{| param := "title"; msg := m |}]).

Definition server_error : response :=
  {| status := 500; payload_of := PMessage "Server error" |}.

Definition not_found : response :=
  {| status := 404; payload_of := PMessage "Task not found" |}.

(** [handleValidation]: the 400 response when a chain found an error. *)
Definition handleValidation (req : request) : option response :=
  match errors req with
  | [] => None
  | es => Some {| status := 400; payload_of := PErrors es |}
  end.

End Express.

(** ** The task router *)

Module Routes.
Import Js Mongo Express.

Section Router.

(** Modelled from the spec: the [auth] middleware of [middleware/auth.js],
    which is not among the sources.  VerifyToken fails with
    Unauthenticated (401) if the token is missing, malformed or expired;
    otherwise it resolves to the identity used to scope the operations.
    The verification itself and the text of the 401 message are left
    open. *)
Variable verifyToken : string -> option ObjectId.
Variable unauthenticated : string.

Definition auth : middleware := fun req =>
  match authorization req ≫= verifyToken with
  | Some u =>
      inr {| authorization := authorization req; user := Some u;
             query := query req; params := params req; body := body req;
             errors := errors req |}
  | None => inl {| status := 401; payload_of := PMessage unauthenticated |}
  end.

(** *** GET /api/tasks *)

Definition list_chains : list chain :=
  [ {| loc := Query; field := "completed"; optional := true;
       items := [Verify (IsIn ["true"; "false"]) "completed must be true or false"] |};
    {| loc := Query; field := "page"; optional := true;
       items := [Verify (IsInt (Some 1) None) "page must be >= 1"] |};
    {| loc := Query; field := "limit"; optional := true;
       items := [Verify (IsInt (Some 1) (Some 100)) "limit must be between 1 and 100"] |} ].

(** What the three chains report on a query. *)
Definition list_errors (q : gmap string string) : list error :=
  check_errors "completed" (IsIn ["true"; "false"])
    "completed must be true or false" (JStr <$> q !! "completed")
  ++ check_errors "page" (IsInt (Some 1) None)
       "page must be >= 1" (JStr <$> q !! "page")
  ++ check_errors "limit" (IsInt (Some 1) (Some 100))
       "limit must be between 1 and 100" (JStr <$> q !! "limit").

Definition list_filter (owner : ObjectId) (q : gmap string string)
    : gmap string bson :=
  let filter := {[ "owner" := BOid owner ]} in
  match q !! "completed" with
  | Some c => <["completed" := BBool (String.eqb (toLowerCase c) "true")]> filter
  | None => filter
  end.

Definition list_page (q : gmap string string) : option Z :=
  math_max (Some 1) (parseInt (or_default (q !! "page") "1")).

(** [(page - 1) * limit], each operation giving a Number. *)
Definition list_skip (page limit : Z) : Z :=
  to_number (to_number (page - 1) * limit).

Definition list_limit (q : gmap string string) : option Z :=
  math_max (Some 1) (math_min (Some 100) (parseInt (or_default (q !! "limit") "10"))).

(** [const [field, dir] = req.query.sort.split(':')] and
    [sort[field] = dir === 'asc' ? 1 : -1]; the empty string is falsy
    and keeps the default. *)
Definition list_sort (q : gmap string string) : sort_spec :=
  match q !! "sort" with
  | None | Some EmptyString => [("createdAt", -1)]
  | Some s =>
      match split ":" s with
      | field :: rest =>
          [(field, if decide (head rest = Some "asc") then 1 else -1)]
      | [] => []
      end
  end.

Definition list_tasks : handler := fun req d =>
  match handleValidation req with
  | Some r => (r, d)
  | None =>
      match user req with
      | None => (server_error, d)
      | Some owner =>
          let filter := list_filter owner (query req) in
          match list_page (query req), list_limit (query req) with
          | Some page, Some limit =>
              let skip := list_skip page limit in
              let sort := list_sort (query req) in
              match find filter sort skip limit d, countDocuments filter d with
              | Some tasks, Some total =>
                  ({| status := 200;
                      payload_of :=
                        PTasks tasks
                          {| total := total; page := page; limit := limit;
                             pages := ceil_div total limit |} |}, d)
              | _, _ => (server_error, d)
              end
          | _, _ => (server_error, d)
          end
      end
  end.

(** *** POST /api/tasks *)

Definition create_chains : list chain :=
  [ {| loc := Body; field := "title"; optional := false;
       items := [Verify IsString invalid_value; Trim;
                 Verify NotEmpty "title is required"] |};
    {| loc := Body; field := "description"; optional := true;
       items := [Verify IsString "description must be text"] |} ].

(** What the two chains report on a body, and the body they leave. *)
Definition create_errors (b : gmap string json) : list error :=
  title_errors "title is required" (b !! "title")
  ++ check_errors "description" IsString "description must be text"
       (b !! "description").

Definition create_body (b : gmap string json) : gmap string json :=
  <["title" := title_value (b !! "title")]> b.

(** The document [{ title, description: description || '', owner }]; a
    property whose value is [undefined] is not part of it. *)
Definition create_doc (owner : ObjectId) (b : gmap string json)
    : gmap string bson :=
  let doc := {[ "description" := of_json (or_json (b !! "description") (JStr ""));
                "owner" := BOid owner ]} in
  match b !! "title" with
  | Some v => <["title" := of_json v]> doc
  | None => doc
  end.

Definition create_task (now : Z) : handler := fun req d =>
  match handleValidation req with
  | Some r => (r, d)
  | None =>
      match user req with
      | None => (server_error, d)
      | Some owner =>
          match create now (create_doc owner (body req)) d with
          | Some (task, d') => ({| status := 201; payload_of := PTask task |}, d')
          | None => (server_error, d)
          end
      end
  end.

(** *** GET, PUT and DELETE /api/tasks/:id *)

Definition id_chain : chain :=
  {| loc := Param; field := "id"; optional := false;
     items := [Verify IsMongoId "invalid task id"] |}.

(** The filter [{ _id: req.params.id, owner: req.user._id }]. *)
Definition id_filter (owner : ObjectId) (p : gmap string string)
    : gmap string bson :=
  let filter := {[ "owner" := BOid owner ]} in
  match p !! "id" with
  | Some i => <["_id" := BStr i]> filter
  | None => filter
  end.

Definition get_task : handler := fun req d =>
  match handleValidation req with
  | Some r => (r, d)
  | None =>
      match user req with
      | None => (server_error, d)
      | Some owner =>
          match findOne (id_filter owner (params req)) d with
          | Some (Some task) => ({| status := 200; payload_of := PTask task |}, d)
          | Some None => (not_found, d)
          | None => (server_error, d)
          end
      end
  end.

Definition update_chains : list chain :=
  [ id_chain;
    {| loc := Body; field := "title"; optional := true;
       items := [Verify IsString invalid_value; Trim;
                 Verify NotEmpty "title must be a non-empty string"] |};
    {| loc := Body; field := "description"; optional := true;
       items := [Verify IsString "description must be text"] |};
    {| loc := Body; field := "completed"; optional := true;
       items := [Verify IsBoolean "completed must be true or false"] |} ].

(** What the chains report on the identifier and the body, and the body
    they leave. *)
Definition id_errors (p : gmap string string) : list error :=
  if passes IsMongoId (JStr <$> p !! "id") then []
  else [{| param := "id"; msg := "invalid task id" |}].

Definition update_errors (b : gmap string json) : list error :=
  match b !! "title" with
  | Some _ => title_errors "title must be a non-empty string" (b !! "title")
  | None => []
  end
  ++ check_errors "description" IsString "description must be text"
       (b !! "description")
  ++ check_errors "completed" IsBoolean "completed must be true or false"
       (b !! "completed").

Definition update_body (b : gmap string json) : gmap string json :=
  match b !! "title" with
  | Some _ => <["title" := title_value (b !! "title")]> b
  | None => b
  end.

(** The [updates] object: one entry for each of the three fields that is
    not [undefined] in the body. *)
Definition updates_of (b : gmap string json) : gmap string bson :=
  let updates := ∅ in
  let updates := match b !! "title" with
                 | Some v => <["title" := of_json v]> updates
                 | None => updates
                 end in
  let updates := match b !! "description" with
                 | Some v => <["description" := of_json v]> updates
                 | None => updates
                 end in
  match b !! "completed" with
  | Some v => <["completed" := of_json v]> updates
  | None => updates
  end.

Definition update_task : handler := fun req d =>
  match handleValidation req with
  | Some r => (r, d)
  | None =>
      match user req with
      | None => (server_error, d)
      | Some owner =>
          match findOneAndUpdate (id_filter owner (params req))
                  (updates_of (body req)) d with
          | Some (Some task, d') => ({| status := 200; payload_of := PTask task |}, d')
          | Some (None, _) => (not_found, d)
          | None => (server_error, d)
          end
      end
  end.

Definition delete_task : handler := fun req d =>
  match handleValidation req with
  | Some r => (r, d)
  | None =>
      match user req with
      | None => (server_error, d)
      | Some owner =>
          match findOneAndDelete (id_filter owner (params req)) d with
          | Some (Some _, d') =>
              ({| status := 200; payload_of := PMessage "Task deleted" |}, d')
          | Some (None, _) => (not_found, d)
          | None => (server_error, d)
          end
      end
  end.

(** *** The router and its mount point *)

Inductive route : Type :=
| GET_tasks
| POST_tasks
| GET_task (id : string)
| PUT_task (id : string)
| DELETE_task (id : string).

(** Matching [/:id] binds [req.params.id]. *)
Definition with_id (id : string) (req : request) : request :=
  {| authorization := authorization req; user := user req;
     query := query req; params := <["id" := id]> (params req);
     body := body req; errors := errors req |}.

Definition taskRoutes (now : Z) (r : route) : handler := fun req d =>
  match r with
  | GET_tasks => run (auth :: map validate list_chains) list_tasks req d
  | POST_tasks => run (auth :: map validate create_chains) (create_task now) req d
  | GET_task id => run [auth; validate id_chain] get_task (with_id id req) d
  | PUT_task id =>
      run (auth :: map validate update_chains) update_task (with_id id req) d
  | DELETE_task id =>
      run [auth; validate id_chain] delete_task (with_id id req) d
  end.

(** [router.use('/tasks', auth, taskRoutes)] *)
Definition api_tasks (now : Z) (r : route) : handler :=
  run [auth] (taskRoutes now r).

(** [router.get('/me', auth, ...)] *)
Definition api_me : handler :=
  run [auth] (fun req d => ({| status := 200; payload_of := PMe (user req) |}, d)).

End Router.

(** The ObjectId a well-formed identifier denotes. *)
Definition oid_of (id : string) : ObjectId := hex_to_N id 0%N.

(** The document has identifier [i] and owner [u]. *)
Definition owned_by (u i : ObjectId) (t : task) : bool :=
  N.eqb (_id t) i && N.eqb (owner t) u.

(** What a body that passed validation asks to change: the trimmed
    title, the description and the completion flag, each only if it is
    supplied, and never the owner. *)
Definition body_update (b : gmap string json) : update :=
  {| set_title := (fun v => trim (toString v)) <$> b !! "title";
     set_description := b !! "description" ≫= (fun v => castString (of_json v));
     set_completed := b !! "completed" ≫= (fun v => castBoolean (of_json v));
     set_owner := None |}.

(** The task a create call stores, and the collection with it. *)
Definition new_task (now : Z) (d : db) (u : ObjectId) (s : string)
    (dsc : option string) : task :=
  {| _id := next_id d; title := trim s; description := default "" dsc;
     completed := false; owner := u; createdAt := now |}.

Definition with_task (d : db) (t : task) : db :=
  {| tasks := tasks d ++ [t]; next_id := (next_id d + 1)%N |}.

(** The request a handler receives once the token has resolved to [u]. *)
Definition prepared (r : route) (a : option string) (u : ObjectId)
    (q p : gmap string string) (b : gmap string json) : request :=
  match r with
  | GET_tasks =>
      {| authorization := a; user := Some u; query := q; params := p; body := b;
         errors := list_errors q |}
  | POST_tasks =>
      {| authorization := a; user := Some u; query := q; params := p;
         body := create_body b; errors := create_errors b |}
  | GET_task id | DELETE_task id =>
      {| authorization := a; user := Some u; query := q;
         params := <["id" := id]> p; body := b;
         errors := id_errors (<["id" := id]> p) |}
  | PUT_task id =>
      {| authorization := a; user := Some u; query := q;
         params := <["id" := id]> p; body := update_body b;
         errors := id_errors (<["id" := id]> p) ++ update_errors b |}
  end.

Definition handler_of (now : Z) (r : route) : handler :=
  match r with
  | GET_tasks => list_tasks
  | POST_tasks => create_task now
  | GET_task _ => get_task
  | PUT_task _ => update_task
  | DELETE_task _ => delete_task
  end.

(** The number a pagination parameter stands for: its default when it
    is absent, and when it is supplied the Number that the integer it
    denotes becomes. *)
Definition supplied_int (x : option string) (dflt n : Z) : Prop :=
  match x with
  | None => n = dflt
  | Some s => to_number <$> int_pattern s = Some n
  end.

(** A request as it arrives: nothing resolved, nothing validated. *)
Definition incoming (tok : option string) (q p : gmap string string)
    (b : gmap string json) : request :=
  {| authorization := tok; user := None; query := q; params := p;
     body := b; errors := [] |}.

End Routes.

(** ** The client application: session state and what a response does to it *)

Module Client.
Import Mongo.

(** The [me] object the client keeps; only its name is displayed. *)
Record profile : Type := { name : string }.

(** A parsed response body, by the properties the client reads; a body
    that is not an object has none of them. *)
Record api_body : Type := {
  me : option profile;
  tasks_of : option (list task);
  message : option string;
  errors_of : option (list string)
}.

(** What [apiFetch] resolves to. *)
Record api_result : Type := {
  ok : bool;
  status : Z;
  body : option api_body
}.

(** [res.ok] of the Fetch API: a status in the range 200-299. *)
Definition apiFetch_result (st : Z) (b : option api_body) : api_result :=
  {| ok := (200 <=? st) && (st <=? 299); status := st; body := b |}.

(** The React state of [useAuth], [App] and [Tasks], the [token] entry of
    [localStorage] and the current location of the router. *)
Record state : Type := {
  token : option string;
  user : option profile;
  stored_token : option string;
  path : string;
  loadingUser : bool;
  tasks : list task;
  loading : bool;
  title : string;
  description : string;
  error : option string;
  editingId : option ObjectId;
  editTitle : string;
  editDescription : string
}.

Definition setToken (v : option string) (s : state) : state :=
  {| token := v; user := user s; stored_token := stored_token s;
     path := path s; loadingUser := loadingUser s; tasks := tasks s;
     loading := loading s; title := title s; description := description s;
     error := error s; editingId := editingId s; editTitle := editTitle s;
     editDescription := editDescription s |}.

Definition setUser (v : option profile) (s : state) : state :=
  {| token := token s; user := v; stored_token := stored_token s;
     path := path s; loadingUser := loadingUser s; tasks := tasks s;
     loading := loading s; title := title s; description := description s;
     error := error s; editingId := editingId s; editTitle := editTitle s;
     editDescription := editDescription s |}.

Definition setStored (v : option string) (s : state) : state :=
  {| token := token s; user := user s; stored_token := v;
     path := path s; loadingUser := loadingUser s; tasks := tasks s;
     loading := loading s; title := title s; description := description s;
     error := error s; editingId := editingId s; editTitle := editTitle s;
     editDescription := editDescription s |}.

Definition setPath (v : string) (s : state) : state :=
  {| token := token s; user := user s; stored_token := stored_token s;
     path := v; loadingUser := loadingUser s; tasks := tasks s;
     loading := loading s; title := title s; description := description s;
     error := error s; editingId := editingId s; editTitle := editTitle s;
     editDescription := editDescription s |}.

Definition setLoadingUser (v : bool) (s : state) : state :=
  {| token := token s; user := user s; stored_token := stored_token s;
     path := path s; loadingUser := v; tasks := tasks s;
     loading := loading s; title := title s; description := description s;
     error := error s; editingId := editingId s; editTitle := editTitle s;
     editDescription := editDescription s |}.

Definition setTasks (v : list task) (s : state) : state :=
  {| token := token s; user := user s; stored_token := stored_token s;
     path := path s; loadingUser := loadingUser s; tasks := v;
     loading := loading s; title := title s; description := description s;
     error := error s; editingId := editingId s; editTitle := editTitle s;
     editDescription := editDescription s |}.

Definition setLoading (v : bool) (s : state) : state :=
  {| token := token s; user := user s; stored_token := stored_token s;
     path := path s; loadingUser := loadingUser s; tasks := tasks s;
     loading := v; title := title s; description := description s;
     error := error s; editingId := editingId s; editTitle := editTitle s;
     editDescription := editDescription s |}.

Definition setTitle (v : string) (s : state) : state :=
  {| token := token s; user := user s; stored_token := stored_token s;
     path := path s; loadingUser := loadingUser s; tasks := tasks s;
     loading := loading s; title := v; description := description s;
     error := error s; editingId := editingId s; editTitle := editTitle s;
     editDescription := editDescription s |}.

Definition setDescription (v : string) (s : state) : state :=
  {| token := token s; user := user s; stored_token := stored_token s;
     path := path s; loadingUser := loadingUser s; tasks := tasks s;
     loading := loading s; title := title s; description := v;
     error := error s; editingId := editingId s; editTitle := editTitle s;
     editDescription := editDescription s |}.

Definition setError (v : option string) (s : state) : state :=
  {| token := token s; user := user s; stored_token := stored_token s;
     path := path s; loadingUser := loadingUser s; tasks := tasks s;
     loading := loading s; title := title s; description := description s;
     error := v; editingId := editingId s; editTitle := editTitle s;
     editDescription := editDescription s |}.

(** [cancelEdit] *)
Definition cancelEdit (s : state) : state :=
  {| token := token s; user := user s; stored_token := stored_token s;
     path := path s; loadingUser := loadingUser s; tasks := tasks s;
     loading := loading s; title := title s; description := description s;
     error := error s; editingId := None; editTitle := "";
     editDescription := "" |}.

(** [logout] of [useAuth] *)
Definition logout (s : state) : state := setUser None (setToken None s).

(** Truthiness of the token: [null] and the empty string are falsy. *)
Definition has_token (s : state) : bool :=
  match token s with
  | Some t => negb (String.eqb t "")
  | None => false
  end.

(** The effect of [useAuth] that follows the token into [localStorage]. *)
Definition sync_storage (s : state) : state :=
  setStored (if has_token s then token s else None) s.

(** What the [Routes] of [App] show at a location: a [Navigate] element
    moves to its target, any other element leaves the location alone. *)
Definition navigate (s : state) : state :=
  let p := path s in
  if String.eqb p "/" then setPath (if has_token s then "/tasks" else "/login") s
  else if String.eqb p "/login" || String.eqb p "/register"
       then (if has_token s then setPath "/tasks" s else s)
  else if String.eqb p "/tasks"
       then (if has_token s then s else setPath "/login" s)
  else s.

(** A render after a state change: effects, then the router. *)
Definition render (s : state) : state := navigate (sync_storage s).

(** The API calls the client makes once it holds a token. *)
Inductive call : Type :=
| Me
| FetchTasks
| CreateTask
| ToggleComplete
| RemoveTask
| SaveEdit.

Definition join_errors (l : list string) : string :=
  match l with
  | [] => ""
  | x :: l' => fold_left (fun acc y => (acc ++ ", " ++ y)%string) l' x
  end.

(** [r.body.message || (r.body.errors && r.body.errors.map(x => x.msg).join(', ')) || 'Create failed'] *)
Definition create_error (r : api_result) : string :=
  match body r with
  | None => "Create failed"
  | Some b =>
      match message b with
      | Some m => if String.eqb m "" then
                    match errors_of b with
                    | Some l => if String.eqb (join_errors l) "" then "Create failed"
                                else join_errors l
                    | None => "Create failed"
                    end
                  else m
      | None =>
          match errors_of b with
          | Some l => if String.eqb (join_errors l) "" then "Create failed"
                      else join_errors l
          | None => "Create failed"
          end
      end
  end.

(** The continuation of each call once [apiFetch] has resolved: the new
    state and the calls issued next.  Reading [r.body.tasks] off an empty
    body throws, which ends [fetchTasks] where it stands. *)
Definition on_response (c : call) (r : api_result) (s : state)
    : state * list call :=
  match c with
  | Me =>
      let s := setLoadingUser false s in
      match ok r, body r ≫= me with
      | true, Some m => (setUser (Some m) s, [])
      | _, _ => (logout s, [])
      end
  | FetchTasks =>
      let s := setLoading false s in
      if ok r
      then match body r with
           | Some b => (setTasks (default [] (tasks_of b)) s, [])
           | None => (s, [])
           end
      else (setError (Some "Failed to load tasks") s, [])
  | CreateTask =>
      if ok r
      then (setDescription "" (setTitle "" s), [FetchTasks])
      else (setError (Some (create_error r)) s, [])
  | ToggleComplete =>
      if ok r then (s, [FetchTasks])
      else (setError (Some "Update failed") s, [])
  | RemoveTask =>
      if ok r then (s, [FetchTasks])
      else (setError (Some "Delete failed") s, [])
  | SaveEdit =>
      if ok r then (cancelEdit s, [FetchTasks])
      else (setError (Some "Update failed") s, [])
  end.

(** The [catch] of the identity check: [apiFetch] itself failed. *)
Definition me_rejected (s : state) : state := logout (setLoadingUser false s).


End Client.

(** ** Two users and a small collection, for the examples *)

Module Sample.
Import Js Mongo Express Routes.

Definition verifyToken (tok : string) : option ObjectId :=
  if String.eqb tok "token-of-ann" then Some 7%N
  else if String.eqb tok "token-of-bob" then Some 8%N
  else None.

Definition ann : option string := Some "token-of-ann".
Definition bob : option string := Some "token-of-bob".

Definition milk : task :=
  {| _id := 1%N; title := "buy milk"; description := ""; completed := false;
     owner := 7%N; createdAt := 1000 |}.

Definition rent : task :=
  {| _id := 2%N; title := "pay rent"; description := "before the 5th";
     completed := true; owner := 8%N; createdAt := 2000 |}.

Definition call_mum : task :=
  {| _id := 3%N; title := "call mum"; description := ""; completed := false;
     owner := 7%N; createdAt := 3000 |}.

Definition db0 : db := {| tasks := [milk; rent; call_mum]; next_id := 4%N |}.

Definition sorted_query : gmap string string :=
  {[ "limit" := "1"; "sort" := "title:asc" ]}.

Definition done : gmap string json := {[ "completed" := JBool true ]}.

Definition milk_body : gmap string json := {[ "title" := JStr "  buy milk " ]}.

(** A title of three spaces: U+00A0, U+3000 and the ASCII space. *)
Definition blank_title : string :=
  String "194" (String "160" (String "227" (String "128" (String "128" " ")))).

Definition blank_body : gmap string json := {[ "title" := JStr blank_title ]}.



Definition milk_done : task :=
  {| _id := 1%N; title := "buy milk"; description := ""; completed := true;
     owner := 7%N; createdAt := 1000 |}.

Definition id4 : string := "000000000000000000000004".

Definition completed_query : gmap string string := {[ "completed" := "true" ]}.

Definition title_down : gmap string string := {[ "sort" := "title:desc" ]}.

Definition no_field : gmap string string := {[ "sort" := ":asc" ]}.

Definition id1 : string := "000000000000000000000001".
Definition id2 : string := "000000000000000000000002".

(** An identifier that [isMongoId] accepts for its prefix. *)
Definition id_prefixed : string := "0x0000000000000000000001".

Definition api (now : Z) : route -> handler := api_tasks verifyToken "Unauthorized" now.

(** A client that is logged in and looks at its tasks, and the answer to
    a call whose token the server no longer accepts. *)
Definition logged_in : Client.state :=
  {| Client.token := Some "token-of-ann";
     Client.user := Some {| Client.name := "Ann" |};
     Client.stored_token := Some "token-of-ann";
     Client.path := "/tasks";
     Client.loadingUser := false;
     Client.tasks := [milk; call_mum];
     Client.loading := true;
     Client.title := "";
     Client.description := "";
     Client.error := None;
     Client.editingId := None;
     Client.editTitle := "";
     Client.editDescription := "" |}.


End Sample.

(** ** Views of the collection used by the further properties *)

Module Store.
Import Js Mongo Express.

(** The tasks of one user, in stored order. *)
Definition owned (v : ObjectId) (t : task) : bool := N.eqb (owner t) v.
Definition tasks_of_owner (v : ObjectId) (d : db) : list task :=
  List.filter (owned v) (tasks d).
(** Identifiers are unique and below the counter that hands out the
    next one. *)
Definition unique_ids (d : db) : Prop :=
  List.NoDup (map _id (tasks d)) /\ Forall (fun t => (_id t < next_id d)%N) (tasks d).
(** The answers that report a success. *)
Definition succeeded (r : response) : bool :=
  (status r =? 200) || (status r =? 201).

End Store.

(** ** Text without surrounding whitespace *)

Module Text.
Import Js.

(** The text is empty or begins with a character that is not whitespace. *)
Definition clean_start (s : string) : Prop :=
  match chars s with
  | [] => True
  | ch :: _ => is_space ch = false
  end.

(** The text is what trimming makes of it. *)
Definition trimmed (s : string) : Prop := trim s = s.


(** The text holds nothing but whitespace; the empty text does. *)
Definition all_space (s : string) : Prop := forallb is_space (chars s) = true.


End Text.

(** ** The order of tasks on a field of the record *)

Module Order.
Import Js Mongo.

(** Two tasks in ascending order of a field, read off the record
    itself: texts by their characters, false before true, numbers and
    identifiers by their value.  A key that is no field of the record
    orders nothing. *)
Definition field_le (k : string) (x y : task) : Prop :=
  if String.eqb k "title" then String.compare (title x) (title y) <> Gt
  else if String.eqb k "description"
       then String.compare (description x) (description y) <> Gt
  else if String.eqb k "completed" then Bool.le (completed x) (completed y)
  else if String.eqb k "createdAt" then createdAt x <= createdAt y
  else if String.eqb k "_id" then (_id x <= _id y)%N
  else if String.eqb k "owner" then (owner x <= owner y)%N
  else True.

(** A sort key that is one field name: not empty, without a dot or a
    NUL character, and not beginning with a dollar sign. *)
Definition plain_name (k : string) : bool :=
  field_name_ok k && string_forallb (fun x => negb (Ascii.eqb x ".")) k.

Definition plain_sort (s : sort_spec) : Prop :=
  Forall (fun kd => plain_name kd.1 = true) s.

End Order.

(** ** Titles as the routes keep them *)

Module Titles.
Import Js Mongo Text.

(** No task has an empty title or a title with whitespace around it. *)
Definition clean_titles (d : db) : Prop :=
  Forall (fun t => title t <> "" /\ trimmed (title t)) (tasks d).

End Titles.

(** ** Pages of a listing *)

Module Paging.
Import Js Mongo Express Routes Store.





(** The page number of the query is at most 2^53: a Number holds it
    exactly, and the offset of the page is within what every release of
    the database takes for [skip]. *)
Definition page_in_range (q : gmap string string) : Prop :=
  forall pg, list_page q = Some pg -> pg <= 2 ^ 53.

End Paging.

(** ** The toolbar of the task view and the query it sends *)

Module Ui.
Import Js.

(** The state hooks of [Tasks] behind the toolbar. *)
Record controls : Type := {
  completedFilter : string;
  sortOrder : string;
  page : Z;
  limit : Z
}.

(** [useState('all')], [useState('desc')], [useState(1)], [useState(5)] *)
Definition initial : controls :=
  {| completedFilter := "all"; sortOrder := "desc"; page := 1; limit := 5 |}.

(** The options of the three [select] elements, with their values. *)
Inductive filter_option : Type := AllTasks | Completed | Incomplete.
Inductive order_option : Type := NewestFirst | OldestFirst.
Inductive size_option : Type := Five | Ten | Twenty.

Definition filter_value (o : filter_option) : string :=
  match o with AllTasks => "all" | Completed => "true" | Incomplete => "false" end.

Definition order_value (o : order_option) : string :=
  match o with NewestFirst => "desc" | OldestFirst => "asc" end.

(** [Number(e.target.value)] of the page size options. *)
Definition size_value (o : size_option) : Z :=
  match o with Five => 5 | Ten => 10 | Twenty => 20 end.

(** What the user can do in the toolbar. *)
Inductive action : Type :=
| ChooseFilter (o : filter_option)
| ChooseOrder (o : order_option)
| ChooseSize (o : size_option)
| Prev
| Next.

(** The [onChange] and [onClick] handlers. *)
Definition step (c : controls) (a : action) : controls :=
  match a with
  | ChooseFilter o =>
      {| completedFilter := filter_value o; sortOrder := sortOrder c;
         page := 1; limit := limit c |}
  | ChooseOrder o =>
      {| completedFilter := completedFilter c; sortOrder := order_value o;
         page := page c; limit := limit c |}
  | ChooseSize o =>
      {| completedFilter := completedFilter c; sortOrder := sortOrder c;
         page := 1; limit := size_value o |}
  | Prev =>
      {| completedFilter := completedFilter c; sortOrder := sortOrder c;
         page := Z.max 1 (page c - 1); limit := limit c |}
  | Next =>
      {| completedFilter := completedFilter c; sortOrder := sortOrder c;
         page := to_number (page c + 1); limit := limit c |}
  end.

(** What the toolbar can hold: only what its options offer, and a page
    number of at least 1. *)
Definition offered (c : controls) : Prop :=
  (completedFilter c = "all" \/ completedFilter c = "true"
   \/ completedFilter c = "false")
  /\ (sortOrder c = "desc" \/ sortOrder c = "asc")
  /\ 1 <= page c
  /\ (limit c = 5 \/ limit c = 10 \/ limit c = 20).

(** The toolbar after a sequence of actions from the initial state. *)
Definition after (l : list action) : controls := fold_left step l initial.

(** The query string that [fetchTasks] builds. *)
Definition fetch_query (c : controls) : string :=
  let query := ("?page=" ++ string_of_Z (page c) ++ "&limit="
                ++ string_of_Z (limit c) ++ "&sort=createdAt:" ++ sortOrder c)%string in
  if String.eqb (completedFilter c) "all" then query
  else (query ++ "&completed=" ++ completedFilter c)%string.

End Ui.

(** ** The query string as Express reads it *)

Module Url.
Import Js.

(** A character other than the separator of parameters. *)
Definition no_amp (c : ascii) : bool := negb (Ascii.eqb c "&").

(** A parameter [key=value], cut at its first equals sign. *)
Fixpoint parse_pair (s : string) : string * string :=
  match s with
  | EmptyString => (EmptyString, EmptyString)
  | String c s' =>
      if Ascii.eqb c "=" then (EmptyString, s')
      else let '(k, v) := parse_pair s' in (String c k, v)
  end.

(** [req.query] of a query string that has no repeated key, no bracket
    and no escape: the parameters between the ampersands. *)
Definition parse_query (s : string) : gmap string string :=
  match s with
  | String "?" rest => list_to_map (map parse_pair (split "&" rest))
  | _ => ∅
  end.

End Url.

(** ** The client and the server together *)

Module Session.
Import Js Mongo Express Routes.

(** [ObjectId.prototype.toHexString], which JSON carries to the client:
    24 hexadecimal digits in lower case. *)
Definition hex_digit (n : N) : ascii :=
  ascii_of_N (if (n <? 10)%N then 48 + n else 87 + n).

Fixpoint hex_digits (k : nat) (n : N) (acc : string) : string :=
  match k with
  | O => acc
  | S k' => hex_digits k' (n / 16)%N (String (hex_digit (n mod 16)%N) acc)
  end.

Definition toHexString (i : ObjectId) : string := hex_digits 24 i "".

(** The [Authorization] header that [apiFetch] adds when it is given a
    token. *)
Definition bearer (s : Client.state) : option string :=
  if Client.has_token s then String.append "Bearer " <$> Client.token s else None.

(** The request that [apiFetch] makes the server see: the header, the
    query string of the path and the body. *)
Definition sent (s : Client.state) (q : string) (b : gmap string json) : request :=
  incoming (bearer s) (Url.parse_query q) ∅ b.

(** What [apiFetch] resolves to for an answer of the task routes.  The
    answer of [/me] carries the user document, which is not part of
    this model. *)
Definition received (r : response) : option Client.api_result :=
  match payload_of r with
  | PTasks ts _ =>
      Some (Client.apiFetch_result (status r)
              (Some {| Client.me := None; Client.tasks_of := Some ts;
                       Client.message := None; Client.errors_of := None |}))
  | PTask _ =>
      Some (Client.apiFetch_result (status r)
              (Some {| Client.me := None; Client.tasks_of := None;
                       Client.message := None; Client.errors_of := None |}))
  | PMessage m =>
      Some (Client.apiFetch_result (status r)
              (Some {| Client.me := None; Client.tasks_of := None;
                       Client.message := Some m; Client.errors_of := None |}))
  | PErrors l =>
      Some (Client.apiFetch_result (status r)
              (Some {| Client.me := None; Client.tasks_of := None;
                       Client.message := None; Client.errors_of := Some (map msg l) |}))
  | PMe _ => None
  end.

(** [startEdit] *)
Definition startEdit (t : task) (s : Client.state) : Client.state :=
  {| Client.token := Client.token s; Client.user := Client.user s;
     Client.stored_token := Client.stored_token s; Client.path := Client.path s;
     Client.loadingUser := Client.loadingUser s; Client.tasks := Client.tasks s;
     Client.loading := Client.loading s; Client.title := Client.title s;
     Client.description := Client.description s; Client.error := Client.error s;
     Client.editingId := Some (_id t); Client.editTitle := title t;
     Client.editDescription := description t |}.

Section Calls.

Variable verifyToken : string -> option ObjectId.
Variable unauthenticated : string.
Variable now : Z.

(** One call of the client: the request reaches the route, the answer
    comes back through [apiFetch] and the continuation of the call
    handles it.  The result is the state of the client, the calls it
    issues next and the collection. *)
Definition exchange (r : route) (req : request) (c : Client.call)
    (s : Client.state) (d : db) : option (Client.state * list Client.call * db) :=
  let out := api_tasks verifyToken unauthenticated now r req d in
  res ← received out.1;
  Some (Client.on_response c res s, out.2).


(** [createTask] *)
Definition createTask (s : Client.state) (d : db) :=
  exchange POST_tasks
    (sent s "" {[ "title" := JStr (Client.title s);
                  "description" := JStr (Client.description s) ]})
    Client.CreateTask (Client.setError None s) d.

(** [toggleComplete] *)
Definition toggleComplete (t : task) (s : Client.state) (d : db) :=
  exchange (PUT_task (toHexString (_id t)))
    (sent s "" {[ "completed" := JBool (negb (completed t)) ]})
    Client.ToggleComplete s d.

(** [removeTask], with the answer the user gives to [confirm]. *)
Definition removeTask (confirmed : bool) (t : task) (s : Client.state) (d : db) :=
  if confirmed
  then exchange (DELETE_task (toHexString (_id t))) (sent s "" ∅) Client.RemoveTask s d
  else Some (s, [], d).

(** [saveEdit] *)
Definition saveEdit (t : task) (s : Client.state) (d : db) :=
  exchange (PUT_task (toHexString (_id t)))
    (sent s "" {[ "title" := JStr (Client.editTitle s);
                  "description" := JStr (Client.editDescription s) ]})
    Client.SaveEdit s d.

End Calls.



(** The task with its completion flag flipped. *)
Definition toggled (t : task) : task :=
  {| _id := _id t; title := title t; description := description t;
     completed := negb (completed t); owner := owner t; createdAt := createdAt t |}.

End Session.

(** ** A session for the examples *)

Module SampleSession.
Import Js Mongo Express Routes.

(** A verifier that reads the token after the [Bearer] scheme. *)
Definition verifyToken (h : string) : option ObjectId :=
  if String.prefix "Bearer " h
  then Sample.verifyToken (String.substring 7 (String.length h - 7) h)
  else None.

(** Ann has typed a new task, and has opened one for editing. *)
Definition typing : Client.state :=
  Client.setDescription "two litres" (Client.setTitle "  buy oat milk " Sample.logged_in).

Definition blank : Client.state := Client.setTitle "   " Sample.logged_in.

End SampleSession.

(** ** The login and registration form *)

Module Form.
Import Js.

(** The regular expressions the form uses: a sequence of literal
    characters and of runs of one or more characters of a class.  They
    are matched against the characters of the text; that the language
    matches code units, two for a character beyond U+FFFF, makes no
    difference to these patterns. *)
Inductive atom : Type :=
| Char (c : ascii)
| Many1 (p : string -> bool).

(** A run of one or more characters of the class, then the rest of
    the pattern, with backtracking over the length of the run. *)
Fixpoint many1 (p : string -> bool) (k : list string -> bool) (s : list string) : bool :=
  match s with
  | [] => false
  | a :: s' => p a && (k s' || many1 p k s')
  end.

(** The pattern matches at the start of the text. *)
Fixpoint match_here (pat : list atom) (s : list string) : bool :=
  match pat with
  | [] => true
  | Char c :: pat' =>
      match s with
      | [] => false
      | a :: s' => String.eqb a (String c "") && match_here pat' s'
      end
  | Many1 p :: pat' => many1 p (match_here pat') s
  end.

(** The pattern matches somewhere in the text. *)
Fixpoint match_somewhere (pat : list atom) (s : list string) : bool :=
  match_here pat s
  || match s with
     | [] => false
     | _ :: s' => match_somewhere pat s'
     end.

(** [RegExp.prototype.test] of a pattern without anchors. *)
Definition test (pat : list atom) (s : string) : bool :=
  match_somewhere pat (chars s).

(** [\S] *)
Definition non_space (ch : string) : bool := negb (is_space ch).

(** [/\S+@\S+\.\S+/] *)
Definition email_format : list atom :=
  [Many1 non_space; Char "@"; Many1 non_space; Char "."; Many1 non_space].

Inductive mode : Type := Login | Register.

(** The state hooks of [AuthForm] that [validate] reads. *)
Record fields : Type := {
  mode_of : mode;
  name : string;
  email : string;
  password : string
}.

(** The object [errs]. *)
Record field_errors : Type := {
  name_error : option string;
  email_error : option string;
  password_error : option string
}.

(** [!s.trim()] *)
Definition blank (s : string) : bool := String.eqb (trim s) "".

Definition errs (f : fields) : field_errors :=
  {| name_error :=
       match mode_of f with
       | Register => if blank (name f) then Some "Name is required" else None
       | Login => None
       end;
     email_error :=
       if blank (email f) then Some "Email is required"
       else if negb (test email_format (email f)) then Some "Invalid email format"
       else None;
     password_error :=
       if blank (password f) then Some "Password is required" else None |}.

(** [validate]: [Object.keys(errs).length === 0]. *)
Definition validate (f : fields) : bool :=
  match name_error (errs f), email_error (errs f), password_error (errs f) with
  | None, None, None => true
  | _, _, _ => false
  end.

(** The sequences of characters a pattern matches in full. *)
Fixpoint denotes (pat : list atom) (m : list string) : Prop :=
  match pat with
  | [] => m = []
  | Char c :: pat' => exists m', m = String c "" :: m' /\ denotes pat' m'
  | Many1 p :: pat' =>
      exists w m', m = (w ++ m')%list /\ w <> [] /\ forallb p w = true
                   /\ denotes pat' m'
  end.

(** One or more characters, none of them whitespace. *)
Definition word (w : list string) : Prop := w <> [] /\ forallb non_space w = true.

(** Somewhere in the text there are a word, an at sign, a word, a dot
    and a word in a row. *)
Definition has_address (s : string) : Prop :=
  exists a x y z b,
    chars s = (a ++ x ++ ["@"] ++ y ++ ["."] ++ z ++ b)%list
    /\ word x /\ word y /\ word z.

End Form.

(** ** Logging in and out *)

Module Account.
Import Client.

(** [onSuccess] of both forms: [setToken(t); navigate('/tasks')], then
    the render that follows.  A body without a token gives [None]. *)
Definition onSuccess (t : option string) (s : state) : state :=
  render (setPath "/tasks" (setToken t s)).

(** The logout button of [Header]: [onLogout(); navigate('/login')],
    then the render that follows. *)
Definition logout_button (s : state) : state :=
  render (setPath "/login" (logout s)).

End Account.

(** * Properties *)

(** ** Characters and whitespace *)

Module TrimFacts.
Import Js Text.

Lemma append_cons c s t : (String c s ++ t)%string = String c (s ++ t)%string.
Proof. reflexivity. Qed.

Lemma append_nil_l t : ("" ++ t)%string = t.
Proof. reflexivity. Qed.

Lemma append_nil_r s : (s ++ "")%string = s.
Proof.
  induction s as [|c s IH]; [reflexivity|]. now rewrite append_cons, IH.
Qed.

Lemma append_assoc s1 s2 s3 :
  ((s1 ++ s2) ++ s3)%string = (s1 ++ (s2 ++ s3))%string.
Proof.
  induction s1 as [|c s1 IH]; [reflexivity|]. now rewrite !append_cons, IH.
Qed.


(** A character with all its bytes is cut off a text as it is. *)
Lemma chars_whole a t r :
  String.length t = conts a -> chars (String a t ++ r) = String a t :: chars r.
Proof.
  intros H. rewrite append_cons. simpl chars.
  destruct (conts a) as [|[|[|n]]] eqn:E.
  - destruct t; [|discriminate]. rewrite append_nil_l. now destruct r.
  - destruct t as [|b [|c t]]; try discriminate. reflexivity.
  - destruct t as [|b [|c [|d t]]]; try discriminate. reflexivity.
  - destruct t as [|b [|c [|d [|e t]]]]; try discriminate.
    + reflexivity.
    + simpl in H. unfold conts in E.
      repeat destruct (_ <? _)%N; congruence.
Qed.

(** So is what is left of one at the end of the text. *)
Lemma chars_rest a t :
  (String.length t <= conts a)%nat -> chars (String a t) = [String a t].
Proof.
  intros H. simpl chars.
  destruct (conts a) as [|[|[|n]]] eqn:E.
  - destruct t; [reflexivity|simpl in H; lia].
  - destruct t as [|b [|c t]]; try reflexivity. simpl in H; lia.
  - destruct t as [|b [|c [|d t]]]; try reflexivity. simpl in H; lia.
  - destruct t as [|b [|c [|d [|e t]]]]; try reflexivity.
    unfold conts in E. repeat destruct (_ <? _)%N; try congruence.
    injection E as <-. simpl in H. lia.
Qed.

Lemma chars_cut a s :
  exists t r, s = (t ++ r)%string
              /\ chars (String a s) = String a t :: chars r
              /\ (String.length t = conts a
                  \/ (r = "" /\ (String.length t <= conts a)%nat)).
Proof.
  assert (H3 : (conts a <= 3)%nat).
  { unfold conts. repeat destruct (_ <? _)%N; lia. }
  assert (Hc : forall t r,
             chars (String a (t ++ r)) = String a t :: chars r ->
             String.length t = conts a \/ (r = "" /\ (String.length t <= conts a)%nat) ->
             exists t' r', (t ++ r)%string = (t' ++ r')%string
               /\ chars (String a (t ++ r)) = String a t' :: chars r'
               /\ (String.length t' = conts a
                   \/ (r' = "" /\ (String.length t' <= conts a)%nat))).
  { intros t r H1 H2. exists t, r. auto. }
  destruct (conts a) as [|[|[|n]]] eqn:E.
  - apply (Hc "" s); [|now left]. simpl. rewrite E. now destruct s.
  - destruct s as [|b s].
    + apply (Hc "" ""); [|right; simpl; split; [reflexivity|lia]].
      simpl. now rewrite E.
    + apply (Hc (String b "") s); [|now left]. simpl. now rewrite E.
  - destruct s as [|b [|c s]].
    + apply (Hc "" ""); [|right; simpl; split; [reflexivity|lia]].
      simpl. now rewrite E.
    + apply (Hc (String b "") ""); [|right; simpl; split; [reflexivity|lia]].
      simpl. now rewrite E.
    + apply (Hc (String b (String c "")) s); [|now left]. simpl. now rewrite E.
  - assert (n = 0)%nat as -> by lia.
    destruct s as [|b [|c [|d s]]].
    + apply (Hc "" ""); [|right; simpl; split; [reflexivity|lia]].
      simpl. now rewrite E.
    + apply (Hc (String b "") ""); [|right; simpl; split; [reflexivity|lia]].
      simpl. now rewrite E.
    + apply (Hc (String b (String c "")) "");
        [|right; simpl; split; [reflexivity|lia]].
      simpl. now rewrite E.
    + apply (Hc (String b (String c (String d ""))) s); [|now left].
      simpl. now rewrite E.
Qed.

Lemma string_length_app s t :
  String.length (s ++ t)%string = (String.length s + String.length t)%nat.
Proof. induction s as [|c s IH]; simpl; [reflexivity|]. now rewrite IH. Qed.

(** Induction over a text, one character at a time. *)
Lemma chars_ind (P : string -> Prop) :
  P "" ->
  (forall ch r, ch <> "" -> chars (ch ++ r) = ch :: chars r ->
                well_cut [ch] \/ True -> P r -> P (ch ++ r)%string) ->
  forall s, P s.
Proof.
  intros H0 Hstep s.
  remember (String.length s) as n eqn:Hn.
  revert s Hn. induction n as [n IH] using lt_wf_ind. intros s Hn.
  destruct s as [|a s]; [exact H0|].
  destruct (chars_cut a s) as (t & r & E & Hc & _). subst s.
  rewrite <- append_cons. apply Hstep.
  - discriminate.
  - rewrite append_cons. exact Hc.
  - now right.
  - apply (IH (String.length r)); [|reflexivity].
    subst n. simpl. rewrite string_length_app. lia.
Qed.

Lemma join_chars s : join (chars s) = s.
Proof.
  induction s as [|ch r Hne Hc _ IH] using chars_ind; [reflexivity|].
  rewrite Hc. simpl. fold (join (chars r)). now rewrite IH.
Qed.

Lemma chars_well_cut s : well_cut (chars s).
Proof.
  remember (String.length s) as n eqn:Hn.
  revert s Hn. induction n as [n IH] using lt_wf_ind. intros s Hn.
  destruct s as [|a s]; [exact I|].
  destruct (chars_cut a s) as (t & r & E & Hc & Hs). subst s.
  rewrite Hc. simpl. split.
  - destruct Hs as [Hs|[-> Hs]]; [now left|right]. split; [reflexivity|exact Hs].
  - apply (IH (String.length r)); [|reflexivity].
    subst n. simpl. rewrite string_length_app. lia.
Qed.

Lemma well_cut_chars l : well_cut l -> chars (join l) = l.
Proof.
  induction l as [|ch l IH]; [reflexivity|].
  intros [Hch Hl]. destruct ch as [|a t]; [contradiction|].
  simpl join. fold (join l). destruct Hch as [H|[-> H]].
  - rewrite (chars_whole a t (join l) H). now rewrite (IH Hl).
  - simpl. rewrite append_nil_r. now apply chars_rest.
Qed.

Lemma well_cut_app l1 l2 : well_cut (l1 ++ l2) -> well_cut l1 /\ well_cut l2.
Proof.
  induction l1 as [|ch l1 IH]; simpl; [tauto|].
  intros [Hch H]. destruct (IH H) as [H1 H2]. repeat split; try assumption.
  destruct ch as [|a t]; [contradiction|].
  destruct Hch as [Hch|[E Hch]]; [now left|].
  apply app_eq_nil in E as [-> _]. right. auto.
Qed.

Lemma well_cut_skip l : well_cut l -> well_cut (skip_spaces l).
Proof.
  induction l as [|ch l IH]; [tauto|]. intros H. simpl.
  destruct (is_space ch); [apply IH, H|exact H].
Qed.

(** *** Skipping whitespace *)

Lemma skip_spaces_cut l :
  exists l1, l = (l1 ++ skip_spaces l)%list /\ forallb is_space l1 = true.
Proof.
  induction l as [|ch l (l1 & E & H)]; [now exists []|]. simpl.
  destruct (is_space ch) eqn:Hc.
  - exists (ch :: l1). simpl. rewrite Hc, H. split; [now rewrite <- E|reflexivity].
  - now exists [].
Qed.

Lemma skip_spaces_head l :
  match skip_spaces l with [] => True | ch :: _ => is_space ch = false end.
Proof.
  induction l as [|ch l IH]; [exact I|]. simpl.
  destruct (is_space ch) eqn:Hc; [exact IH|exact Hc].
Qed.

Lemma skip_spaces_none l :
  match l with [] => True | ch :: _ => is_space ch = false end ->
  skip_spaces l = l.
Proof. destruct l as [|ch l]; [reflexivity|]. simpl. now intros ->. Qed.

Lemma skip_spaces_all l : skip_spaces l = [] <-> forallb is_space l = true.
Proof.
  induction l as [|ch l IH]; simpl; [tauto|].
  destruct (is_space ch); simpl; [exact IH|]. split; discriminate.
Qed.

Lemma skip_spaces_snoc l ch :
  skip_spaces (l ++ [ch])
  = match skip_spaces l with
    | [] => if is_space ch then [] else [ch]
    | m => (m ++ [ch])%list
    end.
Proof.
  induction l as [|x l IH]; [reflexivity|]. simpl.
  destruct (is_space x); [exact IH|reflexivity].
Qed.

(** Whitespace skipped at the end. *)
Lemma rskip_cons ch l :
  rev (skip_spaces (rev (ch :: l)))
  = match rev (skip_spaces (rev l)) with
    | [] => if is_space ch then [] else [ch]
    | m => ch :: m
    end.
Proof.
  simpl rev. rewrite skip_spaces_snoc.
  destruct (skip_spaces (rev l)) as [|y m] eqn:E.
  - simpl. destruct (is_space ch); reflexivity.
  - rewrite rev_app_distr. change (rev [ch]) with [ch].
    destruct (rev (y :: m)) eqn:E'; [|reflexivity].
    apply (f_equal (@length _)) in E'. rewrite length_rev in E'. discriminate.
Qed.

Lemma rskip_cut l :
  exists l2, l = (rev (skip_spaces (rev l)) ++ l2)%list /\ forallb is_space l2 = true.
Proof.
  destruct (skip_spaces_cut (rev l)) as (l1 & E & H).
  exists (rev l1). split.
  - rewrite <- rev_app_distr, <- E. now rewrite rev_involutive.
  - rewrite forallb_forall in *. intros x Hx. apply H. now apply in_rev.
Qed.

Lemma rskip_head l :
  match l with [] => True | ch :: _ => is_space ch = false end ->
  match rev (skip_spaces (rev l)) with [] => True | ch :: _ => is_space ch = false end.
Proof.
  destruct l as [|ch l]; [intros _; exact I|]. intros Hc.
  rewrite rskip_cons, Hc. destruct (rev (skip_spaces (rev l))); exact Hc.
Qed.

(** *** Trimming *)

Lemma chars_ltrim s : chars (ltrim s) = skip_spaces (chars s).
Proof. apply well_cut_chars, well_cut_skip, chars_well_cut. Qed.

Lemma chars_rtrim s : chars (rtrim s) = rev (skip_spaces (rev (chars s))).
Proof.
  apply well_cut_chars. destruct (rskip_cut (chars s)) as (l2 & E & _).
  pose proof (chars_well_cut s) as H. rewrite E in H.
  now apply well_cut_app in H.
Qed.

Lemma chars_trim s :
  chars (trim s) = rev (skip_spaces (rev (skip_spaces (chars s)))).
Proof. unfold trim. now rewrite chars_rtrim, chars_ltrim. Qed.

Lemma chars_inj s t : chars s = chars t -> s = t.
Proof. intros H. rewrite <- (join_chars s), <- (join_chars t). now rewrite H. Qed.

Lemma ltrim_clean s : clean_start (ltrim s).
Proof. unfold clean_start. rewrite chars_ltrim. apply skip_spaces_head. Qed.

Lemma ltrim_of_clean s : clean_start s -> ltrim s = s.
Proof.
  unfold clean_start. intros H. apply chars_inj. rewrite chars_ltrim.
  now apply skip_spaces_none.
Qed.

Lemma ltrim_idempotent s : ltrim (ltrim s) = ltrim s.
Proof. apply ltrim_of_clean, ltrim_clean. Qed.

Lemma rtrim_idempotent s : rtrim (rtrim s) = rtrim s.
Proof.
  apply chars_inj. rewrite !chars_rtrim. rewrite rev_involutive.
  now rewrite (skip_spaces_none _ (skip_spaces_head _)).
Qed.

Lemma rtrim_clean s : clean_start s -> clean_start (rtrim s).
Proof. unfold clean_start. rewrite chars_rtrim. apply rskip_head. Qed.




Lemma trim_idempotent s : trim (trim s) = trim s.
Proof.
  unfold trim. rewrite (ltrim_of_clean (rtrim (ltrim s))).
  - apply rtrim_idempotent.
  - apply rtrim_clean, ltrim_clean.
Qed.

(** Trimming leaves nothing exactly when the text is all whitespace. *)
Lemma trim_blank s : trim s = "" <-> all_space s.
Proof.
  unfold all_space. rewrite <- skip_spaces_all. split.
  - intros H. apply (f_equal chars) in H. rewrite chars_trim in H. simpl in H.
    pose proof (skip_spaces_head (chars s)) as Hh.
    destruct (skip_spaces (chars s)) as [|ch l]; [reflexivity|].
    rewrite rskip_cons, Hh in H. destruct (rev (skip_spaces (rev l))); discriminate.
  - intros H. apply chars_inj. rewrite chars_trim, H. reflexivity.
Qed.


(** A text that begins with a byte below 128 that is not whitespace is
    left as it is by [ltrim]. *)
Lemma ltrim_plain c s :
  (N_of_ascii c <? 128)%N = true -> is_space (String c "") = false ->
  ltrim (String c s) = String c s.
Proof.
  intros Hc Hs. apply ltrim_of_clean. unfold clean_start.
  assert (E : conts c = 0%nat).
  { unfold conts. apply N.ltb_lt in Hc.
    destruct (N.ltb_spec (N_of_ascii c) 192); [reflexivity|lia]. }
  change (String c s) with (String c "" ++ s)%string.
  rewrite (chars_whole c "" s); [exact Hs|now rewrite E].
Qed.

End TrimFacts.

(** ** Strings and numbers *)

Module JsFacts.
Import Js Text TrimFacts.

(** A text that the integer pattern accepts begins with a sign or a
    digit, and [ltrim] leaves it as it is. *)
Lemma int_pattern_ltrim s n : int_pattern s = Some n -> ltrim s = s.
Proof.
  destruct s as [|c s]; [reflexivity|]. intros H.
  assert (Hc : ltrim (String c s) = String c s \/ int_pattern (String c s) = None).
  { destruct c as [[] [] [] [] [] [] [] []];
      first [left; apply ltrim_plain; reflexivity | right; reflexivity]. }
  destruct Hc as [Hc|Hc]; [exact Hc|congruence].
Qed.

(** *** Numbers *)

Lemma to_number_small n : Z.abs n <= 2 ^ 53 -> to_number n = n.
Proof. intros H. unfold to_number. apply Z.leb_le in H. now rewrite H. Qed.

(** Beyond 2^53 a Number keeps the sign and stays beyond 2^53. *)
Lemma to_number_large n : 2 ^ 53 < Z.abs n -> 2 ^ 53 <= Z.sgn n * to_number n.
Proof.
  intros H. unfold to_number.
  destruct (Z.leb_spec (Z.abs n) (2 ^ 53)) as [H'|_]; [lia|].
  set (a := Z.abs n) in *.
  assert (Ha : 0 < a) by (pose proof (Z.pow_pos_nonneg 2 53); lia).
  pose proof (Z.log2_spec a Ha) as [Hlo _].
  assert (H53 : 53 <= Z.log2 a).
  { rewrite <- (Z.log2_pow2 53) by lia. apply Z.log2_le_mono. lia. }
  set (e := Z.log2 a - 52) in *.
  assert (He : 1 <= e) by lia.
  assert (Hp : 2 ^ Z.log2 a = 2 ^ 52 * 2 ^ e).
  { rewrite <- Z.pow_add_r by lia. f_equal. lia. }
  assert (Hpe : 0 < 2 ^ e) by (apply Z.pow_pos_nonneg; lia).
  assert (Hq : 2 ^ 52 <= a / 2 ^ e).
  { apply Z.div_le_lower_bound; [exact Hpe|]. lia. }
  set (q := a / 2 ^ e) in *.
  set (q' := if a mod 2 ^ e <? 2 ^ (e - 1) then q
             else if 2 ^ (e - 1) <? a mod 2 ^ e then q + 1
             else if Z.even q then q else q + 1).
  assert (Hq' : q <= q').
  { unfold q'. destruct (_ <? _); [lia|]. destruct (_ <? _); [lia|].
    destruct (Z.even q); lia. }
  assert (H2e : 2 <= 2 ^ e).
  { change 2 with (2 ^ 1) at 1. apply Z.pow_le_mono_r; lia. }
  assert (Hs : Z.sgn n * Z.sgn n = 1) by (unfold a in Ha; destruct n; simpl in *; lia).
  rewrite Z.mul_assoc, Hs, Z.mul_1_l.
  assert (2 ^ 53 = 2 ^ 52 * 2) by reflexivity.
  nia.
Qed.

Lemma to_number_bound n b :
  Z.abs b < 2 ^ 53 ->
  (b <=? to_number n) = (b <=? n) /\ (to_number n <=? b) = (n <=? b).
Proof.
  intros Hb. destruct (Z.le_gt_cases (Z.abs n) (2 ^ 53)) as [H|H].
  - now rewrite (to_number_small n H).
  - pose proof (to_number_large n H) as Hl.
    assert (H53 : 0 < 2 ^ 53) by (apply Z.pow_pos_nonneg; lia).
    destruct (Z.lt_trichotomy n 0) as [Hn|[Hn|Hn]].
    + rewrite (Z.sgn_neg n Hn) in Hl.
      split; [rewrite !(proj2 (Z.leb_gt _ _)) by lia; reflexivity|].
      rewrite !(proj2 (Z.leb_le _ _)) by lia. reflexivity.
    + subst n. simpl in H. lia.
    + rewrite (Z.sgn_pos n Hn) in Hl.
      split; [rewrite !(proj2 (Z.leb_le _ _)) by lia; reflexivity|].
      rewrite !(proj2 (Z.leb_gt _ _)) by lia. reflexivity.
Qed.

(** On a string that validator.js accepts as an integer, [parseInt]
    returns the Number of the integer the string denotes. *)
Lemma int_pattern_parseInt s n :
  int_pattern s = Some n -> parseInt s = Some (to_number n).
Proof.
  intros H. unfold parseInt. rewrite (int_pattern_ltrim s n H).
  unfold int_pattern in H.
  destruct (read_sign s) as [neg s1].
  destruct (read_digits s1 0 0) as [[v k] rest].
  destruct k; [discriminate|]. destruct rest; [|discriminate].
  injection H as <-. reflexivity.
Qed.

Lemma split_nonempty sep s : split sep s <> [].
Proof.
  destruct s as [|c s]; simpl; [discriminate|].
  destruct (Ascii.eqb c sep); [discriminate|].
  destruct (split sep s); discriminate.
Qed.

End JsFacts.

(** ** The collection *)

Module MongoFacts.
Import Js Mongo.

Lemma matches_lookup f t k v :
  matches f t = true -> f !! k = Some v -> cast_for k v = Some (get_path k t).
Proof.
  unfold matches. intros H Hk. apply bool_decide_eq_true in H.
  exact (proj1 (map_Forall_lookup _ _) H k v Hk).
Qed.

(** A filter that names an owner only matches that owner's documents. *)
Lemma matches_owner f t u :
  f !! "owner" = Some (BOid u) -> matches f t = true -> owner t = u.
Proof.
  intros Hf Hm. pose proof (matches_lookup f t _ _ Hm Hf) as H.
  unfold cast_for, schema, get_path in H. simpl in H. congruence.
Qed.

Lemma matches_completed f t b :
  f !! "completed" = Some (BBool b) -> matches f t = true -> completed t = b.
Proof.
  intros Hf Hm. pose proof (matches_lookup f t _ _ Hm Hf) as H.
  unfold cast_for, schema, get_path in H. simpl in H. congruence.
Qed.

Lemma filter_casts_lookup f k v :
  filter_casts f = true -> f !! k = Some v -> is_Some (cast_for k v).
Proof.
  unfold filter_casts. intros H Hk. apply bool_decide_eq_true in H.
  exact (proj1 (map_Forall_lookup _ _) H k v Hk).
Qed.

(** *** Sorting keeps the documents and orders them *)

Lemma bson_compare_antisym a b : bson_compare b a = CompOpp (bson_compare a b).
Proof.
  destruct a, b; simpl; try reflexivity.
  - destruct b, b0; reflexivity.
  - apply Z.compare_antisym.
  - apply String.compare_antisym.
  - apply N.compare_antisym.
  - apply Z.compare_antisym.
Qed.

Lemma doc_compare_antisym s a b : doc_compare s b a = CompOpp (doc_compare s a b).
Proof.
  induction s as [|[k dir] s IH]; simpl; [reflexivity|].
  rewrite (bson_compare_antisym (get_path k a) (get_path k b)).
  destruct (dir =? 1), (bson_compare (get_path k a) (get_path k b));
    simpl; auto.
Qed.

Lemma doc_le_total s a b : doc_le s a b = false -> doc_le s b a = true.
Proof.
  unfold doc_le. rewrite (doc_compare_antisym s a b).
  destruct (doc_compare s a b); simpl; congruence.
Qed.

Lemma insert_doc_Forall (P : task -> Prop) s x l :
  P x -> Forall P l -> Forall P (insert_doc s x l).
Proof.
  intros Hx Hl. induction Hl as [|y l Hy Hl IH]; simpl.
  - constructor; [exact Hx | constructor].
  - destruct (doc_le s x y); repeat constructor; auto.
Qed.

Lemma sort_docs_Forall (P : task -> Prop) s l :
  Forall P l -> Forall P (sort_docs s l).
Proof.
  intros H. induction H as [|x l Hx Hl IH]; simpl; [constructor|].
  now apply insert_doc_Forall.
Qed.

Lemma insert_doc_HdRel s a x l :
  doc_le s a x = true -> HdRel (fun u v => doc_le s u v = true) a l ->
  HdRel (fun u v => doc_le s u v = true) a (insert_doc s x l).
Proof.
  intros Hax Hl. destruct l as [|y l]; simpl.
  - now constructor.
  - destruct (doc_le s x y); constructor; auto. now inversion Hl.
Qed.

Lemma insert_doc_Sorted s x l :
  Sorted (fun u v => doc_le s u v = true) l ->
  Sorted (fun u v => doc_le s u v = true) (insert_doc s x l).
Proof.
  intros H. induction H as [|y l Hl IH Hhd]; simpl.
  - repeat constructor.
  - destruct (doc_le s x y) eqn:E.
    + constructor; [constructor; assumption | now constructor].
    + constructor; [exact IH|].
      apply insert_doc_HdRel; [ now apply doc_le_total | exact Hhd ].
Qed.

Lemma sort_docs_Sorted s l :
  Sorted (fun u v => doc_le s u v = true) (sort_docs s l).
Proof.
  induction l as [|x l IH]; simpl; [constructor|].
  now apply insert_doc_Sorted.
Qed.

Lemma Sorted_all {A} (R : A -> A -> Prop) l : (forall x y, R x y) -> Sorted R l.
Proof.
  intros HR. induction l as [|x l IH]; constructor; [exact IH|].
  destruct l; constructor. apply HR.
Qed.

(** The stored order has no key in the documents: on [$natural] all
    documents compare equal. *)
Lemma doc_le_natural dir x y : doc_le [("$natural", dir)] x y = true.
Proof. unfold doc_le. simpl. now destruct (dir =? 1). Qed.

Lemma order_docs_Forall (P : task -> Prop) s l :
  Forall P l -> Forall P (order_docs s l).
Proof.
  intros H. unfold order_docs.
  destruct s as [|[k dir] [|kd s]]; try now apply sort_docs_Forall.
  destruct (String.eqb k "$natural"); [|now apply sort_docs_Forall].
  destruct (dir =? 1); [exact H|]. apply List.Forall_forall. intros x Hx.
  apply List.in_rev in Hx. revert x Hx. now apply List.Forall_forall.
Qed.

Lemma order_docs_Sorted s l :
  Sorted (fun u v => doc_le s u v = true) (order_docs s l).
Proof.
  unfold order_docs.
  destruct s as [|[k dir] [|kd s]]; try apply sort_docs_Sorted.
  destruct (String.eqb_spec k "$natural") as [->|_]; [|apply sort_docs_Sorted].
  destruct (dir =? 1); apply Sorted_all; intros x y; apply doc_le_natural.
Qed.

Lemma Sorted_drop {A} (R : A -> A -> Prop) n l : Sorted R l -> Sorted R (drop n l).
Proof.
  revert l. induction n as [|n IH]; intros l H; [now rewrite drop_0|].
  destruct l as [|x l]; simpl; [constructor|].
  apply IH. now inversion H.
Qed.

Lemma Sorted_take {A} (R : A -> A -> Prop) n l : Sorted R l -> Sorted R (take n l).
Proof.
  revert l. induction n as [|n IH]; intros l H; [constructor|].
  destruct l as [|x l]; simpl; [constructor|].
  inversion H as [|? ? Hl Hhd]; subst. constructor; [now apply IH|].
  destruct l as [|y l]; [destruct n; constructor|].
  destruct n; simpl; constructor. now inversion Hhd.
Qed.

Lemma limit_docs_Sorted (R : task -> task -> Prop) n l :
  Sorted R l -> Sorted R (limit_docs n l).
Proof.
  intros H. unfold limit_docs. destruct (n =? 0); [exact H|].
  now apply Sorted_take.
Qed.

Lemma limit_docs_length n l :
  1 <= n -> Z.of_nat (length (limit_docs n l)) <= n.
Proof.
  intros Hn. unfold limit_docs.
  destruct (n =? 0) eqn:E; [apply Z.eqb_eq in E; lia|].
  rewrite length_take. lia.
Qed.

Lemma limit_docs_Forall (P : task -> Prop) n l :
  Forall P l -> Forall P (limit_docs n l).
Proof.
  intros H. unfold limit_docs. destruct (n =? 0); [exact H|].
  now apply Forall_take.
Qed.

Lemma filter_matches_Forall f l :
  Forall (fun t => matches f t = true) (List.filter (matches f) l).
Proof.
  apply List.Forall_forall. intros t Ht. apply List.filter_In in Ht. tauto.
Qed.

(** What [find] returns: documents of the collection that match the
    filter, in the requested order, and no more than the limit. *)
Lemma find_spec f s skip limit d l :
  1 <= limit ->
  find f s skip limit d = Some l ->
  Forall (fun t => matches f t = true) l
  /\ Forall (fun t => In t (tasks d)) l
  /\ Sorted (fun u v => doc_le s u v = true) l
  /\ Z.of_nat (length l) <= limit.
Proof.
  intros Hlim. unfold find.
  destruct (filter_casts f && (0 <=? skip) && sort_ok s); [|discriminate].
  intros [= <-]. repeat split.
  - apply limit_docs_Forall, Forall_drop, order_docs_Forall, filter_matches_Forall.
  - apply limit_docs_Forall, Forall_drop, order_docs_Forall.
    apply List.Forall_forall. intros t Ht. apply List.filter_In in Ht. tauto.
  - apply limit_docs_Sorted, Sorted_drop, order_docs_Sorted.
  - now apply limit_docs_length.
Qed.

End MongoFacts.

(** ** Evaluating the routes

    Each route, on a request whose token resolves, is its handler applied
    to the request that the middlewares have prepared. *)

Module RouteFacts.
Import Js Mongo Express Routes.

Lemma add_errors_nil req : add_errors [] req = req.
Proof. destruct req. unfold add_errors. simpl. now rewrite app_nil_r. Qed.

Lemma validate_optional_check l name v m req :
  let c := {| loc := l; field := name; optional := true; items := [Verify v m] |} in
  validate c req = inr (add_errors (check_errors name v m (read_field c req)) req).
Proof.
  unfold validate, check_errors. destruct (read_field _ req) as [x|]; simpl.
  - rewrite decide_True by reflexivity. reflexivity.
  - now rewrite add_errors_nil.
Qed.

Lemma validate_id req :
  validate id_chain req = inr (add_errors (id_errors (params req)) req).
Proof.
  unfold validate, id_chain, id_errors, read_field. simpl.
  destruct (params req !! "id") as [x|]; simpl;
    [rewrite decide_True by reflexivity|]; reflexivity.
Qed.

(** The title chain on a body that holds a title. *)
Lemma validate_title_present opt m a u q p b es x :
  b !! "title" = Some x ->
  validate {| loc := Body; field := "title"; optional := opt;
              items := [Verify IsString invalid_value; Trim; Verify NotEmpty m] |}
    {| authorization := a; user := u; query := q; params := p; body := b; errors := es |}
  = inr {| authorization := a; user := u; query := q; params := p;
           body := <["title" := title_value (Some x)]> b;
           errors := es ++ title_errors m (Some x) |}.
Proof.
  intros Hx. unfold validate, read_field. simpl. rewrite Hx. simpl.
  unfold title_errors, title_value, add_errors. simpl.
  destruct (decide (Some (JStr (trim (toString x))) = Some x)) as [E|E]; simpl.
  - rewrite insert_id by congruence.
    destruct (isStringValue x), (String.eqb (trim (toString x)) ""); reflexivity.
  - destruct (isStringValue x), (String.eqb (trim (toString x)) ""); reflexivity.
Qed.

Lemma validate_title_missing m a u q p b es :
  b !! "title" = None ->
  validate {| loc := Body; field := "title"; optional := false;
              items := [Verify IsString invalid_value; Trim; Verify NotEmpty m] |}
    {| authorization := a; user := u; query := q; params := p; body := b; errors := es |}
  = inr {| authorization := a; user := u; query := q; params := p;
           body := <["title" := title_value None]> b;
           errors := es ++ title_errors m None |}.
Proof.
  intros Hx. unfold validate, read_field. simpl. rewrite Hx. reflexivity.
Qed.

Section Eval.
Variable vt : string -> option ObjectId.
Variable msg : string.
Variable now : Z.

Lemma api_unauthenticated r req d :
  authorization req ≫= vt = None ->
  api_tasks vt msg now r req d = ({| status := 401; payload_of := PMessage msg |}, d).
Proof. intros H. unfold api_tasks. simpl. unfold auth. now rewrite H. Qed.

Lemma api_list_eval a u0 q p b es d u :
  a ≫= vt = Some u ->
  api_tasks vt msg now GET_tasks
    {| authorization := a; user := u0; query := q; params := p; body := b; errors := es |} d =
  list_tasks
    {| authorization := a; user := Some u; query := q; params := p; body := b;
       errors := es ++ list_errors q |} d.
Proof.
  intros Hu. unfold api_tasks, taskRoutes, list_chains. simpl run.
  unfold auth at 1. simpl authorization. rewrite Hu.
  unfold auth. simpl authorization. rewrite Hu.
  rewrite !validate_optional_check. unfold add_errors, read_field, list_errors. simpl.
  rewrite <- !app_assoc. reflexivity.
Qed.

Lemma api_create_eval a u0 q p b es d u :
  a ≫= vt = Some u ->
  api_tasks vt msg now POST_tasks
    {| authorization := a; user := u0; query := q; params := p; body := b; errors := es |} d =
  create_task now
    {| authorization := a; user := Some u; query := q; params := p;
       body := create_body b; errors := es ++ create_errors b |} d.
Proof.
  intros Hu. unfold api_tasks, taskRoutes, create_chains. simpl run.
  unfold auth at 1. simpl authorization. rewrite Hu.
  unfold auth. simpl authorization. rewrite Hu. simpl.
  unfold create_body, create_errors.
  destruct (b !! "title") as [x|] eqn:Hx.
  - rewrite (validate_title_present _ _ _ _ _ _ _ _ x Hx).
    rewrite validate_optional_check. unfold add_errors, read_field. simpl.
    rewrite lookup_insert_ne by done. rewrite <- !app_assoc. reflexivity.
  - rewrite (validate_title_missing _ _ _ _ _ _ _ Hx).
    rewrite validate_optional_check. unfold add_errors, read_field. simpl.
    rewrite lookup_insert_ne by done. rewrite <- !app_assoc. reflexivity.
Qed.

Lemma api_get_eval id a u0 q p b es d u :
  a ≫= vt = Some u ->
  api_tasks vt msg now (GET_task id)
    {| authorization := a; user := u0; query := q; params := p; body := b; errors := es |} d =
  get_task
    {| authorization := a; user := Some u; query := q; params := <["id" := id]> p;
       body := b; errors := es ++ id_errors (<["id" := id]> p) |} d.
Proof.
  intros Hu. unfold api_tasks, taskRoutes. simpl run.
  unfold auth at 1. simpl authorization. rewrite Hu.
  unfold with_id, auth. simpl authorization. rewrite Hu. simpl.
  rewrite validate_id. reflexivity.
Qed.

Lemma api_delete_eval id a u0 q p b es d u :
  a ≫= vt = Some u ->
  api_tasks vt msg now (DELETE_task id)
    {| authorization := a; user := u0; query := q; params := p; body := b; errors := es |} d =
  delete_task
    {| authorization := a; user := Some u; query := q; params := <["id" := id]> p;
       body := b; errors := es ++ id_errors (<["id" := id]> p) |} d.
Proof.
  intros Hu. unfold api_tasks, taskRoutes. simpl run.
  unfold auth at 1. simpl authorization. rewrite Hu.
  unfold with_id, auth. simpl authorization. rewrite Hu. simpl.
  rewrite validate_id. reflexivity.
Qed.

Lemma api_update_eval id a u0 q p b es d u :
  a ≫= vt = Some u ->
  api_tasks vt msg now (PUT_task id)
    {| authorization := a; user := u0; query := q; params := p; body := b; errors := es |} d =
  update_task
    {| authorization := a; user := Some u; query := q; params := <["id" := id]> p;
       body := update_body b;
       errors := es ++ id_errors (<["id" := id]> p) ++ update_errors b |} d.
Proof.
  intros Hu. unfold api_tasks, taskRoutes, update_chains. simpl run.
  unfold auth at 1. simpl authorization. rewrite Hu.
  unfold with_id, auth. simpl authorization. rewrite Hu. simpl.
  rewrite validate_id. unfold add_errors at 1. simpl.
  unfold update_body, update_errors.
  destruct (b !! "title") as [x|] eqn:Hx.
  - rewrite (validate_title_present _ _ _ _ _ _ _ _ x Hx).
    rewrite !validate_optional_check. unfold add_errors, read_field. simpl.
    rewrite !lookup_insert_ne by done. rewrite <- !app_assoc. reflexivity.
  - unfold validate at 1. unfold read_field at 1. simpl. rewrite Hx.
    rewrite !validate_optional_check. unfold add_errors, read_field. simpl.
    rewrite <- !app_assoc. reflexivity.
Qed.

End Eval.
End RouteFacts.

(** ** Listing *)

Module ListFacts.
Import Js Mongo Express Routes JsFacts MongoFacts RouteFacts.

Lemma check_int_valid name lo hi m (x : option string) :
  check_errors name (IsInt lo hi) m (JStr <$> x) = [] ->
  match x with
  | Some s => exists n, int_pattern s = Some n /\ in_range lo hi (to_number n) = true
                        /\ or_default x "1" = s /\ or_default x "10" = s
  | None => True
  end.
Proof.
  destruct x as [s|]; simpl; [|trivial].
  unfold isInt. destruct (int_pattern s) as [n|] eqn:E; [|discriminate].
  destruct (in_range lo hi (to_number n)) eqn:R; [|discriminate].
  intros _. exists n. split; [reflexivity|]. split; [exact R|].
  split; (destruct s; [discriminate E | reflexivity]).
Qed.

Lemma page_valid q :
  check_errors "page" (IsInt (Some 1) None) "page must be >= 1" (JStr <$> q !! "page") = [] ->
  exists n, list_page q = Some n /\ 1 <= n /\ supplied_int (q !! "page") 1 n.
Proof.
  intros H. apply check_int_valid in H. unfold list_page.
  destruct (q !! "page") as [s|].
  - destruct H as (n & Hn & Hr & -> & _). rewrite (int_pattern_parseInt _ _ Hn).
    unfold in_range in Hr. simpl in Hr. exists (to_number n). simpl.
    assert (1 <= to_number n) by lia. rewrite Z.max_r by lia.
    rewrite Hn. auto.
  - exists 1. repeat split; reflexivity || lia.
Qed.

(** A limit that passes validation is read exactly. *)
Lemma limit_valid q :
  check_errors "limit" (IsInt (Some 1) (Some 100)) "limit must be between 1 and 100" (JStr <$> q !! "limit") = [] ->
  exists n, list_limit q = Some n /\ 1 <= n <= 100 /\ supplied_int (q !! "limit") 10 n
            /\ match q !! "limit" with
               | Some s => int_pattern s = Some n
               | None => n = 10
               end.
Proof.
  intros H. apply check_int_valid in H. unfold list_limit.
  destruct (q !! "limit") as [s|].
  - destruct H as (n & Hn & Hr & _ & ->). rewrite (int_pattern_parseInt _ _ Hn).
    unfold in_range in Hr.
    destruct (to_number_bound n 1 ltac:(reflexivity)) as [E1 _].
    destruct (to_number_bound n 100 ltac:(reflexivity)) as [_ E2].
    rewrite E1, E2 in Hr.
    assert (Hb : 1 <= n <= 100) by lia.
    assert (En : to_number n = n).
    { apply to_number_small. assert (100 <= 2 ^ 53) by (now vm_compute). lia. }
    exists n. simpl. rewrite En, Hn.
    rewrite Z.min_r by lia. rewrite Z.max_r by lia. simpl. rewrite En. auto.
  - exists 10. repeat split; reflexivity || lia.
Qed.

(** *** The offset of a page *)

Lemma to_number_nonneg n : 0 <= n -> 0 <= to_number n.
Proof.
  intros Hn. destruct (Z.le_gt_cases (Z.abs n) (2 ^ 53)) as [H|H].
  - now rewrite (to_number_small n H).
  - pose proof (to_number_large n H) as Hl.
    assert (H53 : 0 < 2 ^ 53) by (now vm_compute).
    rewrite Z.sgn_pos in Hl by lia. lia.
Qed.

Lemma list_skip_nonneg pg lim : 1 <= pg -> 1 <= lim -> 0 <= list_skip pg lim.
Proof.
  intros Hp Hl. unfold list_skip. apply to_number_nonneg.
  pose proof (to_number_nonneg (pg - 1) ltac:(lia)). nia.
Qed.



(** *** Sort keys *)

Lemma split_no_sep sep s :
  string_forallb (fun x => negb (Ascii.eqb x sep)) s = true -> split sep s = [s].
Proof.
  induction s as [|c s IH]; simpl; [reflexivity|].
  intros H. apply andb_true_iff in H as [Hc Hs].
  apply negb_true_iff in Hc. rewrite Hc, (IH Hs). reflexivity.
Qed.

(** A single field name is a sort key the database accepts. *)
Lemma plain_name_ok k : Order.plain_name k = true -> sort_key_ok k = true.
Proof.
  unfold Order.plain_name, sort_key_ok. intros H.
  apply andb_true_iff in H as [Hn Hd].
  rewrite (split_no_sep "." k Hd). simpl. rewrite Hn. apply orb_true_r.
Qed.

Lemma plain_sort_ok s : Order.plain_sort s -> sort_ok s = true.
Proof.
  unfold Order.plain_sort, sort_ok. induction 1 as [|[k dir] s Hk _ IH]; simpl.
  - reflexivity.
  - now rewrite (plain_name_ok k Hk).
Qed.

Lemma list_filter_owner u q : list_filter u q !! "owner" = Some (BOid u).
Proof.
  unfold list_filter. destruct (q !! "completed").
  - rewrite lookup_insert_ne by done. apply lookup_singleton_eq.
  - apply lookup_singleton_eq.
Qed.

Lemma list_filter_casts u q : filter_casts (list_filter u q) = true.
Proof.
  unfold filter_casts, list_filter. apply bool_decide_eq_true.
  destruct (q !! "completed").
  - apply map_Forall_insert; [now apply lookup_singleton_ne|].
    split; [now eexists|]. apply map_Forall_singleton. now eexists.
  - apply map_Forall_singleton. now eexists.
Qed.

(** A list request that passed validation is answered with a page,
    unless the database refuses the sort key. *)
Lemma list_tasks_valid a u q p b d :
  list_errors q = [] ->
  exists pg lim,
    list_page q = Some pg /\ list_limit q = Some lim
    /\ 1 <= pg /\ 1 <= lim <= 100
    /\ supplied_int (q !! "page") 1 pg /\ supplied_int (q !! "limit") 10 lim
    /\ (sort_ok (list_sort q) = false ->
        list_tasks {| authorization := a; user := Some u; query := q;
                      params := p; body := b; errors := [] |} d
        = (server_error, d))
    /\ (sort_ok (list_sort q) = true ->
        exists ts,
          find (list_filter u q) (list_sort q) (list_skip pg lim) lim d = Some ts
          /\ list_tasks {| authorization := a; user := Some u; query := q;
                           params := p; body := b; errors := [] |} d
             = ({| status := 200;
                   payload_of :=
                     PTasks ts
                       {| total := Z.of_nat (length (List.filter (matches (list_filter u q)) (tasks d)));
                          page := pg; limit := lim;
                          pages := ceil_div (Z.of_nat (length (List.filter (matches (list_filter u q)) (tasks d)))) lim |} |}, d)).
Proof.
  unfold list_errors. intros H.
  apply app_eq_nil in H as [_ H]. apply app_eq_nil in H as [Hp Hl].
  destruct (page_valid q Hp) as (pg & Hpg & Hpg1 & Hps).
  destruct (limit_valid q Hl) as (lim & Hlim & Hlim1 & Hls & _).
  assert (Hskip : (0 <=? list_skip pg lim) = true)
    by (apply Z.leb_le, list_skip_nonneg; lia).
  exists pg, lim. repeat split; try eassumption; try lia.
  - intros Hs. unfold list_tasks, handleValidation. simpl. rewrite Hpg, Hlim.
    unfold find. rewrite list_filter_casts, Hskip, Hs. reflexivity.
  - intros Hs. eexists. split.
    + unfold find. rewrite list_filter_casts, Hskip, Hs. reflexivity.
    + unfold list_tasks, handleValidation. simpl. rewrite Hpg, Hlim.
      unfold find, countDocuments. rewrite list_filter_casts, Hskip, Hs. reflexivity.
Qed.

End ListFacts.

(** ** Claims about listing *)

Section ListClaims.
Import Js Mongo Express Routes JsFacts MongoFacts RouteFacts ListFacts.
Import Order Paging.

Variable verifyToken : string -> option ObjectId.
Variable unauthenticated : string.
Variable now : Z.

Local Abbreviation api := (api_tasks verifyToken unauthenticated now).

(** The three answers a list call by a resolved caller can get. *)
Lemma list_outcome a u0 q p b es d u :
  a ≫= verifyToken = Some u ->
  ((es ++ list_errors q)%list <> [] /\
   api GET_tasks {| authorization := a; user := u0; query := q; params := p;
                    body := b; errors := es |} d
   = ({| status := 400; payload_of := PErrors (es ++ list_errors q) |}, d))
  \/
  ((es ++ list_errors q)%list = [] /\ sort_ok (list_sort q) = false /\
   api GET_tasks {| authorization := a; user := u0; query := q; params := p;
                    body := b; errors := es |} d
   = (server_error, d))
  \/
  ((es ++ list_errors q)%list = [] /\ sort_ok (list_sort q) = true /\
   exists pg lim ts tot,
     1 <= pg /\ 1 <= lim <= 100
     /\ supplied_int (q !! "page") 1 pg /\ supplied_int (q !! "limit") 10 lim
     /\ list_limit q = Some lim
     /\ find (list_filter u q) (list_sort q) (list_skip pg lim) lim d = Some ts
     /\ api GET_tasks {| authorization := a; user := u0; query := q; params := p;
                         body := b; errors := es |} d
        = ({| status := 200;
              payload_of := PTasks ts {| total := tot; page := pg; limit := lim;
                                         pages := ceil_div tot lim |} |}, d)).
Proof.
  intros Hu. rewrite (api_list_eval _ _ _ _ _ _ _ _ _ _ u Hu).
  destruct (es ++ list_errors q)%list as [|e l] eqn:E.
  - right. apply app_eq_nil in E as [_ Hq].
    destruct (list_tasks_valid a u q p b d Hq)
      as (pg & lim & Hpg & Hlim & H1 & H2 & H3 & H4 & Hno & Hyes).
    destruct (sort_ok (list_sort q)) eqn:Hs.
    + right. split; [reflexivity|]. split; [reflexivity|].
      destruct (Hyes eq_refl) as (ts & Hf & Hr).
      exists pg, lim, ts. eexists. repeat split; try eassumption; try lia.
    + left. split; [reflexivity|]. split; [reflexivity|]. now apply Hno.
  - left. split; [discriminate|]. reflexivity.
Qed.

(** C1. Every list call by an authenticated caller is answered with a
    validation error, with a page, or with the 500 of the catch branch,
    and leaves the collection as it was; in a page, every task is owned
    by the caller, and there are no more tasks than the effective limit,
    which is the one the response reports. *)
Theorem C1_list_scoped_and_bounded req d u :
  authorization req ≫= verifyToken = Some u ->
  exists r,
    api GET_tasks req d = (r, d) /\
    match payload_of r with
    | PTasks ts m =>
        status r = 200
        /\ Forall (fun t => owner t = u) ts
        /\ Z.of_nat (length ts) <= limit m
        /\ list_limit (query req) = Some (limit m)
    | PErrors _ => status r = 400
    | PMessage _ => r = server_error
    | _ => False
    end.
Proof.
  intros Hu. destruct req as [a u0 q p b es].
  destruct (list_outcome a u0 q p b es d u Hu)
    as [[_ ->] | [(_ & _ & ->)
       | (_ & _ & pg & lim & ts & tot & _ & Hlim & _ & _ & Hl & Hf & ->)]].
  - eexists. split; [reflexivity|]. reflexivity.
  - eexists. split; [reflexivity|]. reflexivity.
  - eexists. split; [reflexivity|]. simpl.
    destruct (find_spec _ _ _ _ _ _ (proj1 Hlim) Hf) as (Hm & _ & _ & Hlen).
    repeat split; try assumption.
    eapply Forall_impl; [exact Hm|]. intros t Ht.
    eapply matches_owner; [apply list_filter_owner | exact Ht].
Qed.

Lemma list_sort_supplied q s :
  q !! "sort" = Some s -> s <> "" ->
  list_sort q =
    [(default "" (head (split ":" s)),
      if decide (split ":" s !! 1%nat = Some "asc") then 1 else -1)].
Proof.
  intros Hq Hs. unfold list_sort. rewrite Hq.
  destruct s as [|c s]; [congruence|].
  pose proof (split_nonempty ":" (String c s)) as Hne.
  destruct (split ":" (String c s)) as [|field rest]; [congruence|].
  destruct rest; reflexivity.
Qed.

Lemma Sorted_weaken {A} (R R' : A -> A -> Prop) l :
  (forall x y, R x y -> R' x y) -> Sorted R l -> Sorted R' l.
Proof.
  intros HR H. induction H as [|x l Hl IH Hhd]; constructor; [exact IH|].
  destruct Hhd; constructor; auto.
Qed.

Lemma sorted_ascending k l :
  Sorted (fun a b => doc_le [(k, 1)] a b = true) l -> ascending_on k l.
Proof.
  apply Sorted_weaken. intros x y. unfold doc_le. simpl.
  destruct (bson_compare (get_path k x) (get_path k y)); congruence.
Qed.

Lemma sorted_descending k l :
  Sorted (fun a b => doc_le [(k, -1)] a b = true) l -> descending_on k l.
Proof.
  apply Sorted_weaken. intros x y. unfold doc_le. simpl.
  destruct (bson_compare (get_path k x) (get_path k y)); simpl; congruence.
Qed.

(** The order on the value at a path is the order on the field of the
    record. *)
Lemma path_order k x y :
  (bson_compare (get_path k x) (get_path k y) <> Gt -> field_le k x y)
  /\ (bson_compare (get_path k x) (get_path k y) <> Lt -> field_le k y x).
Proof.
  unfold field_le, get_path.
  destruct (String.eqb_spec k "_id") as [->|H1]; simpl.
  { split; intros H.
    - exact H.
    - unfold N.le. rewrite N.compare_antisym.
      destruct (_id x ?= _id y)%N; simpl; congruence. }
  destruct (String.eqb_spec k "title") as [->|H2]; simpl.
  { split; intros H; [exact H|].
    rewrite String.compare_antisym.
    destruct (String.compare (title x) (title y)); simpl; congruence. }
  destruct (String.eqb_spec k "description") as [->|H3]; simpl.
  { split; intros H; [exact H|].
    rewrite String.compare_antisym.
    destruct (String.compare (description x) (description y)); simpl; congruence. }
  destruct (String.eqb_spec k "completed") as [->|H4]; simpl.
  { destruct (completed x), (completed y); simpl; split; intros H;
      try exact I; try reflexivity; congruence. }
  destruct (String.eqb_spec k "owner") as [->|H5]; simpl.
  { split; intros H.
    - exact H.
    - unfold N.le. rewrite N.compare_antisym.
      destruct (owner x ?= owner y)%N; simpl; congruence. }
  destruct (String.eqb_spec k "createdAt") as [->|H6]; simpl.
  { split; intros H.
    - destruct (Z.compare_spec (createdAt x) (createdAt y)); try lia. congruence.
    - destruct (Z.compare_spec (createdAt x) (createdAt y)); try lia. congruence. }
  split; intros _; exact I.
Qed.

Lemma ascending_field k l : ascending_on k l -> Sorted (field_le k) l.
Proof. apply Sorted_weaken. intros x y. apply path_order. Qed.

Lemma descending_field k l :
  descending_on k l -> Sorted (fun x y => field_le k y x) l.
Proof. apply Sorted_weaken. intros x y. apply path_order. Qed.

Lemma list_errors_ignores_sort q s :
  list_errors (<["sort" := s]> q) = list_errors q.
Proof. unfold list_errors. now rewrite !lookup_insert_ne by done. Qed.

(** C10, amended. With a sort parameter [field:dir], the sort key is
    whatever precedes the first colon, its direction is ascending when
    [dir] is exactly the string asc and descending for every other
    [dir], an absent one included, and the parameter plays no part in
    validation.  When the key is a single field name and the page number
    is at most 2^53, a call that passes validation returns its page in
    that order of [field], which for a field of the Task record is the
    order of the values of that field. *)
Theorem C10_sort_direction a q p b d u s :
  a ≫= verifyToken = Some u ->
  q !! "sort" = Some s -> s <> "" ->
  list_errors q = [] ->
  let field := default "" (head (split ":" s)) in
  let dir := split ":" s !! 1%nat in
  list_sort q = [(field, if decide (dir = Some "asc") then 1 else -1)]
  /\ (forall s', list_errors (<["sort" := s']> q) = list_errors q)
  /\ (plain_name field = true -> page_in_range q ->
      exists ts m,
        api GET_tasks (incoming a q p b) d
        = ({| status := 200; payload_of := PTasks ts m |}, d)
        /\ (dir = Some "asc" ->
            ascending_on field ts /\ Sorted (field_le field) ts)
        /\ (dir <> Some "asc" ->
            descending_on field ts /\ Sorted (fun x y => field_le field y x) ts)).
Proof.
  intros Hu Hq Hs He field dir.
  pose proof (list_sort_supplied q s Hq Hs) as Hsort. fold field dir in Hsort.
  split; [exact Hsort|]. split; [intros s'; apply list_errors_ignores_sort|].
  assert (Hok : sort_ok (list_sort q) = sort_key_ok field).
  { rewrite Hsort. simpl. apply andb_true_r. }
  destruct (list_outcome a None q p b [] d u Hu)
    as [[Hne _] | [(_ & Hno & Hr)
       | (_ & Hyes & pg & lim & ts & tot & _ & Hlim & _ & _ & _ & Hf & Hr)]].
  { simpl in Hne. congruence. }
  - intros Hk. rewrite Hok, (plain_name_ok field Hk) in Hno. discriminate.
  - intros _ _. exists ts. eexists. split; [exact Hr|].
    destruct (find_spec _ _ _ _ _ _ (proj1 Hlim) Hf) as (_ & _ & Hsorted & _).
    rewrite Hsort in Hsorted. split.
    + intros Hd. rewrite decide_True in Hsorted by exact Hd.
      apply sorted_ascending in Hsorted. split; [exact Hsorted|].
      now apply ascending_field.
    + intros Hd. rewrite decide_False in Hsorted by exact Hd.
      apply sorted_descending in Hsorted. split; [exact Hsorted|].
      now apply descending_field.
Qed.

(** C6, amended. A page parameter that is absent stands for 1 and a limit
    parameter that is absent stands for 10.  A supplied page that is not
    an integer of at least 1, or a supplied limit that is not an integer
    between 1 and 100, is refused with a 400 validation error.  In every
    page that is returned, the page number is at least 1 and the limit
    lies between 1 and 100; the limit is the number its parameter stands
    for, and so is the page number when that is at most 2^53, beyond
    which it is that number as a Number holds it.  A call whose
    parameters pass validation, whose page number is at most 2^53 and
    whose sort key, if it gives one, is a single field name does return
    a page. *)
Theorem C6_pagination_validated a q p b d u :
  a ≫= verifyToken = Some u ->
  let r := (api GET_tasks (incoming a q p b) d).1 in
  (forall s, q !! "page" = Some s -> isInt (Some 1) None s = false ->
             status r = 400)
  /\ (forall s, q !! "limit" = Some s -> isInt (Some 1) (Some 100) s = false ->
                status r = 400)
  /\ (forall ts m, payload_of r = PTasks ts m ->
        status r = 200
        /\ 1 <= page m /\ 1 <= limit m <= 100
        /\ supplied_int (q !! "page") 1 (page m)
        /\ supplied_int (q !! "limit") 10 (limit m)
        /\ (forall s n, q !! "page" = Some s -> int_pattern s = Some n ->
                        n <= 2 ^ 53 -> page m = n)
        /\ (forall s n, q !! "limit" = Some s -> int_pattern s = Some n ->
                        limit m = n))
  /\ (list_errors q = [] -> plain_sort (list_sort q) -> page_in_range q ->
      exists ts m, payload_of r = PTasks ts m).
Proof.
  intros Hu r. subst r.
  destruct (list_outcome a None q p b [] d u Hu)
    as [[Hne Hr] | [(He & Hno & Hr)
       | (He & Hyes & pg & lim & ts & tot & Hpg & Hlim & Hsp & Hsl & Hll & _ & Hr)]];
    unfold incoming; rewrite Hr; simpl in *.
  - repeat split; try reflexivity; try discriminate. congruence.
  - unfold list_errors in He.
    apply app_eq_nil in He as [_ He]. apply app_eq_nil in He as [Hp Hl].
    split; [|split; [|split]].
    + intros s Hs Hbad. rewrite Hs in Hp. simpl in Hp. rewrite Hbad in Hp. discriminate.
    + intros s Hs Hbad. rewrite Hs in Hl. simpl in Hl. rewrite Hbad in Hl. discriminate.
    + intros ts' m [=].
    + intros _ Hs. rewrite (plain_sort_ok _ Hs) in Hno. discriminate.
  - pose proof He as He'. unfold list_errors in He.
    apply app_eq_nil in He as [_ He]. apply app_eq_nil in He as [Hp Hl].
    split; [|split; [|split]].
    + intros s Hs Hbad. rewrite Hs in Hp. simpl in Hp. rewrite Hbad in Hp. discriminate.
    + intros s Hs Hbad. rewrite Hs in Hl. simpl in Hl. rewrite Hbad in Hl. discriminate.
    + intros ts' m [= <- <-]. simpl. repeat split; try assumption; try lia.
      * intros s n Hs Hn Hb. rewrite Hs in Hsp. simpl in Hsp. rewrite Hn in Hsp.
        simpl in Hsp. injection Hsp as <-.
        apply to_number_small. rewrite Hs in Hp. simpl in Hp.
        unfold isInt in Hp. rewrite Hn in Hp. unfold in_range in Hp. simpl in Hp.
        destruct (to_number_bound n 1 ltac:(reflexivity)) as [E1 _].
        rewrite E1 in Hp. destruct (Z.leb_spec 1 n); [lia|discriminate].
      * intros s n Hs Hn.
        destruct (limit_valid q Hl) as (lim' & Hlim' & _ & _ & Hex).
        rewrite Hs in Hex. congruence.
    + intros _ _ _. eauto.
Qed.

End ListClaims.

Section ListExamples.
Import Js Mongo Express Routes Order Paging.

Lemma C1_witness :
  authorization (incoming Sample.ann Sample.sorted_query ∅ ∅) ≫= Sample.verifyToken
    = Some 7%N
  /\ exists r,
    Sample.api 0 GET_tasks (incoming Sample.ann Sample.sorted_query ∅ ∅) Sample.db0
      = (r, Sample.db0) /\
    match payload_of r with
    | PTasks ts m =>
        status r = 200
        /\ Forall (fun t => owner t = 7%N) ts
        /\ Z.of_nat (length ts) <= limit m
        /\ list_limit (query (incoming Sample.ann Sample.sorted_query ∅ ∅))
           = Some (limit m)
    | PErrors _ => status r = 400
    | PMessage _ => r = server_error
    | _ => False
    end.
Proof.
  split; [reflexivity|].
  refine (C1_list_scoped_and_bounded Sample.verifyToken "Unauthorized" 0
            (incoming Sample.ann Sample.sorted_query ∅ ∅) Sample.db0 7%N _).
  reflexivity.
Defined.

Lemma C10_witness :
  Sample.ann ≫= Sample.verifyToken = Some 7%N
  /\ Sample.title_down !! "sort" = Some "title:desc"
  /\ "title:desc" <> ""
  /\ list_errors Sample.title_down = []
  /\ list_sort Sample.title_down
     = [("title", if decide (split ":" "title:desc" !! 1%nat = Some "asc") then 1 else -1)]
  /\ (forall s', list_errors (<["sort" := s']> Sample.title_down)
                 = list_errors Sample.title_down)
  /\ (plain_name "title" = true -> page_in_range Sample.title_down ->
      exists ts m,
        Sample.api 0 GET_tasks (incoming Sample.ann Sample.title_down ∅ ∅) Sample.db0
        = ({| status := 200; payload_of := PTasks ts m |}, Sample.db0)
        /\ (split ":" "title:desc" !! 1%nat = Some "asc" ->
            ascending_on "title" ts /\ Sorted (field_le "title") ts)
        /\ (split ":" "title:desc" !! 1%nat <> Some "asc" ->
            descending_on "title" ts
            /\ Sorted (fun x y => field_le "title" y x) ts)).
Proof.
  split; [reflexivity|]. split; [reflexivity|]. split; [discriminate|].
  split; [reflexivity|].
  refine (C10_sort_direction Sample.verifyToken "Unauthorized" 0 Sample.ann
            Sample.title_down ∅ ∅ Sample.db0 7%N "title:desc" _ _ _ _).
  - reflexivity.
  - reflexivity.
  - discriminate.
  - reflexivity.
Defined.

(** The two tasks of ann by title, in both directions. *)
Example sorted_by_title :
  (Sample.api 0 GET_tasks (incoming Sample.ann {[ "sort" := "title:asc" ]} ∅ ∅)
     Sample.db0).1
  = {| status := 200;
       payload_of := PTasks [Sample.milk; Sample.call_mum]
                       {| total := 2; page := 1; limit := 10; pages := 1 |} |}
  /\ (Sample.api 0 GET_tasks (incoming Sample.ann Sample.title_down ∅ ∅)
        Sample.db0).1
     = {| status := 200;
          payload_of := PTasks [Sample.call_mum; Sample.milk]
                          {| total := 2; page := 1; limit := 10; pages := 1 |} |}.
Proof. split; reflexivity. Qed.

(** Descending is what any other direction gives: here [ASC]. *)
Example list_sort_uppercase :
  list_sort {[ "sort" := "title:ASC" ]} = [("title", -1)]
  /\ list_sort {[ "sort" := "title" ]} = [("title", -1)]
  /\ list_sort {[ "sort" := "nosuchfield:asc" ]} = [("nosuchfield", 1)]
  /\ list_sort ∅ = [("createdAt", -1)].
Proof. repeat split; reflexivity. Qed.

(** C10 as stated fails: the sort parameter [:asc] has the form
    [field:dir] with an empty field; it passes validation, the database
    refuses the empty key, and the call is answered 500 with no page. *)
Lemma C10_counterexample :
  Sample.no_field !! "sort" = Some ":asc"
  /\ split ":" ":asc" = [""; "asc"]
  /\ list_errors Sample.no_field = []
  /\ Sample.api 0 GET_tasks (incoming Sample.ann Sample.no_field ∅ ∅) Sample.db0
     = (server_error, Sample.db0).
Proof. repeat split; reflexivity. Qed.

(** C6 as stated fails: a limit of 500 is not clamped to 100 and a page
    of 0 is not clamped to 1; each is answered with a validation error
    and no page. *)
Lemma C6_counterexample :
  (Sample.api 0 GET_tasks (incoming Sample.ann {[ "limit" := "500" ]} ∅ ∅) Sample.db0).1
    = {| status := 400;
         payload_of := PErrors [{| param := "limit";
                                   msg := "limit must be between 1 and 100" |}] |}
  /\ (Sample.api 0 GET_tasks (incoming Sample.ann {[ "page" := "0" ]} ∅ ∅) Sample.db0).1
    = {| status := 400;
         payload_of := PErrors [{| param := "page"; msg := "page must be >= 1" |}] |}
  /\ list_limit {[ "limit" := "500" ]} = Some 100
  /\ list_page {[ "page" := "0" ]} = Some 1.
Proof. repeat split; reflexivity. Qed.

Lemma C6_witness :
  Sample.ann ≫= Sample.verifyToken = Some 7%N
  /\ let r := (Sample.api 0 GET_tasks
                 (incoming Sample.ann Sample.sorted_query ∅ ∅) Sample.db0).1 in
     (forall s, Sample.sorted_query !! "page" = Some s ->
                isInt (Some 1) None s = false -> status r = 400)
     /\ (forall s, Sample.sorted_query !! "limit" = Some s ->
                   isInt (Some 1) (Some 100) s = false -> status r = 400)
     /\ (forall ts m, payload_of r = PTasks ts m ->
           status r = 200
           /\ 1 <= page m /\ 1 <= limit m <= 100
           /\ supplied_int (Sample.sorted_query !! "page") 1 (page m)
           /\ supplied_int (Sample.sorted_query !! "limit") 10 (limit m)
           /\ (forall s n, Sample.sorted_query !! "page" = Some s ->
                           int_pattern s = Some n -> n <= 2 ^ 53 -> page m = n)
           /\ (forall s n, Sample.sorted_query !! "limit" = Some s ->
                           int_pattern s = Some n -> limit m = n))
     /\ (list_errors Sample.sorted_query = [] ->
         plain_sort (list_sort Sample.sorted_query) ->
         page_in_range Sample.sorted_query ->
         exists ts m, payload_of r = PTasks ts m).
Proof.
  split; [reflexivity|].
  refine (C6_pagination_validated Sample.verifyToken "Unauthorized" 0 Sample.ann
            Sample.sorted_query ∅ ∅ Sample.db0 7%N _).
  reflexivity.
Defined.

(** A page number beyond 2^53 passes validation and is read as the
    nearest Number. *)
Example page_beyond_2_53 :
  list_errors {[ "page" := "9007199254740993" ]} = []
  /\ list_page {[ "page" := "9007199254740993" ]} = Some 9007199254740992
  /\ list_page {[ "page" := "9007199254740995" ]} = Some 9007199254740996.
Proof. repeat split; vm_compute; reflexivity. Qed.

End ListExamples.

(** ** Routes on one task *)

Module IdFacts.
Import Js Mongo Express Routes JsFacts MongoFacts RouteFacts.

Lemma to_int_not_nil n :
  Z.to_int n <> Decimal.Pos Decimal.Nil /\ Z.to_int n <> Decimal.Neg Decimal.Nil.
Proof.
  split; intros H; pose proof (f_equal Z.of_int H) as H0;
    rewrite DecimalZ.of_to in H0; simpl in H0; subst n; discriminate H.
Qed.

Lemma string_of_Z_read n :
  NilZero.int_of_string (string_of_Z n) = Some (Z.to_int n).
Proof. unfold string_of_Z. apply NilZero.isi; apply to_int_not_nil. Qed.

(** A number that reads as a boolean is 1 or 0. *)
Lemma isBoolean_number n : isBoolean (string_of_Z n) = true -> n = 1 \/ n = 0.
Proof.
  unfold isBoolean. simpl. rewrite !orb_true_iff, !String.eqb_eq.
  pose proof (string_of_Z_read n) as Hr.
  intros [H|[H|[H|[H|H]]]]; try discriminate; rewrite H in Hr; simpl in Hr;
    try discriminate; injection Hr as Hr.
  - left. apply DecimalZ.to_int_inj. now rewrite <- Hr.
  - right. apply DecimalZ.to_int_inj. now rewrite <- Hr.
Qed.

(** What passes [isBoolean] is something Mongoose casts to a boolean. *)
Lemma isBoolean_casts v :
  isBoolean (toString v) = true -> is_Some (castBoolean (of_json v)).
Proof.
  destruct v as [|b|n|s]; simpl.
  - discriminate.
  - intros _. now eexists.
  - intros H. destruct (isBoolean_number n H) as [-> | ->]; now eexists.
  - unfold isBoolean. simpl. rewrite !orb_true_iff, !String.eqb_eq.
    intros [->|[->|[->|[->|H]]]]; try discriminate; now eexists.
Qed.

Lemma id_filter_with_id u p id :
  id_filter u (<["id" := id]> p) = <["_id" := BStr id]> {[ "owner" := BOid u ]}.
Proof. unfold id_filter. now rewrite lookup_insert_eq. Qed.

(** An identifier of 24 hexadecimal digits passes [isMongoId]. *)
Lemma hex24_isMongoId id : is_hex24 id = true -> isMongoId id = true.
Proof.
  unfold is_hex24, isMongoId, isHexadecimal, all_hex. intros H.
  apply andb_true_iff in H as [Hl Hh]. rewrite Hl, Hh.
  destruct id; [discriminate|]. reflexivity.
Qed.

(** The other identifiers that pass have a prefix, which the cast of
    the filter refuses. *)
Lemma id_filter_refused u id :
  is_hex24 id = false ->
  filter_casts (<["_id" := BStr id]> {[ "owner" := BOid u ]}) = false.
Proof.
  intros H. unfold filter_casts. apply bool_decide_eq_false. intros Hall.
  pose proof (map_Forall_lookup_1 _ _ "_id" (BStr id) Hall
                ltac:(apply lookup_insert_eq)) as [v Hv].
  unfold cast_for, schema, cast, castObjectId in Hv. simpl in Hv.
  rewrite H in Hv. discriminate.
Qed.

Lemma id_filter_casts u id :
  is_hex24 id = true ->
  filter_casts (<["_id" := BStr id]> {[ "owner" := BOid u ]}) = true.
Proof.
  intros H. unfold filter_casts. apply bool_decide_eq_true.
  apply map_Forall_insert; [now apply lookup_singleton_ne|]. split.
  - unfold cast_for, schema, cast, castObjectId. simpl.
    rewrite H. now eexists.
  - apply map_Forall_singleton. now eexists.
Qed.

(** With a well-formed identifier, the filter of the three routes
    selects the documents with that identifier and that owner. *)
Lemma id_filter_matches u id t :
  is_hex24 id = true ->
  matches (<["_id" := BStr id]> {[ "owner" := BOid u ]}) t = owned_by u (oid_of id) t.
Proof.
  intros H. unfold matches, owned_by.
  apply eq_true_iff_eq. rewrite bool_decide_eq_true, andb_true_iff, !N.eqb_eq.
  rewrite map_Forall_insert by now apply lookup_singleton_ne.
  rewrite map_Forall_singleton.
  unfold cast_for, schema, cast, castObjectId, get_path. simpl.
  rewrite H. simpl. unfold oid_of.
  split; intros [H1 H2]; split; congruence.
Qed.

Lemma find_none_matches f l :
  Forall (fun t => matches f t = false) l -> List.find (matches f) l = None.
Proof. induction 1 as [|t l Ht _ IH]; simpl; [reflexivity|]. now rewrite Ht. Qed.

Lemma update_first_none f c l :
  Forall (fun t => matches f t = false) l -> update_first f c l = (None, l).
Proof.
  induction 1 as [|t l Ht _ IH]; simpl; [reflexivity|]. now rewrite Ht, IH.
Qed.

Lemma remove_first_none f l :
  Forall (fun t => matches f t = false) l -> remove_first f l = (None, l).
Proof.
  induction 1 as [|t l Ht _ IH]; simpl; [reflexivity|]. now rewrite Ht, IH.
Qed.

(** The first match of a filter splits the collection. *)
Lemma first_match f l :
  Exists (fun t => matches f t = true) l ->
  exists pre t post,
    l = (pre ++ t :: post)%list
    /\ Forall (fun x => matches f x = false) pre /\ matches f t = true.
Proof.
  induction l as [|x l IH]; intros H; [inversion H|].
  destruct (matches f x) eqn:E.
  - exists [], x, l. repeat split; [constructor | exact E].
  - inversion H as [? ? Hx | ? ? Hl]; subst; [congruence|].
    destruct (IH Hl) as (pre & t & post & -> & Hpre & Ht).
    exists (x :: pre), t, post. repeat split; [constructor; assumption | exact Ht].
Qed.

Lemma no_match_or_first f l :
  Forall (fun t => matches f t = false) l
  \/ exists pre t post,
      l = (pre ++ t :: post)%list
      /\ Forall (fun x => matches f x = false) pre /\ matches f t = true.
Proof.
  induction l as [|x l IH]; [left; constructor|].
  destruct (matches f x) eqn:E.
  - right. exists [], x, l. repeat split; [constructor | exact E].
  - destruct IH as [IH | (pre & t & post & -> & Hpre & Ht)].
    + left. now constructor.
    + right. exists (x :: pre), t, post. repeat split; [constructor; assumption | exact Ht].
Qed.

Lemma find_first f pre t post :
  Forall (fun x => matches f x = false) pre -> matches f t = true ->
  List.find (matches f) (pre ++ t :: post) = Some t.
Proof.
  intros Hpre Ht. induction Hpre as [|x pre Hx _ IH]; simpl.
  - now rewrite Ht.
  - now rewrite Hx.
Qed.

Lemma update_first_at f c pre t post :
  Forall (fun x => matches f x = false) pre -> matches f t = true ->
  update_first f c (pre ++ t :: post)
  = (Some (apply_update c t), (pre ++ apply_update c t :: post)%list).
Proof.
  intros Hpre Ht. induction Hpre as [|x pre Hx _ IH]; simpl.
  - now rewrite Ht.
  - now rewrite Hx, IH.
Qed.

Lemma remove_first_at f pre t post :
  Forall (fun x => matches f x = false) pre -> matches f t = true ->
  remove_first f (pre ++ t :: post) = (Some t, (pre ++ post)%list).
Proof.
  intros Hpre Ht. induction Hpre as [|x pre Hx _ IH]; simpl.
  - now rewrite Ht.
  - now rewrite Hx, IH.
Qed.

Lemma apply_update_twice c t : apply_update c (apply_update c t) = apply_update c t.
Proof.
  unfold apply_update. simpl.
  destruct (set_title c), (set_description c), (set_completed c), (set_owner c);
    reflexivity.
Qed.

End IdFacts.

Module BodyFacts.
Import Js Mongo Express Routes JsFacts MongoFacts RouteFacts IdFacts.

Lemma updates_of_lookup b :
  updates_of b !! "title" = of_json <$> b !! "title"
  /\ updates_of b !! "description" = of_json <$> b !! "description"
  /\ updates_of b !! "completed" = of_json <$> b !! "completed"
  /\ updates_of b !! "owner" = None.
Proof.
  unfold updates_of.
  destruct (b !! "title"), (b !! "description"), (b !! "completed"); simpl;
    repeat split;
    rewrite ?lookup_insert_eq, ?lookup_insert_ne, ?lookup_insert_eq,
            ?lookup_insert_ne, ?lookup_insert_eq, ?lookup_empty by done;
    reflexivity.
Qed.

(** What a title has to be for its chain to pass. *)
Lemma title_errors_nil m x :
  title_errors m (Some x) = [] ->
  exists s, x = JStr s /\ trim s <> "" /\ title_value (Some x) = JStr (trim s).
Proof.
  unfold title_errors, title_value. simpl.
  destruct x as [| |n|s]; simpl; try discriminate.
  destruct (String.eqb (trim s) "") eqn:E; simpl; [discriminate|].
  intros _. exists s. apply String.eqb_neq in E. auto.
Qed.

Lemma description_errors_nil m x :
  check_errors "description" IsString m x = [] ->
  x = None \/ exists s, x = Some (JStr s).
Proof.
  destruct x as [v|]; [|now left]. simpl.
  destruct v; simpl; try discriminate. intros _. right. now eexists.
Qed.

Lemma completed_errors_nil m x :
  check_errors "completed" IsBoolean m x = [] ->
  x = None \/ exists v c, x = Some v /\ castBoolean (of_json v) = Some c.
Proof.
  destruct x as [v|]; [|now left]. simpl.
  destruct (isBoolean (toString v)) eqn:E; [|discriminate].
  intros _. right. destruct (isBoolean_casts v E) as [c Hc]. eauto.
Qed.

(** On a body that passed validation, the update that reaches the
    collection is [body_update]. *)
Lemma cast_update_valid b :
  update_errors b = [] ->
  cast_update (updates_of (update_body b)) = Some (body_update b).
Proof.
  unfold update_errors. intros H.
  apply app_eq_nil in H as [Ht H]. apply app_eq_nil in H as [Hd Hc].
  destruct (updates_of_lookup (update_body b)) as (L1 & L2 & L3 & L4).
  unfold cast_update. rewrite L1, L2, L3, L4. clear L1 L2 L3 L4.
  assert (Hdl : update_body b !! "description" = b !! "description").
  { unfold update_body. destruct (b !! "title"); [now rewrite lookup_insert_ne|reflexivity]. }
  assert (Hcl : update_body b !! "completed" = b !! "completed").
  { unfold update_body. destruct (b !! "title"); [now rewrite lookup_insert_ne|reflexivity]. }
  assert (Htl : update_body b !! "title" = (fun v => JStr (trim (toString v))) <$> b !! "title").
  { unfold update_body. destruct (b !! "title") eqn:E; [|exact E].
    now rewrite lookup_insert_eq. }
  rewrite Hdl, Hcl, Htl. unfold body_update.
  apply description_errors_nil in Hd. apply completed_errors_nil in Hc.
  destruct (b !! "title") as [x|]; simpl;
    destruct Hd as [-> | [s ->]]; destruct Hc as [-> | (v & c & -> & Hv)]; simpl;
    rewrite ?Hv; reflexivity.
Qed.

End BodyFacts.

(** ** Outcomes of the routes on one task *)

Section TaskOutcomes.
Import Js Mongo Express Routes JsFacts MongoFacts RouteFacts IdFacts BodyFacts.

Variable verifyToken : string -> option ObjectId.
Variable unauthenticated : string.

Local Abbreviation api := (api_tasks verifyToken unauthenticated).

Lemma id_errors_well_formed id p :
  is_hex24 id = true -> id_errors (<["id" := id]> p) = [].
Proof.
  intros H. unfold id_errors. rewrite lookup_insert_eq. simpl.
  now rewrite (hex24_isMongoId id H).
Qed.

Lemma id_errors_passed id p :
  isMongoId id = true -> id_errors (<["id" := id]> p) = [].
Proof. intros H. unfold id_errors. rewrite lookup_insert_eq. simpl. now rewrite H. Qed.

Lemma id_errors_malformed id p :
  isMongoId id = false -> id_errors (<["id" := id]> p) <> [].
Proof. intros H. unfold id_errors. rewrite lookup_insert_eq. simpl. now rewrite H. Qed.

Lemma id_filter_owner u p : id_filter u p !! "owner" = Some (BOid u).
Proof.
  unfold id_filter. destruct (p !! "id").
  - rewrite lookup_insert_ne by done. apply lookup_singleton_eq.
  - apply lookup_singleton_eq.
Qed.

Lemma get_outcome now a q p b d u id :
  a ≫= verifyToken = Some u -> is_hex24 id = true ->
  api now (GET_task id) (incoming a q p b) d =
  match List.find (matches (id_filter u (<["id" := id]> p))) (tasks d) with
  | Some t => ({| status := 200; payload_of := PTask t |}, d)
  | None => (not_found, d)
  end.
Proof.
  intros Hu Hid. unfold incoming. rewrite (api_get_eval _ _ _ _ _ _ _ _ _ _ _ u Hu).
  rewrite (id_errors_well_formed id p Hid). unfold get_task, handleValidation, findOne. simpl.
  rewrite id_filter_with_id, (id_filter_casts u id Hid).
  destruct (List.find _ _); reflexivity.
Qed.

Lemma delete_outcome now a q p b d u id :
  a ≫= verifyToken = Some u -> is_hex24 id = true ->
  api now (DELETE_task id) (incoming a q p b) d =
  match remove_first (id_filter u (<["id" := id]> p)) (tasks d) with
  | (Some _, l) => ({| status := 200; payload_of := PMessage "Task deleted" |},
                    {| tasks := l; next_id := next_id d |})
  | (None, _) => (not_found, d)
  end.
Proof.
  intros Hu Hid. unfold incoming. rewrite (api_delete_eval _ _ _ _ _ _ _ _ _ _ _ u Hu).
  rewrite (id_errors_well_formed id p Hid).
  unfold delete_task, handleValidation, findOneAndDelete. simpl.
  rewrite id_filter_with_id, (id_filter_casts u id Hid).
  destruct (remove_first _ _) as [[t|] l]; reflexivity.
Qed.

Lemma update_outcome now a q p b d u id :
  a ≫= verifyToken = Some u -> is_hex24 id = true -> update_errors b = [] ->
  api now (PUT_task id) (incoming a q p b) d =
  match update_first (id_filter u (<["id" := id]> p)) (body_update b) (tasks d) with
  | (Some t, l) => ({| status := 200; payload_of := PTask t |},
                    {| tasks := l; next_id := next_id d |})
  | (None, _) => (not_found, d)
  end.
Proof.
  intros Hu Hid Hb. unfold incoming. rewrite (api_update_eval _ _ _ _ _ _ _ _ _ _ _ u Hu).
  rewrite (id_errors_well_formed id p Hid), Hb.
  unfold update_task, handleValidation, findOneAndUpdate. simpl.
  rewrite id_filter_with_id, (id_filter_casts u id Hid), (cast_update_valid b Hb). simpl.
  destruct (update_first _ _ _) as [[t|] l]; reflexivity.
Qed.

Lemma update_refused now a q p b d u id :
  a ≫= verifyToken = Some u ->
  (id_errors (<["id" := id]> p) ++ update_errors b)%list <> [] ->
  api now (PUT_task id) (incoming a q p b) d =
  ({| status := 400;
      payload_of := PErrors (id_errors (<["id" := id]> p) ++ update_errors b) |}, d).
Proof.
  intros Hu Hne. unfold incoming. rewrite (api_update_eval _ _ _ _ _ _ _ _ _ _ _ u Hu).
  unfold update_task, handleValidation. simpl.
  destruct (id_errors (<["id" := id]> p) ++ update_errors b)%list; [congruence|reflexivity].
Qed.

(** No document with that identifier and that owner: nothing matches. *)
Lemma not_owned_no_match u id p l :
  is_hex24 id = true ->
  (forall t, In t l -> _id t = oid_of id -> owner t <> u) ->
  Forall (fun t => matches (id_filter u (<["id" := id]> p)) t = false) l.
Proof.
  intros Hid H. apply List.Forall_forall. intros t Ht.
  rewrite id_filter_with_id, (id_filter_matches u id t Hid). unfold owned_by.
  destruct (N.eqb_spec (_id t) (oid_of id)) as [E|E]; [|reflexivity].
  destruct (N.eqb_spec (owner t) u) as [E'|E']; [|reflexivity].
  exfalso. exact (H t Ht E E').
Qed.

(** C3, amended. With an identifier of 24 hexadecimal digits and, for
    an update, a body that passes validation: when no task with that
    identifier is owned by the caller, be it that none exists or that it
    belongs to another user, get, update and delete all answer 404 Task
    not found and leave the collection as it was.  An update whose body
    fails validation is answered 400 first. *)
Theorem C3_not_owned_is_not_found now a q p b d u id :
  a ≫= verifyToken = Some u ->
  is_hex24 id = true ->
  (forall t, In t (tasks d) -> _id t = oid_of id -> owner t <> u) ->
  api now (GET_task id) (incoming a q p b) d = (not_found, d)
  /\ api now (DELETE_task id) (incoming a q p b) d = (not_found, d)
  /\ (update_errors b = [] ->
      api now (PUT_task id) (incoming a q p b) d = (not_found, d))
  /\ (update_errors b <> [] ->
      status (api now (PUT_task id) (incoming a q p b) d).1 = 400).
Proof.
  intros Hu Hid Hno.
  pose proof (not_owned_no_match u id p (tasks d) Hid Hno) as Hf.
  split; [|split; [|split]].
  - rewrite (get_outcome now a q p b d u id Hu Hid).
    now rewrite (find_none_matches _ _ Hf).
  - rewrite (delete_outcome now a q p b d u id Hu Hid).
    now rewrite (remove_first_none _ _ Hf).
  - intros Hb. rewrite (update_outcome now a q p b d u id Hu Hid Hb).
    now rewrite (update_first_none _ _ _ Hf).
  - intros Hb. rewrite (update_refused now a q p b d u id Hu); [reflexivity|].
    rewrite (id_errors_well_formed id p Hid). exact Hb.
Qed.

(** An identifier that passes [isMongoId] without being 24 hexadecimal
    digits fails the cast of the filter: the three routes answer 500. *)
Lemma id_route_cast_error now a q p b d u id :
  a ≫= verifyToken = Some u -> isMongoId id = true -> is_hex24 id = false ->
  api now (GET_task id) (incoming a q p b) d = (server_error, d)
  /\ api now (DELETE_task id) (incoming a q p b) d = (server_error, d)
  /\ (update_errors b = [] ->
      api now (PUT_task id) (incoming a q p b) d = (server_error, d)).
Proof.
  intros Hu Hid Hno. unfold incoming. split; [|split].
  - rewrite (api_get_eval _ _ _ _ _ _ _ _ _ _ _ u Hu).
    rewrite (id_errors_passed id p Hid). unfold get_task, handleValidation, findOne. simpl.
    now rewrite id_filter_with_id, (id_filter_refused u id Hno).
  - rewrite (api_delete_eval _ _ _ _ _ _ _ _ _ _ _ u Hu).
    rewrite (id_errors_passed id p Hid).
    unfold delete_task, handleValidation, findOneAndDelete. simpl.
    now rewrite id_filter_with_id, (id_filter_refused u id Hno).
  - intros Hb. rewrite (api_update_eval _ _ _ _ _ _ _ _ _ _ _ u Hu).
    rewrite (id_errors_passed id p Hid), Hb.
    unfold update_task, handleValidation, findOneAndUpdate. simpl.
    now rewrite id_filter_with_id, (id_filter_refused u id Hno).
Qed.

(** Every answer an update can get, for a caller whose token resolves. *)
Lemma update_cases now a q p b d u id :
  a ≫= verifyToken = Some u ->
  (exists es, api now (PUT_task id) (incoming a q p b) d
              = ({| status := 400; payload_of := PErrors es |}, d))
  \/ api now (PUT_task id) (incoming a q p b) d = (not_found, d)
  \/ (isMongoId id = true /\ is_hex24 id = false /\ update_errors b = [] /\
      api now (PUT_task id) (incoming a q p b) d = (server_error, d))
  \/ (update_errors b = [] /\ is_hex24 id = true /\
      exists pre t post,
        tasks d = (pre ++ t :: post)%list
        /\ Forall (fun x => matches (id_filter u (<["id" := id]> p)) x = false) pre
        /\ matches (id_filter u (<["id" := id]> p)) t = true
        /\ api now (PUT_task id) (incoming a q p b) d
           = ({| status := 200; payload_of := PTask (apply_update (body_update b) t) |},
              {| tasks := pre ++ apply_update (body_update b) t :: post;
                 next_id := next_id d |})).
Proof.
  intros Hu.
  destruct (isMongoId id) eqn:Hid.
  2:{ left. eexists. apply (update_refused now a q p b d u id Hu).
      intros H. apply app_eq_nil in H as [H _].
      exact (id_errors_malformed id p Hid H). }
  destruct (update_errors b) as [|e es] eqn:Hb.
  2:{ left. eexists. apply (update_refused now a q p b d u id Hu).
      rewrite Hb. intros H. apply app_eq_nil in H as [_ H]. discriminate. }
  destruct (is_hex24 id) eqn:H24.
  2:{ right. right. left. repeat split; try assumption.
      now apply (id_route_cast_error now a q p b d u id Hu Hid H24). }
  rewrite (update_outcome now a q p b d u id Hu H24 Hb).
  destruct (no_match_or_first (id_filter u (<["id" := id]> p)) (tasks d))
    as [Hf | (pre & t & post & Hl & Hpre & Ht)].
  - right. left. now rewrite (update_first_none _ _ _ Hf).
  - right. right. right. repeat split.
    exists pre, t, post. repeat split; try assumption.
    rewrite Hl. now rewrite (update_first_at _ _ _ _ _ Hpre Ht).
Qed.

(** C5. An update that succeeds replaces one task of the collection by
    the task it returns and changes nothing else.  The identifier, the
    owner and the creation timestamp of that task are unchanged, and so
    is each of title, description and completion flag that the request
    does not supply. *)
Theorem C5_update_changes_only_supplied_fields now a q p b d u id t' d' :
  a ≫= verifyToken = Some u ->
  api now (PUT_task id) (incoming a q p b) d
    = ({| status := 200; payload_of := PTask t' |}, d') ->
  exists pre t post,
    tasks d = (pre ++ t :: post)%list
    /\ tasks d' = (pre ++ t' :: post)%list
    /\ next_id d' = next_id d
    /\ _id t' = _id t /\ owner t' = owner t /\ createdAt t' = createdAt t
    /\ (b !! "title" = None -> title t' = title t)
    /\ (b !! "description" = None -> description t' = description t)
    /\ (b !! "completed" = None -> completed t' = completed t).
Proof.
  intros Hu Hr.
  destruct (update_cases now a q p b d u id Hu)
    as [[es He] | [He | [(_ & _ & _ & He)
       | (_ & _ & pre & t & post & Hl & _ & _ & He)]]];
    rewrite He in Hr; try discriminate.
  injection Hr as <- <-.
  exists pre, t, post. simpl. repeat split; try assumption.
  - intros H. now rewrite H.
  - intros H. now rewrite H.
  - intros H. now rewrite H.
Qed.

(** C7. Marking a task of the caller completed twice in a row: both
    updates succeed, the second returns the task the first returned and
    leaves the collection as the first left it, and that task is
    completed. *)
Theorem C7_complete_is_idempotent now1 now2 a q p d u id t :
  a ≫= verifyToken = Some u ->
  is_hex24 id = true ->
  In t (tasks d) -> _id t = oid_of id -> owner t = u ->
  exists t1 d1,
    api now1 (PUT_task id) (incoming a q p {[ "completed" := JBool true ]}) d
      = ({| status := 200; payload_of := PTask t1 |}, d1)
    /\ api now2 (PUT_task id) (incoming a q p {[ "completed" := JBool true ]}) d1
      = ({| status := 200; payload_of := PTask t1 |}, d1)
    /\ completed t1 = true
    /\ _id t1 = _id t /\ owner t1 = u /\ In t1 (tasks d1).
Proof.
  intros Hu Hid Hin Hi Ho.
  set (b := ({[ "completed" := JBool true ]} : gmap string json)).
  set (f := id_filter u (<["id" := id]> p)).
  assert (Hb : update_errors b = []) by reflexivity.
  assert (Hm : forall x, matches f x = owned_by u (oid_of id) x).
  { intros x. unfold f. rewrite id_filter_with_id. now apply id_filter_matches. }
  assert (Hex : Exists (fun x => matches f x = true) (tasks d)).
  { apply List.Exists_exists. exists t. split; [exact Hin|].
    rewrite Hm. unfold owned_by. rewrite Hi, Ho, !N.eqb_refl. reflexivity. }
  destruct (first_match f (tasks d) Hex) as (pre & t0 & post & Hl & Hpre & Ht0).
  set (t1 := apply_update (body_update b) t0).
  assert (Ht1 : matches f t1 = true) by (rewrite Hm in Ht0 |- *; exact Ht0).
  exists t1, {| tasks := pre ++ t1 :: post; next_id := next_id d |}.
  rewrite (update_outcome now1 a q p b d u id Hu Hid Hb).
  rewrite (update_outcome now2 a q p b _ u id Hu Hid Hb). fold f. simpl tasks.
  rewrite Hl, (update_first_at f _ _ _ _ Hpre Ht0).
  rewrite (update_first_at f _ _ _ _ Hpre Ht1). fold t1.
  assert (Hidem : apply_update (body_update b) t1 = t1) by apply apply_update_twice.
  rewrite Hidem. simpl next_id.
  rewrite Hm in Ht0. unfold owned_by in Ht0.
  apply andb_true_iff in Ht0 as [E1 E2]. apply N.eqb_eq in E1, E2.
  repeat split; try reflexivity.
  - simpl. congruence.
  - simpl. exact E2.
  - simpl. apply in_elt.
Qed.

End TaskOutcomes.

(** ** Creating *)

Section CreateClaims.
Import Js Mongo Express Routes JsFacts MongoFacts RouteFacts IdFacts BodyFacts.
Import Text TrimFacts.

Variable verifyToken : string -> option ObjectId.
Variable unauthenticated : string.

Local Abbreviation api := (api_tasks verifyToken unauthenticated).

Lemma create_doc_owner u b : create_doc u b !! "owner" = Some (BOid u).
Proof.
  unfold create_doc. destruct (b !! "title");
    rewrite ?lookup_insert_ne by done; apply lookup_singleton_eq.
Qed.

(** A created document carries the owner named in the document handed to
    [create], is not completed unless that document says so, and is
    appended under a fresh identifier. *)
Lemma create_spec now doc d t d' u :
  create now doc d = Some (t, d') ->
  doc !! "owner" = Some (BOid u) ->
  owner t = u /\ _id t = next_id d /\ createdAt t = now
  /\ d' = with_task d t.
Proof.
  unfold create. intros H Ho. rewrite Ho in H. simpl in H.
  destruct (doc !! "title" ≫= castString) as [ti|]; [|discriminate]. simpl in H.
  destruct (match doc !! "description" with Some v => castString v | None => Some "" end)
    as [de|]; [|discriminate]. simpl in H.
  destruct (match doc !! "completed" with Some v => castBoolean v | None => Some false end)
    as [co|]; [|discriminate]. simpl in H.
  destruct (String.eqb ti ""); [discriminate|].
  injection H as <- <-. repeat split.
Qed.

(** The document of a create call whose title and description are text,
    as the collection receives it. *)
Lemma create_valid now b d u s dsc :
  b !! "title" = Some (JStr s) ->
  b !! "description" = JStr <$> dsc ->
  create now (create_doc u (create_body b)) d =
  if String.eqb (trim s) "" then None
  else Some (new_task now d u s dsc, with_task d (new_task now d u s dsc)).
Proof.
  intros Ht Hd.
  assert (Hb1 : create_body b !! "title" = Some (JStr (trim s))).
  { unfold create_body, title_value. rewrite Ht. apply lookup_insert_eq. }
  assert (Hb2 : create_body b !! "description" = JStr <$> dsc).
  { unfold create_body. now rewrite lookup_insert_ne. }
  remember (create_doc u (create_body b)) as doc eqn:Hdoc.
  assert (H1 : doc !! "title" = Some (BStr (trim s))).
  { subst doc. unfold create_doc. rewrite Hb1. apply lookup_insert_eq. }
  assert (H2 : doc !! "owner" = Some (BOid u)).
  { subst doc. apply create_doc_owner. }
  assert (H3 : doc !! "description" = Some (BStr (default "" dsc))).
  { subst doc. unfold create_doc. rewrite Hb1, Hb2.
    rewrite lookup_insert_ne by done. rewrite lookup_insert_eq.
    destruct dsc as [[|c s']|]; reflexivity. }
  assert (H4 : doc !! "completed" = None).
  { subst doc. unfold create_doc. rewrite Hb1.
    rewrite !lookup_insert_ne by done. now apply lookup_singleton_ne. }
  unfold create. rewrite H1, H2, H3, H4. simpl.
  destruct (String.eqb (trim s) ""); reflexivity.
Qed.

(** The answer to a create call whose title is text and whose
    description, if any, is text. *)
Lemma create_outcome now a q p b d u s dsc :
  a ≫= verifyToken = Some u ->
  b !! "title" = Some (JStr s) ->
  b !! "description" = JStr <$> dsc ->
  api now POST_tasks (incoming a q p b) d =
  if String.eqb (trim s) ""
  then ({| status := 400;
           payload_of := PErrors [{| param := "title"; msg := "title is required" |}] |}, d)
  else ({| status := 201; payload_of := PTask (new_task now d u s dsc) |},
        with_task d (new_task now d u s dsc)).
Proof.
  intros Hu Ht Hd. unfold incoming.
  rewrite (api_create_eval _ _ _ _ _ _ _ _ _ _ u Hu).
  unfold create_errors, title_errors, title_value. rewrite Ht, Hd. simpl.
  assert (Hde : check_errors "description" IsString "description must be text"
                  (JStr <$> dsc) = []) by (destruct dsc; reflexivity).
  rewrite Hde, app_nil_r.
  destruct (String.eqb (trim s) "") eqn:E; simpl.
  - reflexivity.
  - unfold create_task, handleValidation. simpl.
    rewrite (create_valid now b d u s dsc Ht Hd), E. reflexivity.
Qed.

(** A create call without a title is answered by both validators of
    the title chain. *)
Lemma create_without_title now a q p b d u dsc :
  a ≫= verifyToken = Some u ->
  b !! "title" = None ->
  b !! "description" = JStr <$> dsc ->
  api now POST_tasks (incoming a q p b) d =
  ({| status := 400;
      payload_of := PErrors [{| param := "title"; msg := invalid_value |};
                             {| param := "title"; msg := "title is required" |}] |}, d).
Proof.
  intros Hu Ht Hd. unfold incoming.
  rewrite (api_create_eval _ _ _ _ _ _ _ _ _ _ u Hu).
  unfold create_errors, title_errors, title_value. rewrite Ht, Hd. simpl.
  assert (Hde : check_errors "description" IsString "description must be text"
                  (JStr <$> dsc) = []) by (destruct dsc; reflexivity).
  rewrite Hde. reflexivity.
Qed.



(** C8. Two create calls with the same valid title and description both
    succeed and leave two task records in the collection, distinct by
    their identifiers and alike in title, description and owner. *)
Theorem C8_create_twice_makes_two now1 now2 a q p b d u s dsc :
  a ≫= verifyToken = Some u ->
  b !! "title" = Some (JStr s) ->
  b !! "description" = JStr <$> dsc ->
  trim s <> "" ->
  exists t1 t2 d1 d2,
    api now1 POST_tasks (incoming a q p b) d
      = ({| status := 201; payload_of := PTask t1 |}, d1)
    /\ api now2 POST_tasks (incoming a q p b) d1
      = ({| status := 201; payload_of := PTask t2 |}, d2)
    /\ _id t1 <> _id t2 /\ t1 <> t2
    /\ In t1 (tasks d2) /\ In t2 (tasks d2)
    /\ tasks d2 = (tasks d ++ [t1; t2])%list
    /\ title t1 = title t2 /\ description t1 = description t2
    /\ owner t1 = u /\ owner t2 = u.
Proof.
  intros Hu Ht Hd Hs.
  apply String.eqb_neq in Hs.
  eexists _, _, _, _.
  rewrite (create_outcome now1 a q p b d u s dsc Hu Ht Hd), Hs.
  rewrite (create_outcome now2 a q p b _ u s dsc Hu Ht Hd), Hs.
  split; [reflexivity|]. split; [reflexivity|].
  assert (Hne : next_id d <> (next_id d + 1)%N) by lia.
  unfold new_task, with_task. simpl.
  repeat split; try reflexivity.
  - exact Hne.
  - intros H. apply (f_equal _id) in H. simpl in H. exact (Hne H).
  - rewrite !in_app_iff. simpl. tauto.
  - rewrite !in_app_iff. simpl. tauto.
  - now rewrite <- app_assoc.
Qed.

End CreateClaims.

(** ** Ownership *)

Module OwnerFacts.
Import Js Mongo Express Routes JsFacts MongoFacts RouteFacts IdFacts BodyFacts.

Lemma find_matches f s skip lim d l :
  find f s skip lim d = Some l -> Forall (fun t => matches f t = true) l.
Proof.
  unfold find. destruct (filter_casts f && (0 <=? skip) && sort_ok s); [|discriminate].
  intros [= <-].
  apply limit_docs_Forall, Forall_drop, order_docs_Forall, filter_matches_Forall.
Qed.

(** An update touches at most one document and keeps its identifier. *)
Lemma update_first_elements f c l r l' :
  update_first f c l = (r, l') ->
  (forall t', In t' l' -> exists t, In t l /\ (t' = t \/ t' = apply_update c t))
  /\ (forall t', r = Some t' ->
        exists t, In t l /\ matches f t = true /\ t' = apply_update c t).
Proof.
  revert r l'. induction l as [|x l IH]; simpl; intros r l' H.
  - injection H as <- <-. split; [intros t' []|discriminate].
  - destruct (matches f x) eqn:E.
    + injection H as <- <-. split.
      * intros t' [<-|Ht']; [exists x; auto | exists t'; auto].
      * intros t' [= <-]. exists x. auto.
    + destruct (update_first f c l) as [r0 l0]. injection H as <- <-.
      destruct (IH r0 l0 eq_refl) as [IH1 IH2]. split.
      * intros t' [<-|Ht']; [exists x; auto|].
        destruct (IH1 t' Ht') as (t & Ht & Hc). exists t. auto.
      * intros t' Hr. destruct (IH2 t' Hr) as (t & Ht & Hm & Hc). exists t. auto.
Qed.

Lemma remove_first_elements f l r l' :
  remove_first f l = (r, l') -> forall t, In t l' -> In t l.
Proof.
  revert r l'. induction l as [|x l IH]; simpl; intros r l' H.
  - injection H as <- <-. auto.
  - destruct (matches f x).
    + injection H as <- <-. auto.
    + destruct (remove_first f l) as [r0 l0]. injection H as <- <-.
      intros t [<-|Ht]; [auto|]. right. exact (IH r0 l0 eq_refl t Ht).
Qed.

(** The [updates] object never names an owner, so the cast update
    never sets one. *)
Lemma cast_update_no_owner b c :
  cast_update (updates_of b) = Some c -> set_owner c = None.
Proof.
  destruct (updates_of_lookup b) as (_ & _ & _ & L4).
  unfold cast_update. rewrite L4.
  destruct (cast_opt castString (updates_of b !! "title")); [|discriminate].
  destruct (cast_opt castString (updates_of b !! "description")); [|discriminate].
  destruct (cast_opt castBoolean (updates_of b !! "completed")); [|discriminate].
  simpl. intros [= <-]. reflexivity.
Qed.

Lemma apply_update_keeps_owner c t :
  set_owner c = None ->
  _id (apply_update c t) = _id t /\ owner (apply_update c t) = owner t.
Proof. intros H. unfold apply_update. simpl. now rewrite H. Qed.

(** What the body fields other than the three that are read do not
    change. *)
Lemma create_errors_ignores k v b :
  k <> "title" -> k <> "description" ->
  create_errors (<[k := v]> b) = create_errors b.
Proof. intros. unfold create_errors. now rewrite !lookup_insert_ne. Qed.

Lemma create_doc_ignores u k v b :
  k <> "title" -> k <> "description" ->
  create_doc u (create_body (<[k := v]> b)) = create_doc u (create_body b).
Proof.
  intros. unfold create_doc, create_body.
  rewrite !lookup_insert_eq. rewrite !(lookup_insert_ne _ "title" "description") by done.
  now rewrite !lookup_insert_ne.
Qed.

Lemma update_errors_ignores k v b :
  k <> "title" -> k <> "description" -> k <> "completed" ->
  update_errors (<[k := v]> b) = update_errors b.
Proof. intros. unfold update_errors. now rewrite !lookup_insert_ne. Qed.

Lemma update_body_lookup b k :
  k <> "title" -> update_body b !! k = b !! k.
Proof.
  intros. unfold update_body. destruct (b !! "title"); [|reflexivity].
  now rewrite lookup_insert_ne.
Qed.

Lemma update_body_title b :
  update_body b !! "title" = title_value <$> (Some <$> b !! "title").
Proof.
  unfold update_body. destruct (b !! "title") eqn:E; simpl; [|exact E].
  now rewrite lookup_insert_eq.
Qed.

Lemma updates_of_ignores k v b :
  k <> "title" -> k <> "description" -> k <> "completed" ->
  updates_of (update_body (<[k := v]> b)) = updates_of (update_body b).
Proof.
  intros. unfold updates_of.
  rewrite !update_body_title, !update_body_lookup by done.
  now rewrite !lookup_insert_ne.
Qed.

Lemma list_query_ignores u k s q :
  k <> "completed" -> k <> "page" -> k <> "limit" -> k <> "sort" ->
  list_errors (<[k := s]> q) = list_errors q
  /\ list_filter u (<[k := s]> q) = list_filter u q
  /\ list_page (<[k := s]> q) = list_page q
  /\ list_limit (<[k := s]> q) = list_limit q
  /\ list_sort (<[k := s]> q) = list_sort q.
Proof.
  intros. unfold list_errors, list_filter, list_page, list_limit, list_sort.
  now rewrite !lookup_insert_ne.
Qed.

End OwnerFacts.

Section OwnerClaims.
Import Js Mongo Express Routes JsFacts MongoFacts RouteFacts IdFacts BodyFacts.
Import OwnerFacts.

Variable verifyToken : string -> option ObjectId.
Variable unauthenticated : string.

Local Abbreviation api := (api_tasks verifyToken unauthenticated).

Lemma api_prepared now r a q p b d u :
  a ≫= verifyToken = Some u ->
  api now r (incoming a q p b) d = handler_of now r (prepared r a u q p b) d.
Proof.
  intros Hu. unfold incoming. destruct r; simpl.
  - now rewrite (api_list_eval _ _ _ _ _ _ _ _ _ _ u Hu).
  - now rewrite (api_create_eval _ _ _ _ _ _ _ _ _ _ u Hu).
  - now rewrite (api_get_eval _ _ _ _ _ _ _ _ _ _ _ u Hu).
  - now rewrite (api_update_eval _ _ _ _ _ _ _ _ _ _ _ u Hu).
  - now rewrite (api_delete_eval _ _ _ _ _ _ _ _ _ _ _ u Hu).
Qed.

(** A client-supplied [owner] in the body changes nothing. *)
Lemma body_owner_ignored now r a q p b d v :
  api now r (incoming a q p (<["owner" := v]> b)) d = api now r (incoming a q p b) d.
Proof.
  destruct (a ≫= verifyToken) as [u|] eqn:Hu.
  2:{ now rewrite !api_unauthenticated. }
  rewrite !(api_prepared now r a q p _ d u Hu).
  destruct r; simpl; try reflexivity.
  - unfold create_task. simpl.
    rewrite create_errors_ignores, create_doc_ignores by done. reflexivity.
  - unfold update_task. simpl.
    rewrite update_errors_ignores, updates_of_ignores by done. reflexivity.
Qed.

(** So does one in the query string. *)
Lemma query_owner_ignored now r a q p b d s :
  api now r (incoming a (<["owner" := s]> q) p b) d = api now r (incoming a q p b) d.
Proof.
  destruct (a ≫= verifyToken) as [u|] eqn:Hu.
  2:{ now rewrite !api_unauthenticated. }
  rewrite !(api_prepared now r a _ p b d u Hu).
  destruct r; simpl; try reflexivity.
  unfold list_tasks. simpl.
  destruct (list_query_ignores u "owner" s q) as (-> & -> & -> & -> & ->); done.
Qed.

(** A task in an answer belongs to the caller. *)
Lemma answered_task_owned now r a q p b d u t :
  a ≫= verifyToken = Some u ->
  payload_of (api now r (incoming a q p b) d).1 = PTask t -> owner t = u.
Proof.
  intros Hu. rewrite (api_prepared now r a q p b d u Hu).
  destruct r; simpl.
  - unfold list_tasks, handleValidation. simpl.
    destruct (list_errors q); [|discriminate].
    destruct (list_page q) as [pg|], (list_limit q) as [lim|]; try discriminate.
    destruct (find (list_filter u q) (list_sort q) (list_skip pg lim) lim d),
             (countDocuments (list_filter u q) d); discriminate.
  - unfold create_task, handleValidation. simpl.
    destruct (create_errors b); [|discriminate].
    destruct (create now _ d) as [[t0 d0]|] eqn:E; [|discriminate].
    simpl. intros [= <-].
    now destruct (create_spec _ _ _ _ _ u E (create_doc_owner u _)).
  - unfold get_task, handleValidation, findOne. simpl.
    destruct (id_errors _); [|discriminate].
    destruct (filter_casts _); [|discriminate].
    destruct (List.find _ _) as [t0|] eqn:E; [|discriminate].
    simpl. intros [= <-]. apply List.find_some in E as [_ E].
    eapply matches_owner; [apply id_filter_owner | exact E].
  - unfold update_task, handleValidation, findOneAndUpdate. simpl.
    destruct (_ ++ _)%list; [|discriminate].
    destruct (filter_casts _); [|discriminate].
    destruct (cast_update _) as [c|] eqn:Hc; [|discriminate]. simpl.
    destruct (update_first _ c (tasks d)) as [[t0|] l] eqn:E; [|discriminate].
    simpl. intros [= <-].
    destruct (update_first_elements _ _ _ _ _ E) as [_ H].
    destruct (H t0 eq_refl) as (t1 & _ & Hm & ->).
    destruct (apply_update_keeps_owner c t1 (cast_update_no_owner _ _ Hc)) as [_ ->].
    eapply matches_owner; [apply id_filter_owner | exact Hm].
  - unfold delete_task, handleValidation, findOneAndDelete. simpl.
    destruct (id_errors _); [|discriminate].
    destruct (filter_casts _); [|discriminate].
    destruct (remove_first _ _) as [[t0|] l]; discriminate.
Qed.

(** Whatever the call, a task of the collection afterwards is a task
    that was there with the same owner, or the one just created for the
    caller. *)
Lemma owners_kept now r a q p b d t' :
  In t' (tasks (api now r (incoming a q p b) d).2) ->
  (exists t, In t (tasks d) /\ _id t = _id t' /\ owner t = owner t')
  \/ (r = POST_tasks /\ _id t' = next_id d
      /\ a ≫= verifyToken = Some (owner t')).
Proof.
  assert (Hsame : In t' (tasks d) ->
    (exists t, In t (tasks d) /\ _id t = _id t' /\ owner t = owner t')
    \/ (r = POST_tasks /\ _id t' = next_id d /\ a ≫= verifyToken = Some (owner t'))).
  { intros H. left. exists t'. auto. }
  destruct (a ≫= verifyToken) as [u|] eqn:Hu.
  2:{ rewrite api_unauthenticated by exact Hu. exact Hsame. }
  rewrite (api_prepared now r a q p b d u Hu).
  destruct r; simpl.
  - unfold list_tasks, handleValidation. simpl.
    destruct (list_errors q); [|exact Hsame].
    destruct (list_page q) as [pg|], (list_limit q) as [lim|]; try exact Hsame.
    destruct (find (list_filter u q) (list_sort q) (list_skip pg lim) lim d),
             (countDocuments (list_filter u q) d); exact Hsame.
  - unfold create_task, handleValidation. simpl.
    destruct (create_errors b); [|exact Hsame].
    destruct (create now _ d) as [[t0 d0]|] eqn:E; [|exact Hsame].
    destruct (create_spec _ _ _ _ _ u E (create_doc_owner u _)) as (Ho & Hi & _ & ->).
    simpl. rewrite in_app_iff. intros [H | [<- | []]]; [now apply Hsame|].
    right. rewrite Ho. auto.
  - unfold get_task, handleValidation, findOne. simpl.
    destruct (id_errors _); [|exact Hsame].
    destruct (filter_casts _); [|exact Hsame].
    destruct (List.find _ _); exact Hsame.
  - unfold update_task, handleValidation, findOneAndUpdate. simpl.
    destruct (_ ++ _)%list; [|exact Hsame].
    destruct (filter_casts _); [|exact Hsame].
    destruct (cast_update _) as [c|] eqn:Hc; [|exact Hsame]. simpl.
    destruct (update_first _ c (tasks d)) as [[t0|] l] eqn:E; [|exact Hsame].
    simpl. intros Hin.
    destruct (update_first_elements _ _ _ _ _ E) as [H _].
    destruct (H t' Hin) as (t & Ht & [-> | ->]); left; exists t; [auto|].
    destruct (apply_update_keeps_owner c t (cast_update_no_owner _ _ Hc)) as [-> ->].
    auto.
  - unfold delete_task, handleValidation, findOneAndDelete. simpl.
    destruct (id_errors _); [|exact Hsame].
    destruct (filter_casts _); [|exact Hsame].
    destruct (remove_first _ _) as [[t0|] l] eqn:E; [|exact Hsame].
    simpl. intros Hin. apply Hsame. exact (remove_first_elements _ _ _ _ E t' Hin).
Qed.

(** The tasks of a page belong to the caller. *)
Lemma listed_tasks_owned now r a q p b d u ts m :
  a ≫= verifyToken = Some u ->
  payload_of (api now r (incoming a q p b) d).1 = PTasks ts m ->
  Forall (fun t => owner t = u) ts.
Proof.
  intros Hu. rewrite (api_prepared now r a q p b d u Hu).
  destruct r; simpl.
  - unfold list_tasks, handleValidation. simpl.
    destruct (list_errors q); [|discriminate].
    destruct (list_page q) as [pg|], (list_limit q) as [lim|]; try discriminate.
    destruct (find (list_filter u q) (list_sort q) (list_skip pg lim) lim d)
      as [l|] eqn:E; [|discriminate].
    destruct (countDocuments (list_filter u q) d); [|discriminate].
    simpl. intros [= <- _].
    eapply Forall_impl; [exact (find_matches _ _ _ _ _ _ E)|].
    intros t Ht. simpl in Ht.
    eapply matches_owner; [apply ListFacts.list_filter_owner | exact Ht].
  - unfold create_task, handleValidation. simpl.
    destruct (create_errors b); [|discriminate].
    destruct (create now _ d) as [[t0 d0]|]; discriminate.
  - unfold get_task, handleValidation, findOne. simpl.
    destruct (id_errors _); [|discriminate].
    destruct (filter_casts _); [|discriminate].
    destruct (List.find _ _); discriminate.
  - unfold update_task, handleValidation, findOneAndUpdate. simpl.
    destruct (_ ++ _)%list; [|discriminate].
    destruct (filter_casts _); [|discriminate].
    destruct (cast_update _) as [c|]; [|discriminate]. simpl.
    destruct (update_first _ c (tasks d)) as [[t0|] l]; discriminate.
  - unfold delete_task, handleValidation, findOneAndDelete. simpl.
    destruct (id_errors _); [|discriminate].
    destruct (filter_casts _); [|discriminate].
    destruct (remove_first _ _) as [[t0|] l]; discriminate.
Qed.

End OwnerClaims.

(** ** The claims on the sample collection *)

Section TaskExamples.
Import Js Mongo Express Routes.

(** Nobody but ann owns the task with the first identifier. *)
Lemma bob_does_not_own_id1 :
  forall t, In t (tasks Sample.db0) -> _id t = oid_of Sample.id1 -> owner t <> 8%N.
Proof.
  intros t [<-|[<-|[<-|[]]]]; vm_compute; congruence.
Qed.

(** C3 as stated fails: bob sends an update with the identifier, 24
    hexadecimal digits, of a task he does not own and a blank title; the
    answer is the 400 of validation, not 404. *)
Lemma C3_counterexample :
  is_hex24 Sample.id1 = true
  /\ (forall t, In t (tasks Sample.db0) -> _id t = oid_of Sample.id1 -> owner t <> 8%N)
  /\ Sample.api 0 (PUT_task Sample.id1)
       (incoming Sample.bob ∅ ∅ {[ "title" := JStr " " ]}) Sample.db0
     = ({| status := 400;
           payload_of := PErrors [{| param := "title";
                                     msg := "title must be a non-empty string" |}] |},
        Sample.db0)
  /\ (Sample.api 0 (PUT_task Sample.id1)
        (incoming Sample.bob ∅ ∅ {[ "title" := JStr " " ]}) Sample.db0).1
     <> not_found.
Proof.
  split; [reflexivity|]. split; [exact bob_does_not_own_id1|].
  split; [reflexivity|]. vm_compute. discriminate.
Qed.

(** An identifier with the prefix [0x] passes the check of the routes
    and is no ObjectId: the three routes answer 500. *)
Example prefixed_id_is_a_server_error :
  isMongoId Sample.id_prefixed = true
  /\ is_hex24 Sample.id_prefixed = false
  /\ Sample.api 0 (GET_task Sample.id_prefixed) (incoming Sample.ann ∅ ∅ ∅) Sample.db0
     = (server_error, Sample.db0)
  /\ Sample.api 0 (PUT_task Sample.id_prefixed) (incoming Sample.ann ∅ ∅ Sample.done)
       Sample.db0
     = (server_error, Sample.db0)
  /\ Sample.api 0 (DELETE_task Sample.id_prefixed) (incoming Sample.ann ∅ ∅ ∅) Sample.db0
     = (server_error, Sample.db0).
Proof. repeat split; reflexivity. Qed.

Lemma C3_witness :
  Sample.bob ≫= Sample.verifyToken = Some 8%N
  /\ is_hex24 Sample.id1 = true
  /\ (forall t, In t (tasks Sample.db0) -> _id t = oid_of Sample.id1 -> owner t <> 8%N)
  /\ Sample.api 0 (GET_task Sample.id1) (incoming Sample.bob ∅ ∅ Sample.done) Sample.db0
     = (not_found, Sample.db0)
  /\ Sample.api 0 (DELETE_task Sample.id1) (incoming Sample.bob ∅ ∅ Sample.done) Sample.db0
     = (not_found, Sample.db0)
  /\ (update_errors Sample.done = [] ->
      Sample.api 0 (PUT_task Sample.id1) (incoming Sample.bob ∅ ∅ Sample.done) Sample.db0
      = (not_found, Sample.db0))
  /\ (update_errors Sample.done <> [] ->
      status (Sample.api 0 (PUT_task Sample.id1)
                (incoming Sample.bob ∅ ∅ Sample.done) Sample.db0).1 = 400).
Proof.
  split; [reflexivity|]. split; [reflexivity|]. split; [exact bob_does_not_own_id1|].
  refine (C3_not_owned_is_not_found Sample.verifyToken "Unauthorized" 0 Sample.bob
            ∅ ∅ Sample.done Sample.db0 8%N Sample.id1 _ _ _).
  - reflexivity.
  - reflexivity.
  - exact bob_does_not_own_id1.
Defined.


(** A title with whitespace around it is stored without it. *)
Example create_padded_title :
  Sample.api 50 POST_tasks (incoming Sample.ann ∅ ∅ Sample.milk_body) Sample.db0
  = ({| status := 201;
        payload_of := PTask {| _id := 4%N; title := "buy milk"; description := "";
                               completed := false; owner := 7%N; createdAt := 50 |} |},
     {| tasks := tasks Sample.db0
                 ++ [{| _id := 4%N; title := "buy milk"; description := "";
                        completed := false; owner := 7%N; createdAt := 50 |}];
        next_id := 5%N |}).
Proof. vm_compute. reflexivity. Qed.

(** A title of Unicode spaces is refused, and nothing is stored. *)
Example create_blank_title :
  Text.all_space Sample.blank_title
  /\ Sample.api 50 POST_tasks (incoming Sample.ann ∅ ∅ Sample.blank_body) Sample.db0
     = ({| status := 400;
           payload_of := PErrors [{| param := "title"; msg := "title is required" |}] |},
        Sample.db0).
Proof. split; vm_compute; reflexivity. Qed.


Lemma C5_witness :
  Sample.ann ≫= Sample.verifyToken = Some 7%N
  /\ Sample.api 0 (PUT_task Sample.id1) (incoming Sample.ann ∅ ∅ Sample.done) Sample.db0
     = ({| status := 200; payload_of := PTask Sample.milk_done |},
        {| tasks := [Sample.milk_done; Sample.rent; Sample.call_mum];
           next_id := 4%N |})
  /\ exists pre t post,
       tasks Sample.db0 = (pre ++ t :: post)%list
       /\ [Sample.milk_done; Sample.rent; Sample.call_mum]
          = (pre ++ Sample.milk_done :: post)%list
       /\ 4%N = next_id Sample.db0
       /\ _id Sample.milk_done = _id t /\ owner Sample.milk_done = owner t
       /\ createdAt Sample.milk_done = createdAt t
       /\ (Sample.done !! "title" = None -> title Sample.milk_done = title t)
       /\ (Sample.done !! "description" = None ->
           description Sample.milk_done = description t)
       /\ (Sample.done !! "completed" = None ->
           completed Sample.milk_done = completed t).
Proof.
  split; [reflexivity|]. split; [reflexivity|].
  refine (C5_update_changes_only_supplied_fields Sample.verifyToken "Unauthorized" 0
            Sample.ann ∅ ∅ Sample.done Sample.db0 7%N Sample.id1 Sample.milk_done
            {| tasks := [Sample.milk_done; Sample.rent; Sample.call_mum];
               next_id := 4%N |} _ _);
    reflexivity.
Defined.

Lemma C7_witness :
  Sample.ann ≫= Sample.verifyToken = Some 7%N
  /\ is_hex24 Sample.id1 = true
  /\ In Sample.milk (tasks Sample.db0)
  /\ _id Sample.milk = oid_of Sample.id1
  /\ owner Sample.milk = 7%N
  /\ exists t1 d1,
       Sample.api 10 (PUT_task Sample.id1)
         (incoming Sample.ann ∅ ∅ {[ "completed" := JBool true ]}) Sample.db0
       = ({| status := 200; payload_of := PTask t1 |}, d1)
       /\ Sample.api 20 (PUT_task Sample.id1)
            (incoming Sample.ann ∅ ∅ {[ "completed" := JBool true ]}) d1
          = ({| status := 200; payload_of := PTask t1 |}, d1)
       /\ completed t1 = true
       /\ _id t1 = _id Sample.milk /\ owner t1 = 7%N /\ In t1 (tasks d1).
Proof.
  split; [reflexivity|]. split; [reflexivity|]. split; [now left|].
  split; [reflexivity|]. split; [reflexivity|].
  refine (C7_complete_is_idempotent Sample.verifyToken "Unauthorized" 10 20
            Sample.ann ∅ ∅ Sample.db0 7%N Sample.id1 Sample.milk _ _ _ _ _);
    try reflexivity.
  now left.
Defined.

Lemma C8_witness :
  Sample.ann ≫= Sample.verifyToken = Some 7%N
  /\ Sample.milk_body !! "title" = Some (JStr "  buy milk ")
  /\ Sample.milk_body !! "description" = JStr <$> None
  /\ trim "  buy milk " <> ""
  /\ exists t1 t2 d1 d2,
       Sample.api 50 POST_tasks (incoming Sample.ann ∅ ∅ Sample.milk_body) Sample.db0
       = ({| status := 201; payload_of := PTask t1 |}, d1)
       /\ Sample.api 60 POST_tasks (incoming Sample.ann ∅ ∅ Sample.milk_body) d1
          = ({| status := 201; payload_of := PTask t2 |}, d2)
       /\ _id t1 <> _id t2 /\ t1 <> t2
       /\ In t1 (tasks d2) /\ In t2 (tasks d2)
       /\ tasks d2 = (tasks Sample.db0 ++ [t1; t2])%list
       /\ title t1 = title t2 /\ description t1 = description t2
       /\ owner t1 = 7%N /\ owner t2 = 7%N.
Proof.
  split; [reflexivity|]. split; [reflexivity|]. split; [reflexivity|].
  split; [vm_compute; discriminate|].
  refine (C8_create_twice_makes_two Sample.verifyToken "Unauthorized" 50 60
            Sample.ann ∅ ∅ Sample.milk_body Sample.db0 7%N "  buy milk " None
            _ _ _ _); try reflexivity.
  vm_compute. discriminate.
Defined.

(** The scenario of the specification: a created task is not completed;
    once updated it is, and the completion filter tells the two states
    apart. *)
Example create_complete_filter :
  let d1 := (Sample.api 50 POST_tasks
               (incoming Sample.ann ∅ ∅ {[ "title" := JStr "buy milk" ]})
               {| tasks := []; next_id := 1%N |}).2 in
  let d2 := (Sample.api 60 (PUT_task Sample.id1)
               (incoming Sample.ann ∅ ∅ Sample.done) d1).2 in
  map completed (tasks d1) = [false]
  /\ map completed (tasks d2) = [true]
  /\ (exists m, (Sample.api 70 GET_tasks
                   (incoming Sample.ann {[ "completed" := "true" ]} ∅ ∅) d2).1
                = {| status := 200; payload_of := PTasks (tasks d2) m |})
  /\ (exists m, (Sample.api 70 GET_tasks
                   (incoming Sample.ann {[ "completed" := "false" ]} ∅ ∅) d2).1
                = {| status := 200; payload_of := PTasks [] m |})
  /\ (Sample.api 80 (DELETE_task Sample.id1) (incoming Sample.ann ∅ ∅ ∅) d2).1
     = {| status := 200; payload_of := PMessage "Task deleted" |}
  /\ (Sample.api 90 (DELETE_task Sample.id1) (incoming Sample.ann ∅ ∅ ∅)
        (Sample.api 80 (DELETE_task Sample.id1) (incoming Sample.ann ∅ ∅ ∅) d2).2).1
     = not_found.
Proof.
  repeat split; try reflexivity; eexists; vm_compute; reflexivity.
Qed.

End TaskExamples.

(** ** The client and a rejected token *)

Section ClientClaims.
Import Client.


Lemma logout_clears s :
  token (logout s) = None /\ user (logout s) = None /\ has_token (logout s) = false.
Proof. repeat split. Qed.






End ClientClaims.

(** * Further properties of the routes *)

(** ** What a call leaves alone *)

Module StoreFacts.
Import Js Mongo Express Routes JsFacts MongoFacts RouteFacts IdFacts BodyFacts.
Import OwnerFacts Store.

Lemma update_first_other_owner f c u v l :
  f !! "owner" = Some (BOid u) -> set_owner c = None -> u <> v ->
  List.filter (owned v) (update_first f c l).2 = List.filter (owned v) l.
Proof.
  intros Hf Hc Hne. induction l as [|x l IH]; simpl; [reflexivity|].
  destruct (matches f x) eqn:E.
  - simpl. pose proof (matches_owner f x u Hf E) as Ho.
    destruct (apply_update_keeps_owner c x Hc) as [_ Ho'].
    unfold owned. rewrite Ho', Ho.
    destruct (N.eqb_spec u v); [congruence|reflexivity].
  - destruct (update_first f c l) as [r l']. simpl in *. now rewrite IH.
Qed.

Lemma remove_first_other_owner f u v l :
  f !! "owner" = Some (BOid u) -> u <> v ->
  List.filter (owned v) (remove_first f l).2 = List.filter (owned v) l.
Proof.
  intros Hf Hne. induction l as [|x l IH]; simpl; [reflexivity|].
  destruct (matches f x) eqn:E.
  - simpl. pose proof (matches_owner f x u Hf E) as Ho.
    unfold owned. rewrite Ho. destruct (N.eqb_spec u v); [congruence|reflexivity].
  - destruct (remove_first f l) as [r l']. simpl in *. now rewrite IH.
Qed.

End StoreFacts.

Section StoreProperties.
Import Js Mongo Express Routes JsFacts MongoFacts RouteFacts IdFacts BodyFacts.
Import OwnerFacts Store StoreFacts.

Variable verifyToken : string -> option ObjectId.
Variable unauthenticated : string.

Local Abbreviation api := (api_tasks verifyToken unauthenticated).

(** The collection after a call, by route, for a caller whose token
    resolved. *)
Lemma collection_after now r a q p b d u :
  a ≫= verifyToken = Some u ->
  let out := api now r (incoming a q p b) d in
  out.2 = d
  \/ (r = POST_tasks /\ status out.1 = 201 /\
      exists t, out.1 = {| status := 201; payload_of := PTask t |}
                /\ out.2 = with_task d t /\ owner t = u /\ _id t = next_id d
                /\ createdAt t = now)
  \/ (exists id c, r = PUT_task id /\ status out.1 = 200
        /\ cast_update (updates_of (update_body b)) = Some c
        /\ out.2 = {| tasks := (update_first (id_filter u (<["id" := id]> p)) c (tasks d)).2;
                      next_id := next_id d |})
  \/ (exists id, r = DELETE_task id /\ status out.1 = 200
        /\ out.2 = {| tasks := (remove_first (id_filter u (<["id" := id]> p)) (tasks d)).2;
                      next_id := next_id d |}).
Proof.
  intros Hu out. subst out. rewrite (api_prepared _ _ now r a q p b d u Hu).
  destruct r; simpl.
  - left. unfold list_tasks, handleValidation. simpl.
    destruct (list_errors q); [|reflexivity].
    destruct (list_page q) as [pg|], (list_limit q) as [lim|]; try reflexivity.
    destruct (find (list_filter u q) (list_sort q) (list_skip pg lim) lim d),
             (countDocuments (list_filter u q) d); reflexivity.
  - unfold create_task, handleValidation. simpl.
    destruct (create_errors b); [|now left].
    destruct (create now _ d) as [[t0 d0]|] eqn:E; [|now left].
    destruct (create_spec _ _ _ _ _ u E (create_doc_owner u _)) as (Ho & Hi & Hc & ->).
    right. left. simpl. split; [reflexivity|]. split; [reflexivity|]. exists t0. repeat split; assumption.
  - left. unfold get_task, handleValidation, findOne. simpl.
    destruct (id_errors _); [|reflexivity].
    destruct (filter_casts _); [|reflexivity].
    destruct (List.find _ _); reflexivity.
  - unfold update_task, handleValidation, findOneAndUpdate. simpl.
    destruct (_ ++ _)%list; [|now left].
    destruct (filter_casts _); [|now left].
    destruct (cast_update _) as [c|] eqn:Hc; [|now left]. simpl.
    destruct (update_first _ c (tasks d)) as [[t0|] l] eqn:E; [|now left].
    right. right. left. exists id, c. simpl. rewrite E. repeat split.
  - unfold delete_task, handleValidation, findOneAndDelete. simpl.
    destruct (id_errors _); [|now left].
    destruct (filter_casts _); [|now left].
    destruct (remove_first _ _) as [[t0|] l] eqn:E; [|now left].
    right. right. right. exists id. simpl. rewrite E. repeat split.
Qed.

(** The tasks of the users other than the caller, after a call. *)
Lemma foreign_tasks_kept now r a q p b d u v :
  a ≫= verifyToken = Some u -> u <> v ->
  tasks_of_owner v (api now r (incoming a q p b) d).2 = tasks_of_owner v d.
Proof.
  intros Hu Hne.
  destruct (collection_after now r a q p b d u Hu)
    as [-> | [(_ & _ & t & _ & -> & Ho & _) | [(id & c & _ & _ & Hc & ->)
       | (id & _ & _ & ->)]]]; unfold tasks_of_owner; simpl.
  - reflexivity.
  - rewrite List.filter_app. simpl. unfold owned at 2. rewrite Ho.
    destruct (N.eqb_spec u v); [congruence|]. now rewrite app_nil_r.
  - apply update_first_other_owner with (u := u); [apply id_filter_owner| |exact Hne].
    exact (cast_update_no_owner _ _ Hc).
  - apply remove_first_other_owner with (u := u); [apply id_filter_owner|exact Hne].
Qed.

(** X1. Whatever the route and the request, a call changes nothing of
    the tasks of a user other than the one its token resolves to: they
    are the same records in the same order afterwards. *)
Theorem other_users_tasks_untouched now r a q p b d v :
  a ≫= verifyToken <> Some v ->
  tasks_of_owner v (api now r (incoming a q p b) d).2 = tasks_of_owner v d.
Proof.
  intros Hv. destruct (a ≫= verifyToken) as [u|] eqn:Hu.
  2:{ now rewrite api_unauthenticated. }
  apply (foreign_tasks_kept now r a q p b d u v Hu). congruence.
Qed.

(** X2. A call that is not answered 200 or 201 leaves the collection as
    it was, and so does every GET, whatever its answer. *)
Theorem refused_calls_change_nothing now r a q p b d :
  let out := api now r (incoming a q p b) d in
  (succeeded out.1 = false -> out.2 = d)
  /\ match r with
     | GET_tasks | GET_task _ => out.2 = d
     | _ => True
     end.
Proof.
  intros out. subst out. destruct (a ≫= verifyToken) as [u|] eqn:Hu.
  2:{ rewrite api_unauthenticated by exact Hu. split; [reflexivity|]. now destruct r. }
  destruct (collection_after now r a q p b d u Hu)
    as [H | [(-> & H & _) | [(id & c & -> & H & _) | (id & -> & H & _)]]].
  - split; [intros _; exact H|]. destruct r; auto.
  - split; [|exact I]. unfold succeeded. rewrite H. discriminate.
  - split; [|exact I]. unfold succeeded. rewrite H. discriminate.
  - split; [|exact I]. unfold succeeded. rewrite H. discriminate.
Qed.

(** C2. For every task operation: without a token that verifies there
    is a 401 and the collection is untouched.  With one, the identity it
    resolves to is the owner at work: it is the owner in every filter
    and in every created document, and the update operator names no
    owner; every task of a returned page and every task in an answer
    belongs to that identity; the tasks of every other user are after
    the call what they were before it, so that a get, an update or a
    delete reaches the caller's tasks only; an owner field supplied in
    the body or in the query changes neither the answer nor the
    collection; and every task in the collection afterwards was there
    before with the same owner, or has just been created for the
    caller. *)
Theorem C2_owner_is_the_verified_identity now r a q p b d :
  let out := api now r (incoming a q p b) d in
  (a ≫= verifyToken = None ->
   out = ({| status := 401; payload_of := PMessage unauthenticated |}, d))
  /\ (forall u, list_filter u q !! "owner" = Some (BOid u)
             /\ id_filter u p !! "owner" = Some (BOid u)
             /\ create_doc u b !! "owner" = Some (BOid u)
             /\ updates_of b !! "owner" = None)
  /\ (forall u ts m, a ≫= verifyToken = Some u ->
        payload_of out.1 = PTasks ts m -> Forall (fun t => owner t = u) ts)
  /\ (forall u t, a ≫= verifyToken = Some u ->
        payload_of out.1 = PTask t -> owner t = u)
  /\ (forall v, a ≫= verifyToken <> Some v ->
        tasks_of_owner v out.2 = tasks_of_owner v d)
  /\ (forall v, api now r (incoming a q p (<["owner" := v]> b)) d = out)
  /\ (forall s, api now r (incoming a (<["owner" := s]> q) p b) d = out)
  /\ (forall t', In t' (tasks out.2) ->
        (exists t, In t (tasks d) /\ _id t = _id t' /\ owner t = owner t')
        \/ (r = POST_tasks /\ _id t' = next_id d
            /\ a ≫= verifyToken = Some (owner t'))).
Proof.
  intros out. subst out.
  split; [|split; [|split; [|split; [|split; [|split; [|split]]]]]].
  - intros Hu. now apply api_unauthenticated.
  - intros u. repeat split.
    + apply ListFacts.list_filter_owner.
    + apply id_filter_owner.
    + apply create_doc_owner.
    + apply updates_of_lookup.
  - intros u ts m. apply listed_tasks_owned.
  - intros u t. apply answered_task_owned.
  - intros v Hv. destruct (a ≫= verifyToken) as [u|] eqn:Hu.
    + apply (foreign_tasks_kept now r a q p b d u v Hu). congruence.
    + now rewrite api_unauthenticated.
  - apply body_owner_ignored.
  - apply query_owner_ignored.
  - apply owners_kept.
Qed.

End StoreProperties.

(** ** Identifiers, and reading back what was written *)

Module IdentityFacts.
Import Js Mongo Express Routes JsFacts MongoFacts RouteFacts IdFacts BodyFacts.
Import OwnerFacts Store StoreFacts.

Lemma update_first_ids f c l : map _id (update_first f c l).2 = map _id l.
Proof.
  induction l as [|x l IH]; simpl; [reflexivity|].
  destruct (matches f x); simpl; [reflexivity|].
  destruct (update_first f c l) as [r l']. simpl in *. now rewrite IH.
Qed.

Lemma remove_first_NoDup f l :
  List.NoDup (map _id l) -> List.NoDup (map _id (remove_first f l).2).
Proof.
  induction l as [|x l IH]; simpl; intros H; [exact H|].
  inversion H as [|? ? Hx Hl]; subst.
  destruct (matches f x); simpl; [exact Hl|].
  destruct (remove_first f l) as [r l'] eqn:E. simpl in *.
  constructor; [|now apply IH].
  intros Hin. apply Hx. apply in_map_iff in Hin as (y & Hy & Hin).
  apply in_map_iff. exists y. split; [exact Hy|].
  exact (remove_first_elements _ _ _ _ E y Hin).
Qed.

(** Two tasks of a collection with unique identifiers that share an
    identifier are one task. *)
Lemma same_id_same_task l x y :
  List.NoDup (map _id l) -> In x l -> In y l -> _id x = _id y -> x = y.
Proof.
  induction l as [|z l IH]; simpl; intros H Hx Hy E; [contradiction|].
  inversion H as [|? ? Hz Hl]; subst.
  destruct Hx as [<-|Hx], Hy as [<-|Hy]; auto.
  - exfalso. apply Hz. rewrite E. now apply in_map.
  - exfalso. apply Hz. rewrite <- E. now apply in_map.
Qed.

Lemma find_some_split f l t :
  List.find (matches f) l = Some t ->
  exists pre post,
    l = (pre ++ t :: post)%list
    /\ Forall (fun x => matches f x = false) pre /\ matches f t = true.
Proof.
  induction l as [|x l IH]; simpl; [discriminate|].
  destruct (matches f x) eqn:E.
  - intros [= <-]. exists [], l. repeat split; [constructor|exact E].
  - intros H. destruct (IH H) as (pre & post & -> & Hpre & Ht).
    exists (x :: pre), post. repeat split; [constructor; assumption|exact Ht].
Qed.

(** With unique identifiers, the task with the identifier and owner
    asked for is the first match, and the only one. *)
Lemma owned_task_split u id p l t :
  is_hex24 id = true -> List.NoDup (map _id l) ->
  In t l -> _id t = oid_of id -> owner t = u ->
  exists pre post,
    l = (pre ++ t :: post)%list
    /\ Forall (fun x => matches (id_filter u (<["id" := id]> p)) x = false) pre
    /\ matches (id_filter u (<["id" := id]> p)) t = true
    /\ Forall (fun x => matches (id_filter u (<["id" := id]> p)) x = false) post.
Proof.
  intros Hid Hnd Hin Hi Ho.
  set (f := id_filter u (<["id" := id]> p)).
  assert (Hm : forall x, matches f x = owned_by u (oid_of id) x).
  { intros x. unfold f. rewrite id_filter_with_id. now apply id_filter_matches. }
  assert (Ht : matches f t = true).
  { rewrite Hm. unfold owned_by. rewrite Hi, Ho, !N.eqb_refl. reflexivity. }
  assert (Hex : Exists (fun x => matches f x = true) l).
  { apply List.Exists_exists. eauto. }
  destruct (first_match f l Hex) as (pre & t0 & post & Hl & Hpre & Ht0).
  assert (t0 = t).
  { apply (same_id_same_task l); try assumption.
    - rewrite Hl. apply in_elt.
    - rewrite Hm in Ht0. unfold owned_by in Ht0.
      apply andb_true_iff in Ht0 as [E _]. apply N.eqb_eq in E. congruence. }
  subst t0. exists pre, post. repeat split; try assumption.
  apply List.Forall_forall. intros x Hx.
  destruct (matches f x) eqn:E; [|reflexivity]. exfalso.
  rewrite Hm in E. unfold owned_by in E.
  apply andb_true_iff in E as [E _]. apply N.eqb_eq in E.
  rewrite Hl, map_app in Hnd. simpl in Hnd.
  apply List.NoDup_remove_2 in Hnd. apply Hnd.
  apply in_or_app. right. rewrite Hi, <- E. now apply in_map.
Qed.

Lemma db_eta d : {| tasks := tasks d; next_id := next_id d |} = d.
Proof. now destruct d. Qed.

End IdentityFacts.

Section IdentityProperties.
Import Js Mongo Express Routes JsFacts MongoFacts RouteFacts IdFacts BodyFacts.
Import OwnerFacts Store StoreFacts IdentityFacts.

Variable verifyToken : string -> option ObjectId.
Variable unauthenticated : string.

Local Abbreviation api := (api_tasks verifyToken unauthenticated).

(** No call breaks the uniqueness of the identifiers. *)
Lemma unique_ids_kept now r a q p b d :
  unique_ids d -> unique_ids (api now r (incoming a q p b) d).2.
Proof.
  intros [Hnd Hlt]. destruct (a ≫= verifyToken) as [u|] eqn:Hu.
  2:{ rewrite api_unauthenticated by exact Hu. now split. }
  destruct (collection_after verifyToken unauthenticated now r a q p b d u Hu)
    as [-> | [(_ & _ & t & _ & -> & _ & Hi & _) | [(id & c & _ & _ & _ & ->)
       | (id & _ & _ & ->)]]]; unfold unique_ids; simpl.
  - now split.
  - split.
    + rewrite map_app. simpl. apply List.NoDup_app; [exact Hnd| |].
      * constructor; [intros []|constructor].
      * intros x Hx [<-|[]]. apply in_map_iff in Hx as (y & Hy & Hin).
        rewrite List.Forall_forall in Hlt. specialize (Hlt y Hin). lia.
    + apply Forall_app. split.
      * eapply Forall_impl; [exact Hlt|]. intros y Hy. simpl in Hy. lia.
      * repeat constructor. lia.
  - split; [now rewrite update_first_ids|].
    apply List.Forall_forall. intros x Hx.
    destruct (update_first _ c (tasks d)) as [r0 l0] eqn:E. simpl in Hx.
    destruct (update_first_elements _ _ _ _ _ E) as [H _].
    rewrite List.Forall_forall in Hlt.
    destruct (H x Hx) as (y & Hy & [-> | ->]); [now apply Hlt|].
    simpl. exact (Hlt y Hy).
  - split; [now apply remove_first_NoDup|].
    apply List.Forall_forall. intros x Hx.
    destruct (remove_first _ (tasks d)) as [r0 l0] eqn:E. simpl in Hx.
    rewrite List.Forall_forall in Hlt. apply Hlt.
    exact (remove_first_elements _ _ _ _ E x Hx).
Qed.

(** X3. Deleting a task of the caller removes that task and no other;
    from then on the same identifier is answered 404, by get as by a
    second delete. *)
Theorem deleted_task_is_gone now now' a q q' p p' b b' d u id t :
  a ≫= verifyToken = Some u ->
  is_hex24 id = true ->
  unique_ids d ->
  In t (tasks d) -> _id t = oid_of id -> owner t = u ->
  exists pre post,
    tasks d = (pre ++ t :: post)%list
    /\ api now (DELETE_task id) (incoming a q p b) d
       = ({| status := 200; payload_of := PMessage "Task deleted" |},
          {| tasks := pre ++ post; next_id := next_id d |})
    /\ ~ In t (pre ++ post)
    /\ api now' (GET_task id) (incoming a q' p' b')
         {| tasks := pre ++ post; next_id := next_id d |}
       = (not_found, {| tasks := pre ++ post; next_id := next_id d |})
    /\ api now' (DELETE_task id) (incoming a q' p' b')
         {| tasks := pre ++ post; next_id := next_id d |}
       = (not_found, {| tasks := pre ++ post; next_id := next_id d |}).
Proof.
  intros Hu Hid [Hnd _] Hin Hi Ho.
  destruct (owned_task_split u id p (tasks d) t Hid Hnd Hin Hi Ho)
    as (pre & post & Hl & Hpre & Ht & Hpost).
  exists pre, post. split; [exact Hl|].
  assert (Hno : forall p0, Forall (fun x => matches (id_filter u (<["id" := id]> p0)) x = false)
                  (pre ++ post)).
  { intros p0. rewrite id_filter_with_id.
    rewrite id_filter_with_id in Hpre, Hpost. apply Forall_app. now split. }
  split; [|split; [|split]].
  - rewrite (delete_outcome verifyToken unauthenticated now a q p b d u id Hu Hid), Hl.
    now rewrite (remove_first_at _ _ _ _ Hpre Ht).
  - intros Hin'. specialize (Hno p). rewrite List.Forall_forall in Hno.
    specialize (Hno t Hin'). congruence.
  - rewrite (get_outcome verifyToken unauthenticated now' a q' p' b' _ u id Hu Hid). simpl.
    now rewrite (find_none_matches _ _ (Hno p')).
  - rewrite (delete_outcome verifyToken unauthenticated now' a q' p' b' _ u id Hu Hid). simpl.
    now rewrite (remove_first_none _ _ (Hno p')).
Qed.

(** X4. A task that has just been created is returned to its creator by
    a get with its identifier, and is not found by anybody else. *)
Theorem created_task_is_fetched now now' a a' q q' p p' b b' d u v tit dsc id :
  a ≫= verifyToken = Some u ->
  a' ≫= verifyToken = Some v ->
  b !! "title" = Some (JStr tit) ->
  b !! "description" = JStr <$> dsc ->
  trim tit <> "" ->
  unique_ids d ->
  is_hex24 id = true -> oid_of id = next_id d ->
  let t := new_task now d u tit dsc in
  api now POST_tasks (incoming a q p b) d
    = ({| status := 201; payload_of := PTask t |}, with_task d t)
  /\ api now' (GET_task id) (incoming a' q' p' b') (with_task d t)
     = (if decide (v = u) then {| status := 200; payload_of := PTask t |}
        else not_found, with_task d t).
Proof.
  intros Hu Hv Ht Hd Hs [_ Hlt] Hid Hi t.
  apply String.eqb_neq in Hs. split.
  { now rewrite (create_outcome verifyToken unauthenticated now a q p b d u tit dsc Hu Ht Hd), Hs. }
  rewrite (get_outcome verifyToken unauthenticated now' a' q' p' b' _ v id Hv Hid). simpl.
  assert (Hm : forall x, matches (id_filter v (<["id" := id]> p')) x
                         = owned_by v (oid_of id) x).
  { intros x. rewrite id_filter_with_id. now apply id_filter_matches. }
  assert (Hold : Forall (fun x => matches (id_filter v (<["id" := id]> p')) x = false)
                   (tasks d)).
  { eapply Forall_impl; [exact Hlt|]. intros x Hx. simpl in Hx. rewrite Hm.
    unfold owned_by. destruct (N.eqb_spec (_id x) (oid_of id)); [lia|reflexivity]. }
  destruct (decide (v = u)) as [->|Hne].
  - rewrite find_first; [reflexivity|exact Hold|].
    rewrite Hm. unfold owned_by, t. simpl. rewrite Hi, !N.eqb_refl. reflexivity.
  - rewrite find_none_matches; [reflexivity|].
    apply Forall_app. split; [exact Hold|]. repeat constructor.
    rewrite Hm. unfold owned_by, t. simpl.
    destruct (N.eqb_spec u v); [congruence|]. apply andb_false_r.
Qed.

(** X5. After an update that succeeded, a get of the same identifier by
    the same caller returns the task the update returned. *)
Theorem updated_task_is_fetched now now' a q q' p p' b b' d u id t' d' :
  a ≫= verifyToken = Some u ->
  api now (PUT_task id) (incoming a q p b) d
    = ({| status := 200; payload_of := PTask t' |}, d') ->
  api now' (GET_task id) (incoming a q' p' b') d'
    = ({| status := 200; payload_of := PTask t' |}, d').
Proof.
  intros Hu Hr.
  destruct (update_cases verifyToken unauthenticated now a q p b d u id Hu)
    as [[es He] | [He | [(_ & _ & _ & He)
       | (_ & Hid & pre & t & post & Hl & Hpre & Ht & He)]]];
    rewrite He in Hr; try discriminate.
  injection Hr as <- <-.
  rewrite (get_outcome verifyToken unauthenticated now' a q' p' b' _ u id Hu Hid). simpl.
  rewrite id_filter_with_id in *.
  rewrite find_first; [reflexivity|exact Hpre|].
  rewrite (id_filter_matches u id _ Hid) in Ht.
  rewrite (id_filter_matches u id _ Hid). exact Ht.
Qed.

(** X6. Toggling the completion flag of a task twice, as the client
    does with [{ completed: !task.completed }], gives back the task and
    the collection one started from. *)
Theorem toggle_twice_restores now0 now1 now2 a q p b d u id t :
  a ≫= verifyToken = Some u ->
  api now0 (GET_task id) (incoming a q p b) d
    = ({| status := 200; payload_of := PTask t |}, d) ->
  exists t1 d1,
    api now1 (PUT_task id)
      (incoming a q p {[ "completed" := JBool (negb (completed t)) ]}) d
      = ({| status := 200; payload_of := PTask t1 |}, d1)
    /\ completed t1 = negb (completed t)
    /\ api now2 (PUT_task id)
         (incoming a q p {[ "completed" := JBool (negb (completed t1)) ]}) d1
       = ({| status := 200; payload_of := PTask t |}, d).
Proof.
  intros Hu Hg.
  destruct (isMongoId id) eqn:Hid.
  2:{ unfold incoming in Hg. rewrite (api_get_eval _ _ _ _ _ _ _ _ _ _ _ u Hu) in Hg.
      unfold get_task, handleValidation in Hg. simpl in Hg.
      pose proof (id_errors_malformed id p Hid) as Hne.
      destruct (id_errors (<["id" := id]> p)); [congruence|discriminate]. }
  destruct (is_hex24 id) eqn:H24.
  2:{ destruct (id_route_cast_error verifyToken unauthenticated now0 a q p b d u id
                  Hu Hid H24) as [E _].
      rewrite E in Hg. discriminate. }
  clear Hid. rename H24 into Hid.
  rewrite (get_outcome verifyToken unauthenticated now0 a q p b d u id Hu Hid) in Hg.
  destruct (List.find _ (tasks d)) as [t0|] eqn:Hf; [|discriminate].
  injection Hg as ->.
  destruct (find_some_split _ _ _ Hf) as (pre & post & Hl & Hpre & Ht).
  set (f := id_filter u (<["id" := id]> p)) in *.
  assert (Hm : forall x, matches f x = owned_by u (oid_of id) x).
  { intros x. unfold f. rewrite id_filter_with_id. now apply id_filter_matches. }
  set (b1 := ({[ "completed" := JBool (negb (completed t)) ]} : gmap string json)).
  set (t1 := apply_update (body_update b1) t).
  assert (Hb1 : update_errors b1 = []) by (unfold b1; destruct (completed t); reflexivity).
  assert (Ht1 : matches f t1 = true) by (rewrite Hm in Ht |- *; exact Ht).
  exists t1, {| tasks := pre ++ t1 :: post; next_id := next_id d |}.
  split; [|split].
  - rewrite (update_outcome verifyToken unauthenticated now1 a q p b1 d u id Hu Hid Hb1). fold f.
    now rewrite Hl, (update_first_at f _ _ _ _ Hpre Ht).
  - unfold t1, b1. destruct (completed t); reflexivity.
  - set (b2 := ({[ "completed" := JBool (negb (completed t1)) ]} : gmap string json)).
    assert (Hb2 : update_errors b2 = [])
      by (unfold b2; destruct (completed t1); reflexivity).
    rewrite (update_outcome verifyToken unauthenticated now2 a q p b2 _ u id Hu Hid Hb2). fold f. simpl.
    rewrite (update_first_at f _ _ _ _ Hpre Ht1).
    assert (Hback : apply_update (body_update b2) t1 = t).
    { unfold b2, t1, b1. destruct t as [i ti de co ow cr]. destruct co; reflexivity. }
    rewrite Hback, <- Hl. now rewrite db_eta.
Qed.

End IdentityProperties.

(** ** Numbers written and read back *)

Module NumberFacts.
Import Js.

Lemma read_digits_acc d : forall acc c,
  read_digits (NilEmpty.string_of_uint d) (Z.pos acc) c
  = (Z.pos (Pos.of_uint_acc d acc), (c + Decimal.nb_digits d)%nat, "").
Proof.
  induction d; intros acc c; simpl NilEmpty.string_of_uint;
    [simpl; now rewrite Nat.add_0_r|..];
    cbn [read_digits];
    match goal with |- context [is_digit ?ch] =>
      change (is_digit ch) with true; cbv iota end;
    match goal with |- read_digits _ ?v _ = _ =>
      match goal with |- _ = (Z.pos (Pos.of_uint_acc _ ?q), _, _) => idtac end
    end;
    cbn [Pos.of_uint_acc Decimal.nb_digits];
    match goal with |- read_digits _ ?v _ = (Z.pos (Pos.of_uint_acc _ ?q), _, _) =>
      replace v with (Z.pos q)
        by (match goal with |- context [digit_val ?ch] =>
              let k := eval vm_compute in (digit_val ch) in
              change (digit_val ch) with k end; lia)
    end;
    rewrite IHd; f_equal; f_equal; lia.
Qed.

Lemma read_digits_uint d : forall c,
  read_digits (NilEmpty.string_of_uint d) 0 c
  = (Z.of_N (Pos.of_uint d), (c + Decimal.nb_digits d)%nat, "").
Proof.
  induction d; intros c; simpl NilEmpty.string_of_uint;
    [simpl; now rewrite Nat.add_0_r|..];
    cbn [read_digits];
    match goal with |- context [is_digit ?ch] =>
      change (is_digit ch) with true; cbv iota end;
    cbn [Pos.of_uint Decimal.nb_digits Z.of_N].
  - change (10 * 0 + digit_val "0") with 0. rewrite IHd. f_equal. f_equal. lia.
  - change (10 * 0 + digit_val "1") with (Z.pos 1). rewrite read_digits_acc. f_equal. f_equal. lia.
  - change (10 * 0 + digit_val "2") with (Z.pos 2). rewrite read_digits_acc. f_equal. f_equal. lia.
  - change (10 * 0 + digit_val "3") with (Z.pos 3). rewrite read_digits_acc. f_equal. f_equal. lia.
  - change (10 * 0 + digit_val "4") with (Z.pos 4). rewrite read_digits_acc. f_equal. f_equal. lia.
  - change (10 * 0 + digit_val "5") with (Z.pos 5). rewrite read_digits_acc. f_equal. f_equal. lia.
  - change (10 * 0 + digit_val "6") with (Z.pos 6). rewrite read_digits_acc. f_equal. f_equal. lia.
  - change (10 * 0 + digit_val "7") with (Z.pos 7). rewrite read_digits_acc. f_equal. f_equal. lia.
  - change (10 * 0 + digit_val "8") with (Z.pos 8). rewrite read_digits_acc. f_equal. f_equal. lia.
  - change (10 * 0 + digit_val "9") with (Z.pos 9). rewrite read_digits_acc. f_equal. f_equal. lia.
Qed.

Lemma to_uint_nonnil p : Pos.to_uint p <> Decimal.Nil.
Proof.
  intros H. pose proof (DecimalPos.Unsigned.of_to p) as E. rewrite H in E. discriminate.
Qed.

Lemma digits_nonnil d : d <> Decimal.Nil -> exists k, Decimal.nb_digits d = S k.
Proof. destruct d; [congruence|..]; intros _; simpl; eauto. Qed.

Lemma string_of_uint_nonnil d :
  d <> Decimal.Nil -> NilZero.string_of_uint d = NilEmpty.string_of_uint d.
Proof. destruct d; [congruence|..]; reflexivity. Qed.

Lemma read_sign_digits d :
  read_sign (NilEmpty.string_of_uint d) = (false, NilEmpty.string_of_uint d).
Proof. destruct d; reflexivity. Qed.

(** The decimal text of a natural number is read back by the integer
    pattern as that number. *)
Lemma int_pattern_string_of_Z n : 0 <= n -> int_pattern (string_of_Z n) = Some n.
Proof.
  intros Hn. unfold string_of_Z. destruct n as [|p|p]; [reflexivity| |lia].
  simpl Z.to_int. simpl NilZero.string_of_int.
  rewrite (string_of_uint_nonnil _ (to_uint_nonnil p)).
  unfold int_pattern. rewrite read_sign_digits, read_digits_uint.
  destruct (digits_nonnil _ (to_uint_nonnil p)) as [k ->]. simpl.
  now rewrite DecimalPos.Unsigned.of_to.
Qed.

Lemma string_of_Z_nonempty n : 0 <= n -> string_of_Z n <> "".
Proof.
  intros Hn H. pose proof (int_pattern_string_of_Z n Hn) as E.
  rewrite H in E. discriminate.
Qed.

End NumberFacts.

(** ** Every answer of the routes *)

Section AnswerProperties.
Import Js Mongo Express Routes JsFacts MongoFacts RouteFacts IdFacts BodyFacts.
Import OwnerFacts Store StoreFacts IdentityFacts Text TrimFacts Titles.

Variable verifyToken : string -> option ObjectId.
Variable unauthenticated : string.

Local Abbreviation api := (api_tasks verifyToken unauthenticated).

(** The answers to a create call. *)
Lemma create_cases now a q p b d u :
  a ≫= verifyToken = Some u ->
  (exists es, api now POST_tasks (incoming a q p b) d
              = ({| status := 400; payload_of := PErrors es |}, d))
  \/ (exists s dsc,
        b !! "title" = Some (JStr s) /\ b !! "description" = JStr <$> dsc
        /\ trim s <> ""
        /\ api now POST_tasks (incoming a q p b) d
           = ({| status := 201; payload_of := PTask (new_task now d u s dsc) |},
              with_task d (new_task now d u s dsc))).
Proof.
  intros Hu.
  destruct (create_errors b) as [|e es] eqn:He.
  - right. unfold create_errors in He. apply app_eq_nil in He as [Ht Hd].
    destruct (b !! "title") as [x|] eqn:Hx; [|discriminate].
    destruct (title_errors_nil _ _ Ht) as (s & -> & Hs & _).
    apply description_errors_nil in Hd.
    assert (Hd' : exists dsc, b !! "description" = JStr <$> dsc).
    { destruct Hd as [-> | [s' ->]]; [now exists None|now exists (Some s')]. }
    destruct Hd' as [dsc Hd'].
    exists s, dsc. repeat split; try assumption.
    rewrite (create_outcome verifyToken unauthenticated now a q p b d u s dsc Hu Hx Hd').
    apply String.eqb_neq in Hs. now rewrite Hs.
  - left. unfold incoming.
    rewrite (api_create_eval _ _ _ _ _ _ _ _ _ _ u Hu). simpl.
    unfold create_task, handleValidation. simpl. rewrite He. eauto.
Qed.

(** The answers to a get call. *)
Lemma get_cases now a q p b d u id :
  a ≫= verifyToken = Some u ->
  (isMongoId id = false /\
   exists es, api now (GET_task id) (incoming a q p b) d
              = ({| status := 400; payload_of := PErrors es |}, d))
  \/ (is_hex24 id = true /\
      api now (GET_task id) (incoming a q p b) d = (not_found, d))
  \/ (isMongoId id = true /\ is_hex24 id = false /\
      api now (GET_task id) (incoming a q p b) d = (server_error, d))
  \/ (is_hex24 id = true /\
      exists t, api now (GET_task id) (incoming a q p b) d
                = ({| status := 200; payload_of := PTask t |}, d)).
Proof.
  intros Hu. destruct (isMongoId id) eqn:Hid.
  - destruct (is_hex24 id) eqn:H24.
    + rewrite (get_outcome verifyToken unauthenticated now a q p b d u id Hu H24).
      destruct (List.find _ _); eauto 6.
    + right. right. left. repeat split.
      now apply (id_route_cast_error verifyToken unauthenticated now a q p b d u id Hu Hid H24).
  - left. split; [reflexivity|].
    unfold incoming. rewrite (api_get_eval _ _ _ _ _ _ _ _ _ _ _ u Hu).
    unfold get_task, handleValidation. simpl.
    pose proof (id_errors_malformed id p Hid) as Hne.
    destruct (id_errors (<["id" := id]> p)); [congruence|eauto].
Qed.

(** The answers to a delete call. *)
Lemma delete_cases now a q p b d u id :
  a ≫= verifyToken = Some u ->
  (isMongoId id = false /\
   exists es, api now (DELETE_task id) (incoming a q p b) d
              = ({| status := 400; payload_of := PErrors es |}, d))
  \/ (is_hex24 id = true /\
      api now (DELETE_task id) (incoming a q p b) d = (not_found, d))
  \/ (isMongoId id = true /\ is_hex24 id = false /\
      api now (DELETE_task id) (incoming a q p b) d = (server_error, d))
  \/ (is_hex24 id = true /\
      exists d', api now (DELETE_task id) (incoming a q p b) d
                 = ({| status := 200; payload_of := PMessage "Task deleted" |}, d')).
Proof.
  intros Hu. destruct (isMongoId id) eqn:Hid.
  - destruct (is_hex24 id) eqn:H24.
    + rewrite (delete_outcome verifyToken unauthenticated now a q p b d u id Hu H24).
      destruct (remove_first _ _) as [[t|] l]; eauto 6.
    + right. right. left. repeat split.
      now apply (id_route_cast_error verifyToken unauthenticated now a q p b d u id Hu Hid H24).
  - left. split; [reflexivity|].
    unfold incoming. rewrite (api_delete_eval _ _ _ _ _ _ _ _ _ _ _ u Hu).
    unfold delete_task, handleValidation. simpl.
    pose proof (id_errors_malformed id p Hid) as Hne.
    destruct (id_errors (<["id" := id]> p)); [congruence|eauto].
Qed.

(** X7. Where the 500 of the catch branch comes from, for requests
    whose query parameters are given once and whose body fields are
    scalars.  A caller whose token does not resolve is answered 401.
    One whose token resolves is answered 200, 201, 400, 404 or 500, and
    500 comes from a cast that fails after validation has passed:
    - creating is never answered 500, the schema asking of a task no
      more than the specification says;
    - get and delete are answered 500 exactly for an identifier that
      [isMongoId] accepts and that is not 24 hexadecimal digits (one
      with the prefix [0x] or [0h]), and so is an update, if its body
      passes validation;
    - a list call is not answered 500 when its sort key is a single
      field name (or the default) and its page is at most 2^53, and it
      is answered 500 when its parameters pass validation and its sort
      key is empty, as for [sort=:asc]. *)
Theorem server_errors_come_from_casts now r a q p b d :
  let st := status (api now r (incoming a q p b) d).1 in
  match a ≫= verifyToken with
  | None => st = 401
  | Some _ =>
      (st = 200 \/ st = 201 \/ st = 400 \/ st = 404 \/ st = 500)
      /\ match r with
         | GET_tasks =>
             (Order.plain_sort (list_sort q) -> Paging.page_in_range q -> st <> 500)
             /\ (forall dir, list_errors q = [] -> list_sort q = [("", dir)] ->
                             st = 500)
         | POST_tasks => st <> 500
         | GET_task id | DELETE_task id =>
             st = 500 <-> isMongoId id = true /\ is_hex24 id = false
         | PUT_task id =>
             st = 500
             <-> isMongoId id = true /\ is_hex24 id = false /\ update_errors b = []
         end
  end.
Proof.
  intros st. subst st. destruct (a ≫= verifyToken) as [u|] eqn:Hu.
  2:{ now rewrite api_unauthenticated. }
  destruct r.
  - destruct (list_outcome verifyToken unauthenticated now a None q p b [] d u Hu)
      as [[He H] | [(He & Hs & H)
         | (He & Hs & pg & lim & ts & tot & _ & _ & _ & _ & _ & _ & H)]];
      unfold incoming; rewrite H; simpl in He |- *.
    + split; [auto|]. split; [discriminate|]. intros dir He'. congruence.
    + split; [auto 6|]. split; [|reflexivity].
      intros Hp. rewrite (ListFacts.plain_sort_ok _ Hp) in Hs. discriminate.
    + split; [auto|]. split; [discriminate|]. intros dir _ Hd.
      rewrite Hd in Hs. discriminate.
  - destruct (create_cases now a q p b d u Hu) as [[es H] | (s & dsc & _ & _ & _ & H)];
      rewrite H; simpl; split; auto; discriminate.
  - destruct (get_cases now a q p b d u id Hu)
      as [[Hi [es H]] | [[Hi H] | [(Hi & H24 & H) | [Hi [t H]]]]];
      rewrite H; simpl; (split; [auto 6|]); split; try discriminate; try tauto;
      intros [H1 H2]; congruence.
  - destruct (update_cases verifyToken unauthenticated now a q p b d u id Hu)
      as [[es H] | [H | [(Hi & H24 & Hb & H)
         | (Hb & H24 & pre & t & post & _ & _ & _ & H)]]];
      rewrite H; simpl; (split; [auto 6|]); split; try discriminate; try tauto.
    + intros (H1 & H2 & H3).
      destruct (id_route_cast_error verifyToken unauthenticated now a q p b d u id
                  Hu H1 H2) as (_ & _ & Hp).
      rewrite (Hp H3) in H. discriminate.
    + intros (H1 & H2 & H3).
      destruct (id_route_cast_error verifyToken unauthenticated now a q p b d u id
                  Hu H1 H2) as (_ & _ & Hp).
      rewrite (Hp H3) in H. discriminate.
    + intros (H1 & H2 & H3). congruence.
  - destruct (delete_cases now a q p b d u id Hu)
      as [[Hi [es H]] | [[Hi H] | [(Hi & H24 & H) | [Hi [d' H]]]]];
      rewrite H; simpl; (split; [auto 6|]); split; try discriminate; try tauto;
      intros [H1 H2]; congruence.
Qed.

Lemma clean_titles_app d t :
  clean_titles d -> title t <> "" -> trimmed (title t) ->
  clean_titles (with_task d t).
Proof.
  intros Hd H1 H2. unfold clean_titles, with_task. simpl.
  apply Forall_app. split; [exact Hd|]. repeat constructor; assumption.
Qed.

(** X8. No call stores a title that is empty or has whitespace around
    it: if the titles of the collection are clean before a call, they
    are clean after it, whatever the request. *)
Theorem titles_stay_clean now r a q p b d :
  clean_titles d -> clean_titles (api now r (incoming a q p b) d).2.
Proof.
  intros Hd. destruct (a ≫= verifyToken) as [u|] eqn:Hu.
  2:{ now rewrite api_unauthenticated. }
  destruct r.
  - destruct (collection_after verifyToken unauthenticated now GET_tasks
                a q p b d u Hu)
      as [-> | [(E & _) | [(id' & c & E & _) | (id' & E & _)]]];
      try discriminate. exact Hd.
  - destruct (create_cases now a q p b d u Hu) as [[es H] | (s & dsc & _ & _ & Hs & H)];
      rewrite H; simpl; [exact Hd|].
    apply clean_titles_app; [exact Hd|exact Hs|apply trim_idempotent].
  - destruct (collection_after verifyToken unauthenticated now (GET_task id)
                a q p b d u Hu)
      as [-> | [(E & _) | [(id' & c & E & _) | (id' & E & _)]]];
      try discriminate. exact Hd.
  - destruct (update_cases verifyToken unauthenticated now a q p b d u id Hu)
      as [[es H] | [H | [(_ & _ & _ & H)
         | (Hb & _ & pre & t & post & Hl & _ & _ & H)]]];
      rewrite H; simpl; try exact Hd.
    unfold clean_titles in *. simpl. rewrite Hl in Hd.
    apply Forall_app in Hd as [Hpre Hd]. apply Forall_cons in Hd as [Ht Hpost].
    apply Forall_app. split; [exact Hpre|]. apply Forall_cons. split; [|exact Hpost].
    unfold apply_update, body_update. simpl.
    unfold update_errors in Hb. apply app_eq_nil in Hb as [Hb _].
    destruct (b !! "title") as [x|]; simpl; [|exact Ht].
    destruct (title_errors_nil _ _ Hb) as (s & -> & Hs & _). simpl.
    split; [exact Hs|apply trim_idempotent].
  - unfold clean_titles in *. apply List.Forall_forall. intros x Hx.
    rewrite List.Forall_forall in Hd. apply Hd.
    destruct (collection_after verifyToken unauthenticated now (DELETE_task id)
                a q p b d u Hu)
      as [E | [(E & _) | [(id' & c & E & _) | (id' & _ & _ & E)]]];
      try discriminate; rewrite E in Hx; [exact Hx|]. simpl in Hx.
    destruct (remove_first _ (tasks d)) as [r0 l0] eqn:Er.
    exact (remove_first_elements _ _ _ _ Er x Hx).
Qed.

End AnswerProperties.

(** ** Listing: filter, order and pages *)

Module PagingFacts.
Import Js Mongo Express Routes JsFacts MongoFacts RouteFacts ListFacts.
Import Store Paging NumberFacts.










End PagingFacts.

Section PagingProperties.
Import Js Mongo Express Routes JsFacts MongoFacts RouteFacts ListFacts.
Import Store Paging NumberFacts PagingFacts.

Variable verifyToken : string -> option ObjectId.
Variable unauthenticated : string.

Local Abbreviation api := (api_tasks verifyToken unauthenticated).



(** X10. With a completion filter, every task of a returned page has
    the completion state asked for, and the filter value was one of the
    two accepted texts. *)
Theorem completion_filter_is_applied now a q p b d u c ts m d' :
  a ≫= verifyToken = Some u ->
  q !! "completed" = Some c ->
  api now GET_tasks (incoming a q p b) d
    = ({| status := 200; payload_of := PTasks ts m |}, d') ->
  (c = "true" \/ c = "false")
  /\ Forall (fun t => completed t = String.eqb c "true") ts.
Proof.
  intros Hu Hc Hr.
  destruct (list_outcome verifyToken unauthenticated now a None q p b [] d u Hu)
    as [[_ H] | [(_ & _ & H)
       | (He & _ & pg & lim & ts' & tot & _ & _ & _ & _ & _ & Hf & H)]];
    unfold incoming in Hr; rewrite H in Hr; try discriminate.
  injection Hr as <- _ _.
  simpl in He. unfold list_errors in He. apply app_eq_nil in He as [He _].
  rewrite Hc in He. simpl in He.
  assert (Hcc : c = "true" \/ c = "false").
  { destruct (String.eqb_spec c "true"); [now left|].
    destruct (String.eqb_spec c "false"); [now right|discriminate]. }
  split; [exact Hcc|].
  eapply Forall_impl; [exact (OwnerFacts.find_matches _ _ _ _ _ _ Hf)|].
  intros t Ht. simpl in Ht.
  eapply matches_completed; [|exact Ht].
  unfold list_filter. rewrite Hc, lookup_insert_eq.
  destruct Hcc as [-> | ->]; reflexivity.
Qed.

(** X11. Without a sort parameter, a returned page is in descending
    order of creation time: newest first. *)
Theorem default_order_is_newest_first now a q p b d u ts m d' :
  a ≫= verifyToken = Some u ->
  q !! "sort" = None ->
  api now GET_tasks (incoming a q p b) d
    = ({| status := 200; payload_of := PTasks ts m |}, d') ->
  descending_on "createdAt" ts
  /\ Sorted (fun x y => createdAt y <= createdAt x) ts.
Proof.
  intros Hu Hs Hr.
  destruct (list_outcome verifyToken unauthenticated now a None q p b [] d u Hu)
    as [[_ H] | [(_ & _ & H)
       | (_ & _ & pg & lim & ts' & tot & _ & Hlim & _ & _ & _ & Hf & H)]];
    unfold incoming in Hr; rewrite H in Hr; try discriminate.
  injection Hr as <- _ _.
  destruct (find_spec _ _ _ _ _ _ (proj1 Hlim) Hf) as (_ & _ & Hsorted & _).
  unfold list_sort in Hsorted. rewrite Hs in Hsorted.
  pose proof (sorted_descending _ _ Hsorted) as Hd.
  split; [exact Hd|].
  eapply Sorted_weaken; [|exact Hd]. intros x y. unfold get_path. simpl.
  intros Hc. destruct (createdAt x ?= createdAt y) eqn:E; try congruence.
  - apply Z.compare_eq in E. lia.
  - apply Z.compare_gt_iff in E. lia.
Qed.

(** X12. The router is mounted behind [auth] and every route runs
    [auth] again: the second run changes nothing, so the mounted router
    answers as the router alone. *)
Theorem second_auth_is_redundant now r req d :
  api now r req d = taskRoutes verifyToken unauthenticated now r req d.
Proof.
  unfold api_tasks. simpl. unfold auth at 1.
  destruct (authorization req ≫= verifyToken) as [u|] eqn:Hu.
  - destruct req as [a u0 q p b es]. simpl in *.
    unfold taskRoutes. destruct r; simpl; unfold auth, with_id; simpl; rewrite Hu; reflexivity.
  - destruct req as [a u0 q p b es]. simpl in *.
    unfold taskRoutes. destruct r; simpl; unfold auth, with_id; simpl; rewrite Hu; reflexivity.
Qed.

End PagingProperties.

(** ** The further properties on the sample collection *)

Section StoreExamples.
Import Js Mongo Express Routes Store Paging Titles Text.

Lemma db0_unique_ids : unique_ids Sample.db0.
Proof.
  split.
  - repeat constructor; simpl; intuition discriminate.
  - repeat constructor.
Qed.

Lemma other_users_tasks_untouched_witness :
  Sample.ann ≫= Sample.verifyToken <> Some 8%N
  /\ tasks_of_owner 8%N
       (Sample.api 0 (DELETE_task Sample.id2) (incoming Sample.ann ∅ ∅ ∅) Sample.db0).2
     = tasks_of_owner 8%N Sample.db0.
Proof.
  split; [discriminate|].
  refine (other_users_tasks_untouched Sample.verifyToken "Unauthorized" 0
            (DELETE_task Sample.id2) Sample.ann ∅ ∅ ∅ Sample.db0 8%N _).
  discriminate.
Defined.

Lemma deleted_task_is_gone_witness :
  Sample.ann ≫= Sample.verifyToken = Some 7%N
  /\ is_hex24 Sample.id1 = true
  /\ unique_ids Sample.db0
  /\ In Sample.milk (tasks Sample.db0)
  /\ _id Sample.milk = oid_of Sample.id1
  /\ owner Sample.milk = 7%N
  /\ exists pre post,
       tasks Sample.db0 = (pre ++ Sample.milk :: post)%list
       /\ Sample.api 10 (DELETE_task Sample.id1) (incoming Sample.ann ∅ ∅ ∅) Sample.db0
          = ({| status := 200; payload_of := PMessage "Task deleted" |},
             {| tasks := pre ++ post; next_id := next_id Sample.db0 |})
       /\ ~ In Sample.milk (pre ++ post)
       /\ Sample.api 20 (GET_task Sample.id1) (incoming Sample.ann ∅ ∅ ∅)
            {| tasks := pre ++ post; next_id := next_id Sample.db0 |}
          = (not_found, {| tasks := pre ++ post; next_id := next_id Sample.db0 |})
       /\ Sample.api 20 (DELETE_task Sample.id1) (incoming Sample.ann ∅ ∅ ∅)
            {| tasks := pre ++ post; next_id := next_id Sample.db0 |}
          = (not_found, {| tasks := pre ++ post; next_id := next_id Sample.db0 |}).
Proof.
  split; [reflexivity|]. split; [reflexivity|]. split; [exact db0_unique_ids|].
  split; [now left|]. split; [reflexivity|]. split; [reflexivity|].
  refine (deleted_task_is_gone Sample.verifyToken "Unauthorized" 10 20 Sample.ann
            ∅ ∅ ∅ ∅ ∅ ∅ Sample.db0 7%N Sample.id1 Sample.milk _ _ _ _ _ _);
    try reflexivity; [exact db0_unique_ids | now left].
Defined.

Lemma created_task_is_fetched_witness :
  Sample.ann ≫= Sample.verifyToken = Some 7%N
  /\ Sample.bob ≫= Sample.verifyToken = Some 8%N
  /\ Sample.milk_body !! "title" = Some (JStr "  buy milk ")
  /\ Sample.milk_body !! "description" = JStr <$> None
  /\ trim "  buy milk " <> ""
  /\ unique_ids Sample.db0
  /\ is_hex24 Sample.id4 = true
  /\ oid_of Sample.id4 = next_id Sample.db0
  /\ let t := new_task 50 Sample.db0 7%N "  buy milk " None in
     Sample.api 50 POST_tasks (incoming Sample.ann ∅ ∅ Sample.milk_body) Sample.db0
       = ({| status := 201; payload_of := PTask t |}, with_task Sample.db0 t)
     /\ Sample.api 60 (GET_task Sample.id4) (incoming Sample.bob ∅ ∅ ∅)
          (with_task Sample.db0 t)
        = (if decide (8%N = 7%N) then {| status := 200; payload_of := PTask t |}
           else not_found, with_task Sample.db0 t).
Proof.
  split; [reflexivity|]. split; [reflexivity|]. split; [reflexivity|].
  split; [reflexivity|]. split; [vm_compute; discriminate|].
  split; [exact db0_unique_ids|]. split; [reflexivity|]. split; [reflexivity|].
  refine (created_task_is_fetched Sample.verifyToken "Unauthorized" 50 60
            Sample.ann Sample.bob ∅ ∅ ∅ ∅ Sample.milk_body ∅ Sample.db0 7%N 8%N
            "  buy milk " None Sample.id4 _ _ _ _ _ _ _ _);
    try reflexivity; [vm_compute; discriminate | exact db0_unique_ids].
Defined.

Lemma updated_task_is_fetched_witness :
  Sample.ann ≫= Sample.verifyToken = Some 7%N
  /\ Sample.api 0 (PUT_task Sample.id1) (incoming Sample.ann ∅ ∅ Sample.done) Sample.db0
     = ({| status := 200; payload_of := PTask Sample.milk_done |},
        {| tasks := [Sample.milk_done; Sample.rent; Sample.call_mum];
           next_id := 4%N |})
  /\ Sample.api 5 (GET_task Sample.id1) (incoming Sample.ann ∅ ∅ ∅)
       {| tasks := [Sample.milk_done; Sample.rent; Sample.call_mum]; next_id := 4%N |}
     = ({| status := 200; payload_of := PTask Sample.milk_done |},
        {| tasks := [Sample.milk_done; Sample.rent; Sample.call_mum];
           next_id := 4%N |}).
Proof.
  split; [reflexivity|]. split; [reflexivity|].
  refine (updated_task_is_fetched Sample.verifyToken "Unauthorized" 0 5 Sample.ann
            ∅ ∅ ∅ ∅ Sample.done ∅ Sample.db0 7%N Sample.id1 Sample.milk_done
            {| tasks := [Sample.milk_done; Sample.rent; Sample.call_mum];
               next_id := 4%N |} _ _); reflexivity.
Defined.

Lemma toggle_twice_restores_witness :
  Sample.ann ≫= Sample.verifyToken = Some 7%N
  /\ Sample.api 0 (GET_task Sample.id1) (incoming Sample.ann ∅ ∅ ∅) Sample.db0
     = ({| status := 200; payload_of := PTask Sample.milk |}, Sample.db0)
  /\ exists t1 d1,
       Sample.api 1 (PUT_task Sample.id1)
         (incoming Sample.ann ∅ ∅ {[ "completed" := JBool (negb (completed Sample.milk)) ]})
         Sample.db0
       = ({| status := 200; payload_of := PTask t1 |}, d1)
       /\ completed t1 = negb (completed Sample.milk)
       /\ Sample.api 2 (PUT_task Sample.id1)
            (incoming Sample.ann ∅ ∅ {[ "completed" := JBool (negb (completed t1)) ]}) d1
          = ({| status := 200; payload_of := PTask Sample.milk |}, Sample.db0).
Proof.
  split; [reflexivity|]. split; [reflexivity|].
  refine (toggle_twice_restores Sample.verifyToken "Unauthorized" 0 1 2 Sample.ann
            ∅ ∅ ∅ Sample.db0 7%N Sample.id1 Sample.milk _ _); reflexivity.
Defined.

Lemma db0_clean_titles : clean_titles Sample.db0.
Proof. repeat constructor; discriminate. Qed.

Lemma titles_stay_clean_witness :
  clean_titles Sample.db0
  /\ clean_titles
       (Sample.api 0 (PUT_task Sample.id1)
          (incoming Sample.ann ∅ ∅ {[ "title" := JStr "  buy oat milk  " ]})
          Sample.db0).2.
Proof.
  split; [exact db0_clean_titles|].
  refine (titles_stay_clean Sample.verifyToken "Unauthorized" 0 (PUT_task Sample.id1)
            Sample.ann ∅ ∅ {[ "title" := JStr "  buy oat milk  " ]} Sample.db0 _).
  exact db0_clean_titles.
Defined.


Lemma completion_filter_is_applied_witness :
  Sample.bob ≫= Sample.verifyToken = Some 8%N
  /\ Sample.completed_query !! "completed" = Some "true"
  /\ Sample.api 0 GET_tasks (incoming Sample.bob Sample.completed_query ∅ ∅) Sample.db0
     = ({| status := 200;
           payload_of := PTasks [Sample.rent]
                           {| total := 1; page := 1; limit := 10; pages := 1 |} |},
        Sample.db0)
  /\ ("true" = "true" \/ "true" = "false")
  /\ Forall (fun t => completed t = String.eqb "true" "true") [Sample.rent].
Proof.
  split; [reflexivity|]. split; [reflexivity|]. split; [reflexivity|].
  refine (completion_filter_is_applied Sample.verifyToken "Unauthorized" 0 Sample.bob
            Sample.completed_query ∅ ∅ Sample.db0 8%N "true" [Sample.rent]
            {| total := 1; page := 1; limit := 10; pages := 1 |} Sample.db0 _ _ _);
    reflexivity.
Defined.

Lemma default_order_is_newest_first_witness :
  Sample.ann ≫= Sample.verifyToken = Some 7%N
  /\ (∅ : gmap string string) !! "sort" = None
  /\ Sample.api 0 GET_tasks (incoming Sample.ann ∅ ∅ ∅) Sample.db0
     = ({| status := 200;
           payload_of := PTasks [Sample.call_mum; Sample.milk]
                           {| total := 2; page := 1; limit := 10; pages := 1 |} |},
        Sample.db0)
  /\ descending_on "createdAt" [Sample.call_mum; Sample.milk]
  /\ Sorted (fun x y => createdAt y <= createdAt x) [Sample.call_mum; Sample.milk].
Proof.
  split; [reflexivity|]. split; [reflexivity|]. split; [reflexivity|].
  refine (default_order_is_newest_first Sample.verifyToken "Unauthorized" 0 Sample.ann
            ∅ ∅ ∅ Sample.db0 7%N [Sample.call_mum; Sample.milk]
            {| total := 2; page := 1; limit := 10; pages := 1 |} Sample.db0 _ _ _);
    reflexivity.
Defined.

End StoreExamples.

(** ** The toolbar and the query it sends *)

Module UiFacts.
Import Js Express Routes Ui Url JsFacts NumberFacts TrimFacts.

Lemma digits_of_uint d : string_forallb is_digit (NilEmpty.string_of_uint d) = true.
Proof. induction d; simpl; [reflexivity|..]; exact IHd. Qed.

(** The decimal text of a natural number is made of digits. *)
Lemma digits_of_Z n : 0 <= n -> string_forallb is_digit (string_of_Z n) = true.
Proof.
  intros Hn. unfold string_of_Z. destruct n as [|p|p]; [reflexivity| |lia].
  simpl. rewrite (string_of_uint_nonnil _ (to_uint_nonnil p)). apply digits_of_uint.
Qed.

Lemma split_digits s rest :
  string_forallb is_digit s = true ->
  split "&" (s ++ String "&" rest)%string = s :: split "&" rest.
Proof.
  induction s as [|c s IH]; intros H.
  - reflexivity.
  - simpl in H. apply andb_true_iff in H as [Hc Hs].
    rewrite append_cons. simpl split.
    assert (Hne : Ascii.eqb c "&" = false).
    { destruct (Ascii.eqb_spec c "&") as [->|]; [discriminate Hc|reflexivity]. }
    rewrite Hne, (IH Hs). reflexivity.
Qed.

Lemma forallb_append p s t :
  string_forallb p (s ++ t)%string = string_forallb p s && string_forallb p t.
Proof.
  induction s as [|c s IH]; [reflexivity|].
  rewrite append_cons. simpl. now rewrite IH, andb_assoc.
Qed.

Lemma digit_no_amp s : string_forallb is_digit s = true -> string_forallb no_amp s = true.
Proof.
  induction s as [|c s IH]; simpl; [reflexivity|].
  intros H. apply andb_true_iff in H as [Hc Hs]. rewrite (IH Hs), andb_true_r.
  unfold no_amp. destruct (Ascii.eqb_spec c "&") as [->|]; [discriminate Hc|reflexivity].
Qed.

Lemma split_amp s rest :
  string_forallb no_amp s = true ->
  split "&" (s ++ String "&" rest)%string = s :: split "&" rest.
Proof.
  induction s as [|c s IH]; intros H; [reflexivity|].
  simpl in H. apply andb_true_iff in H as [Hc Hs].
  rewrite append_cons. simpl split.
  unfold no_amp in Hc. apply negb_true_iff in Hc. rewrite Hc, (IH Hs). reflexivity.
Qed.

(** The query string of the toolbar, read by the server: the page is
    the text of the page number, the rest is as the tail says. *)
Lemma parse_page_first P tail :
  string_forallb is_digit P = true ->
  parse_query ("?page=" ++ P ++ String "&" tail)%string
  = <["page" := P]> (list_to_map (map parse_pair (split "&" tail))).
Proof.
  intros HP. unfold parse_query.
  change ("?page=" ++ P ++ String "&" tail)%string
    with (String "?" (("page=" ++ P) ++ String "&" tail))%string.
  cbv beta iota. rewrite split_amp.
  - simpl map. simpl list_to_map. reflexivity.
  - rewrite forallb_append, (digit_no_amp _ HP). reflexivity.
Qed.

Lemma offered_step c a : offered c -> offered (step c a).
Proof.
  intros (Hf & Ho & Hp & Hl). unfold offered.
  destruct a as [o|o|o| |]; simpl; repeat split; try assumption; try lia.
  - destruct o; auto.
  - destruct o; auto.
  - destruct o; auto.
  - destruct (to_number_bound (page c + 1) 1 ltac:(now vm_compute)) as [E _].
    apply Z.leb_le. rewrite E. apply Z.leb_le. lia.
Qed.

(** A page number is a Number: the Next button stops counting at 2^53. *)
Lemma page_bound_step c a :
  1 <= page c <= 2 ^ 53 -> 1 <= page (step c a) <= 2 ^ 53.
Proof.
  assert (H53 : 2 ^ 53 = 9007199254740992) by reflexivity.
  intros Hp. destruct a as [o|o|o| |]; simpl; try lia.
  destruct (Z.eq_dec (page c) (2 ^ 53)) as [E|E].
  - rewrite E. now vm_compute.
  - rewrite to_number_small; rewrite ?Z.abs_eq; lia.
Qed.

Lemma page_bound_fold l : forall c,
  1 <= page c <= 2 ^ 53 -> 1 <= page (fold_left step l c) <= 2 ^ 53.
Proof.
  induction l as [|a l IH]; intros c Hc; [exact Hc|].
  simpl. apply IH. now apply page_bound_step.
Qed.

Lemma offered_fold l : forall c, offered c -> offered (fold_left step l c).
Proof.
  induction l as [|a l IH]; intros c Hc; [exact Hc|].
  simpl. apply IH. now apply offered_step.
Qed.

Lemma fetch_query_shape (c : controls) :
  fetch_query c
  = ("?page=" ++ string_of_Z (page c)
     ++ String "&" ("limit=" ++ string_of_Z (limit c) ++ "&sort=createdAt:" ++ sortOrder c
                    ++ (if String.eqb (completedFilter c) "all" then ""
                        else "&completed=" ++ completedFilter c)))%string.
Proof.
  unfold fetch_query. cbv zeta.
  destruct (String.eqb (completedFilter c) "all").
  - now rewrite TrimFacts.append_nil_r.
  - rewrite !TrimFacts.append_assoc. reflexivity.
Qed.

End UiFacts.

Section UiProperties.
Import Js Express Routes Ui Url JsFacts NumberFacts TrimFacts UiFacts.

(** X13. Whatever the user does in the toolbar, it only ever holds what
    its options offer and a page number of at least 1; choosing a filter
    or a page size goes back to page 1. *)
Theorem toolbar_keeps_to_its_options (l : list action) :
  offered (after l)
  /\ (forall o, page (step (after l) (ChooseFilter o)) = 1)
  /\ (forall o, page (step (after l) (ChooseSize o)) = 1)
  /\ 1 <= page (step (after l) Prev) <= page (after l).
Proof.
  assert (H : offered (after l)).
  { apply offered_fold. unfold offered, initial. simpl. repeat split; auto; lia. }
  split; [exact H|]. destruct H as (_ & _ & Hp & _).
  repeat split; simpl; lia.
Qed.

(** X14. The query that the client sends for any state its toolbar can
    reach passes the validation of the list route, and the server reads
    from it the page, the page size, the order and the filter that the
    toolbar holds. *)
Theorem sent_query_is_accepted (l : list action) :
  let c := after l in
  let q := parse_query (fetch_query c) in
  list_errors q = []
  /\ list_page q = Some (page c)
  /\ list_limit q = Some (limit c)
  /\ list_sort q = [("createdAt", if String.eqb (sortOrder c) "asc" then 1 else -1)]
  /\ q !! "completed"
     = (if String.eqb (completedFilter c) "all" then None else Some (completedFilter c)).
Proof.
  intros c q. subst q.
  assert (H : offered c) by (apply offered_fold; unfold offered, initial; simpl;
                              repeat split; auto; lia).
  assert (Hb : 1 <= page c <= 2 ^ 53).
  { apply page_bound_fold. now vm_compute. }
  destruct c as [f o pg lim]. destruct H as (Hf & Ho & Hp & Hl). simpl in *.
  rewrite fetch_query_shape. cbn [page limit sortOrder completedFilter].
  pose proof (digits_of_Z pg ltac:(lia)) as HP.
  pose proof (int_pattern_string_of_Z pg ltac:(lia)) as HI.
  pose proof (string_of_Z_nonempty pg ltac:(lia)) as HN.
  remember (string_of_Z pg) as P eqn:EP. clear EP.
  assert (Hpage : forall M : gmap string string,
            list_page (<["page" := P]> M) = Some pg).
  { intros M. unfold list_page. rewrite lookup_insert_eq.
    assert (Hs : or_default (Some P) "1" = P).
    { destruct P; [exfalso; now apply HN | reflexivity]. }
    rewrite Hs, (int_pattern_parseInt _ _ HI). simpl. f_equal.
    rewrite to_number_small; rewrite ?Z.abs_eq; lia. }
  assert (Herr : forall M : gmap string string,
            list_errors M = [] -> list_errors (<["page" := P]> M) = []).
  { intros M. unfold list_errors. intros H.
    apply app_eq_nil in H as [Hc H]. apply app_eq_nil in H as [_ Hli].
    rewrite (lookup_insert_ne _ "page" "completed") by done.
    rewrite (lookup_insert_ne _ "page" "limit") by done.
    rewrite lookup_insert_eq, Hc, Hli. simpl.
    unfold isInt. rewrite HI. unfold in_range. simpl.
    rewrite to_number_small by (rewrite Z.abs_eq; lia).
    destruct (Z.leb_spec 1 pg); [reflexivity|lia]. }
  destruct Hf as [-> | [-> | ->]], Ho as [-> | ->], Hl as [-> | [-> | ->]].
  all: rewrite (parse_page_first P _ HP).
  all: (split; [apply Herr; reflexivity|]);
       (split; [apply Hpage|]);
       (split; [unfold list_limit; rewrite (lookup_insert_ne _ "page" "limit") by done;
                reflexivity|]);
       (split; [unfold list_sort; rewrite (lookup_insert_ne _ "page" "sort") by done;
                reflexivity|]);
       rewrite (lookup_insert_ne _ "page" "completed") by done; reflexivity.
Qed.

End UiProperties.

(** ** The router of the client *)

Section RouterProperties.
Import Client.

(** X15. Whatever the location and the state, the router of [App] settles
    in one step, changes nothing but the location, never stays at the
    root, shows the task view only to a client that holds a token, and
    shows the login and registration forms only to one that holds none. *)
Theorem router_guards_the_views (s : state) :
  let s' := navigate s in
  navigate s' = s'
  /\ setPath (path s) s' = s
  /\ path s' <> "/"
  /\ (path s' = "/tasks" -> has_token s = true)
  /\ (path s' = "/login" \/ path s' = "/register" -> has_token s = false).
Proof.
  cbv zeta. destruct s as [tk us st p lu ts ld ti de er ei et ed].
  unfold navigate, has_token, setPath. cbn [path token].
  destruct (String.eqb_spec p "/") as [-> | H0].
  { destruct tk as [t|]; [destruct (String.eqb t "") eqn:E|]; cbn; rewrite ?E; cbn; repeat split;
      try reflexivity; try discriminate; try tauto;
      try (intros [H|H]; discriminate). }
  destruct (String.eqb_spec p "/login") as [-> | H1].
  { destruct tk as [t|]; [destruct (String.eqb t "") eqn:E|]; cbn; rewrite ?E; cbn; repeat split;
      try reflexivity; try discriminate; try tauto;
      try (intros [H|H]; discriminate). }
  destruct (String.eqb_spec p "/register") as [-> | H2].
  { destruct tk as [t|]; [destruct (String.eqb t "") eqn:E|]; cbn; rewrite ?E; cbn; repeat split;
      try reflexivity; try discriminate; try tauto;
      try (intros [H|H]; discriminate). }
  destruct (String.eqb_spec p "/tasks") as [-> | H3].
  { destruct tk as [t|]; [destruct (String.eqb t "") eqn:E|]; cbn; rewrite ?E; cbn; repeat split;
      try reflexivity; try discriminate; try tauto;
      try (intros [H|H]; discriminate). }
  cbn. unfold has_token; cbn.
  destruct (String.eqb_spec p "/") as [E|_]; [contradiction|].
  destruct (String.eqb_spec p "/login") as [E|_]; [contradiction|].
  destruct (String.eqb_spec p "/register") as [E|_]; [contradiction|].
  destruct (String.eqb_spec p "/tasks") as [E|_]; [contradiction|].
  cbn. repeat split; try assumption; try contradiction.
  intros [E|E]; contradiction.
Qed.

End RouterProperties.

(** ** The client and the server together *)

Module SessionFacts.
Import Js Mongo Express Routes Session.

Lemma hex_digit_val n :
  (n < 16)%N -> hex_val (hex_digit n) = n /\ is_hex (hex_digit n) = true.
Proof.
  intros H.
  rewrite <- (N2Nat.id n). assert (Hm : (N.to_nat n < 16)%nat) by lia.
  clear H. revert Hm. generalize (N.to_nat n). intros m Hm.
  do 16 (destruct m as [|m]; [now vm_compute|]). lia.
Qed.

Lemma hex_digits_value k : forall n acc a,
  hex_to_N (hex_digits k n acc) a = hex_to_N acc (16 ^ N.of_nat k * a + n mod 16 ^ N.of_nat k)%N.
Proof.
  induction k as [|k IH]; intros n acc a.
  - simpl. f_equal. rewrite N.mod_1_r. lia.
  - cbn [hex_digits]. rewrite IH. cbn [hex_to_N].
    destruct (hex_digit_val (n mod 16)%N) as [-> _]; [apply N.mod_lt; lia|].
    f_equal. rewrite Nat2N.inj_succ, N.pow_succ_r'.
    rewrite (N.Div0.mod_mul_r n 16 (16 ^ N.of_nat k)). lia.
Qed.

Lemma hex_digits_length k : forall n acc,
  String.length (hex_digits k n acc) = (k + String.length acc)%nat.
Proof.
  induction k as [|k IH]; intros n acc; [reflexivity|].
  cbn [hex_digits]. rewrite IH. simpl. lia.
Qed.

Lemma hex_digits_hex k : forall n acc,
  string_forallb is_hex acc = true ->
  string_forallb is_hex (hex_digits k n acc) = true.
Proof.
  induction k as [|k IH]; intros n acc H; [exact H|].
  cbn [hex_digits]. apply IH. cbn [string_forallb].
  destruct (hex_digit_val (n mod 16)%N) as [_ ->]; [apply N.mod_lt; lia|exact H].
Qed.

(** The identifier the client sends is the one the server reads. *)
Lemma toHexString_round_trip i :
  (i < 16 ^ 24)%N -> is_hex24 (toHexString i) = true /\ oid_of (toHexString i) = i.
Proof.
  intros H. unfold is_hex24, oid_of, toHexString. split.
  - rewrite hex_digits_length, hex_digits_hex by reflexivity. reflexivity.
  - rewrite hex_digits_value. cbn [hex_to_N].
    change (N.of_nat 24) with 24%N. rewrite N.mod_small by exact H. lia.
Qed.


End SessionFacts.

Section SessionProperties.
Import Js Mongo Express Routes Client Session SessionFacts.
Import Store Text Paging Ui Url.

Variable verifyToken : string -> option ObjectId.
Variable unauthenticated : string.
Variable now : Z.

Local Abbreviation api := (api_tasks verifyToken unauthenticated).


Lemma bearer_startEdit t s : bearer (startEdit t s) = bearer s.
Proof. reflexivity. Qed.

(** A displayed task of the caller, found by the identifier the client
    sends. *)
Lemma displayed_task_split (d : db) (u : ObjectId) (t : task) (p : gmap string string) :
  unique_ids d -> In t (Mongo.tasks d) -> owner t = u -> (_id t < 16 ^ 24)%N ->
  is_hex24 (toHexString (_id t)) = true
  /\ exists pre post,
       Mongo.tasks d = (pre ++ t :: post)%list
       /\ Forall (fun x => matches (id_filter u (<["id" := toHexString (_id t)]> p)) x = false) pre
       /\ matches (id_filter u (<["id" := toHexString (_id t)]> p)) t = true.
Proof.
  intros [Hnd _] Hin Ho Hlt.
  destruct (toHexString_round_trip (_id t) Hlt) as [Hid Hoid].
  split; [exact Hid|].
  destruct (IdentityFacts.owned_task_split u (toHexString (_id t)) p (Mongo.tasks d) t
              Hid Hnd Hin (eq_sym Hoid) Ho) as (pre & post & Hl & Hpre & Ht & _).
  exists pre, post. auto.
Qed.

(** X17. Opening a task of one's own for editing and saving it
    untouched changes nothing on the server, provided its title is not
    blank and has no whitespace around it; the client leaves the
    editing mode and fetches the list again. *)
Theorem unedited_save_changes_nothing s d u t :
  bearer s ≫= verifyToken = Some u ->
  unique_ids d -> In t (Mongo.tasks d) -> owner t = u -> (_id t < 16 ^ 24)%N ->
  Mongo.title t <> "" -> trimmed (Mongo.title t) ->
  saveEdit verifyToken unauthenticated now t (startEdit t s) d
  = Some (cancelEdit s, [FetchTasks], d).
Proof.
  intros Hu Hd Hin Ho Hlt Hne Htr.
  destruct (displayed_task_split d u t ∅ Hd Hin Ho Hlt)
    as (Hid & pre & post & Hl & Hpre & Ht).
  unfold saveEdit, exchange, sent. rewrite bearer_startEdit. cbn [parse_query].
  cbn [editTitle editDescription startEdit].
  set (b := ({[ "title" := JStr (Mongo.title t); "description" := JStr (Mongo.description t) ]}
             : gmap string json)).
  assert (Hbt : b !! "title" = Some (JStr (Mongo.title t))) by reflexivity.
  assert (Hbd : b !! "description" = Some (JStr (Mongo.description t))) by reflexivity.
  assert (Hbc : b !! "completed" = None) by reflexivity.
  assert (Hb : update_errors b = []).
  { unfold update_errors, title_errors, title_value. rewrite Hbt, Hbd, Hbc. simpl.
    unfold trimmed in Htr. rewrite Htr.
    destruct (Mongo.title t); [congruence|reflexivity]. }
  rewrite (update_outcome verifyToken unauthenticated now (bearer s) ∅ ∅ b d u _ Hu Hid Hb).
  rewrite Hl, (IdFacts.update_first_at _ _ _ _ _ Hpre Ht).
  assert (Hsame : apply_update (body_update b) t = t).
  { unfold apply_update, body_update. rewrite Hbt, Hbd, Hbc. simpl.
    unfold trimmed in Htr. rewrite Htr. now destruct t. }
  rewrite Hsame. cbn. rewrite <- Hl. now destruct d.
Qed.


(** X19. The buttons of a displayed task of one's own reach that task
    and no other: the checkbox flips its completion flag in place,
    the bin removes it once the user has confirmed, and sends nothing
    when the user declines; after either change the list is fetched
    again. *)
Theorem task_buttons_reach_their_task s d u t :
  bearer s ≫= verifyToken = Some u ->
  unique_ids d -> In t (Mongo.tasks d) -> owner t = u -> (_id t < 16 ^ 24)%N ->
  exists pre post,
    Mongo.tasks d = (pre ++ t :: post)%list
    /\ toggleComplete verifyToken unauthenticated now t s d
       = Some (s, [FetchTasks],
               {| Mongo.tasks := pre ++ toggled t :: post; next_id := next_id d |})
    /\ removeTask verifyToken unauthenticated now true t s d
       = Some (s, [FetchTasks], {| Mongo.tasks := pre ++ post; next_id := next_id d |})
    /\ removeTask verifyToken unauthenticated now false t s d = Some (s, [], d).
Proof.
  intros Hu Hd Hin Ho Hlt.
  destruct (displayed_task_split d u t ∅ Hd Hin Ho Hlt)
    as (Hid & pre & post & Hl & Hpre & Ht).
  exists pre, post. split; [exact Hl|]. split; [|split].
  - unfold toggleComplete, exchange, sent. cbn [parse_query].
    set (b := ({[ "completed" := JBool (negb (completed t)) ]} : gmap string json)).
    assert (Hb : update_errors b = []) by (unfold b; destruct (completed t); reflexivity).
    rewrite (update_outcome verifyToken unauthenticated now (bearer s) ∅ ∅ b d u _ Hu Hid Hb).
    rewrite Hl, (IdFacts.update_first_at _ _ _ _ _ Hpre Ht).
    assert (Hsame : apply_update (body_update b) t = toggled t).
    { unfold b. destruct t as [i ti de [] o ca]; reflexivity. }
    rewrite Hsame. reflexivity.
  - unfold removeTask, exchange, sent. cbn [parse_query].
    rewrite (delete_outcome verifyToken unauthenticated now (bearer s) ∅ ∅ ∅ d u _ Hu Hid).
    rewrite Hl, (IdFacts.remove_first_at _ _ _ _ Hpre Ht). reflexivity.
  - reflexivity.
Qed.

End SessionProperties.

(** ** The session of the examples *)

Section SessionExamples.
Import Js Mongo Express Routes Session Store Text Paging.


(** What the form does with a padded title and with a title of
    Unicode spaces. *)
Example create_form_on_samples :
  createTask SampleSession.verifyToken "Unauthorized" 5000 SampleSession.typing Sample.db0
  = Some (Client.setDescription ""
            (Client.setTitle "" (Client.setError None SampleSession.typing)),
          [Client.FetchTasks],
          {| tasks := tasks Sample.db0
                      ++ [{| _id := 4%N; title := "buy oat milk";
                             description := "two litres"; completed := false;
                             owner := 7%N; createdAt := 5000 |}];
             next_id := 5%N |})
  /\ createTask SampleSession.verifyToken "Unauthorized" 5000
       (Client.setTitle Sample.blank_title Sample.logged_in) Sample.db0
     = Some (Client.setError (Some "title is required")
               (Client.setTitle Sample.blank_title Sample.logged_in), [], Sample.db0).
Proof. split; vm_compute; reflexivity. Qed.

Lemma unedited_save_changes_nothing_witness :
  bearer Sample.logged_in ≫= SampleSession.verifyToken = Some 7%N
  /\ unique_ids Sample.db0
  /\ In Sample.milk (tasks Sample.db0)
  /\ owner Sample.milk = 7%N
  /\ (_id Sample.milk < 16 ^ 24)%N
  /\ title Sample.milk <> ""
  /\ trimmed (title Sample.milk)
  /\ saveEdit SampleSession.verifyToken "Unauthorized" 5000 Sample.milk
       (startEdit Sample.milk Sample.logged_in) Sample.db0
     = Some (Client.cancelEdit Sample.logged_in, [Client.FetchTasks], Sample.db0).
Proof.
  split; [reflexivity|]. split; [exact db0_unique_ids|]. split; [now left|].
  split; [reflexivity|]. split; [reflexivity|]. split; [discriminate|].
  split; [reflexivity|].
  refine (unedited_save_changes_nothing SampleSession.verifyToken "Unauthorized" 5000
            Sample.logged_in Sample.db0 7%N Sample.milk _ _ _ _ _ _ _);
    try reflexivity; [exact db0_unique_ids | now left | discriminate].
Defined.


Lemma task_buttons_reach_their_task_witness :
  bearer Sample.logged_in ≫= SampleSession.verifyToken = Some 7%N
  /\ unique_ids Sample.db0
  /\ In Sample.call_mum (tasks Sample.db0)
  /\ owner Sample.call_mum = 7%N
  /\ (_id Sample.call_mum < 16 ^ 24)%N
  /\ exists pre post,
       tasks Sample.db0 = (pre ++ Sample.call_mum :: post)%list
       /\ toggleComplete SampleSession.verifyToken "Unauthorized" 5000 Sample.call_mum
            Sample.logged_in Sample.db0
          = Some (Sample.logged_in, [Client.FetchTasks],
                  {| tasks := pre ++ toggled Sample.call_mum :: post;
                     next_id := next_id Sample.db0 |})
       /\ removeTask SampleSession.verifyToken "Unauthorized" 5000 true Sample.call_mum
            Sample.logged_in Sample.db0
          = Some (Sample.logged_in, [Client.FetchTasks],
                  {| tasks := pre ++ post; next_id := next_id Sample.db0 |})
       /\ removeTask SampleSession.verifyToken "Unauthorized" 5000 false Sample.call_mum
            Sample.logged_in Sample.db0
          = Some (Sample.logged_in, [], Sample.db0).
Proof.
  split; [reflexivity|]. split; [exact db0_unique_ids|].
  split; [right; right; now left|]. split; [reflexivity|]. split; [reflexivity|].
  refine (task_buttons_reach_their_task SampleSession.verifyToken "Unauthorized" 5000
            Sample.logged_in Sample.db0 7%N Sample.call_mum _ _ _ _ _);
    try reflexivity; [exact db0_unique_ids | right; right; now left].
Defined.

End SessionExamples.

(** ** The login and registration form *)

Module FormFacts.
Import Js Text Form TrimFacts.

Lemma many1_spec p k s :
  many1 p k s = true
  <-> exists w s', s = (w ++ s')%list /\ w <> [] /\ forallb p w = true
                   /\ k s' = true.
Proof.
  induction s as [|a s IH]; simpl.
  - split; [discriminate|]. intros (w & s' & E & Hw & _).
    symmetry in E. apply app_eq_nil in E as [-> _]. congruence.
  - rewrite andb_true_iff, orb_true_iff, IH. split.
    + intros [Ha [Hk | (w & s' & -> & Hw & Hp & Hk)]].
      * exists [a], s. simpl. rewrite Ha. auto.
      * exists (a :: w), s'. simpl. rewrite Ha, Hp. repeat split; auto; discriminate.
    + intros (w & s' & E & Hw & Hp & Hk). destruct w as [|b w]; [congruence|].
      simpl in E, Hp. injection E as <- ->. apply andb_true_iff in Hp as [Ha Hp].
      split; [exact Ha|]. destruct w as [|c w].
      * left. exact Hk.
      * right. exists (c :: w), s'. repeat split; auto; discriminate.
Qed.

Lemma match_here_spec pat : forall s,
  match_here pat s = true <-> exists m rest, s = (m ++ rest)%list /\ denotes pat m.
Proof.
  induction pat as [|[c|p] pat IH]; intros s; simpl.
  - split; [|reflexivity]. intros _. exists [], s. auto.
  - destruct s as [|a s].
    + split; [discriminate|]. intros (m & rest & E & m' & -> & _). discriminate.
    + rewrite andb_true_iff, IH. split.
      * intros [Ha (m & rest & -> & Hm)]. apply String.eqb_eq in Ha as ->.
        exists (String c "" :: m), rest. split; [reflexivity|]. eauto.
      * intros (m & rest & E & m' & -> & Hm). simpl in E. injection E as -> ->.
        split; [apply String.eqb_refl|]. eauto.
  - rewrite many1_spec. split.
    + intros (w & s' & -> & Hw & Hp & Hk). apply IH in Hk as (m & rest & -> & Hm).
      exists (w ++ m)%list, rest. rewrite <- app_assoc. split; [reflexivity|].
      exists w, m. auto.
    + intros (m & rest & -> & w & m' & -> & Hw & Hp & Hm).
      exists w, (m' ++ rest)%list. rewrite <- app_assoc. repeat split; auto.
      apply IH. eauto.
Qed.

Lemma match_somewhere_spec pat s :
  match_somewhere pat s = true
  <-> exists a m b, s = (a ++ m ++ b)%list /\ denotes pat m.
Proof.
  induction s as [|c s IH]; simpl; rewrite orb_true_iff, match_here_spec.
  - split.
    + intros [(m & rest & E & Hm) | H]; [|discriminate]. exists [], m, rest. auto.
    + intros (a & m & b & E & Hm). left. destruct a; [|discriminate].
      exists m, b. split; [exact E|exact Hm].
  - rewrite IH. split.
    + intros [(m & rest & E & Hm) | (a & m & b & -> & Hm)].
      * exists [], m, rest. auto.
      * exists (c :: a), m, b. auto.
    + intros (a & m & b & E & Hm). destruct a as [|c' a].
      * left. exists m, b. split; [exact E|exact Hm].
      * right. simpl in E. injection E as -> ->. exists a, m, b. auto.
Qed.

(** What the pattern of the form looks for. *)
Lemma email_format_spec s : test email_format s = true <-> has_address s.
Proof.
  unfold test. rewrite match_somewhere_spec.
  unfold has_address, word, email_format. simpl. split.
  - intros (a & m & b & E & x & m1 & -> & Hx & Hpx & m2 & -> & y & m3 & -> & Hy & Hpy
            & m4 & -> & z & m5 & -> & Hz & Hpz & ->).
    exists a, x, y, z, b. repeat split; auto.
    rewrite E, app_nil_r. simpl. repeat (rewrite <- app_assoc; simpl). reflexivity.
  - intros (a & x & y & z & b & E & [Hx Hpx] & [Hy Hpy] & [Hz Hpz]).
    exists a, (x ++ ["@"] ++ y ++ ["."] ++ z)%list, b.
    split; [rewrite E; simpl; repeat (rewrite <- app_assoc; simpl); reflexivity|].
    exists x, (["@"] ++ y ++ ["."] ++ z)%list. repeat split; auto.
    exists (y ++ ["."] ++ z)%list. split; [reflexivity|].
    exists y, (["."] ++ z)%list. repeat split; auto.
    exists z. split; [reflexivity|].
    exists z, []. rewrite app_nil_r. auto.
Qed.

(** [!s.trim()] holds of the texts that are all whitespace. *)
Lemma blank_spec s : blank s = true <-> all_space s.
Proof. unfold blank. rewrite String.eqb_eq. apply trim_blank. Qed.

Lemma address_not_blank s : has_address s -> ~ all_space s.
Proof.
  intros (a & x & y & z & b & E & [Hx Hp] & _) H.
  unfold all_space in H. rewrite E, !forallb_app in H.
  apply andb_true_iff in H as [_ H]. apply andb_true_iff in H as [H _].
  destruct x as [|c x]; [congruence|]. simpl in H, Hp. unfold non_space in Hp.
  destruct (is_space c); discriminate.
Qed.

End FormFacts.

Section FormProperties.
Import Js Text Form FormFacts.

(** X20. The form passes its own validation exactly when the password
    is not all whitespace, the name is not all whitespace if the form
    registers, and the email holds, somewhere, a run of characters
    without whitespace, an at sign, another such run, a dot and a third
    such run.  Whitespace is the class [\s], the Unicode spaces
    included.  Nothing else is asked of the email: text around the
    address is accepted. *)
Theorem form_accepts_exactly (f : fields) :
  validate f = true
  <-> (mode_of f = Register -> ~ all_space (name f))
      /\ has_address (email f)
      /\ ~ all_space (password f).
Proof.
  unfold validate, errs. cbn [name_error email_error password_error].
  rewrite <- email_format_spec.
  assert (Hblank : test email_format (email f) = true -> blank (email f) = false).
  { intros H. apply email_format_spec, address_not_blank in H.
    destruct (blank (email f)) eqn:E; [|reflexivity].
    apply blank_spec in E. contradiction. }
  rewrite <- !blank_spec.
  destruct (blank (password f)) eqn:Hp;
    destruct (blank (email f)) eqn:He;
    destruct (test email_format (email f)) eqn:Ht;
    destruct (mode_of f);
    try destruct (blank (name f)) eqn:Hn;
    cbn; split; try discriminate; try tauto;
    try (intros (H1 & H2 & H3); first [congruence | now elim H3 | now elim H1
                                      | now specialize (Hblank eq_refl)]).
  all: try (intros _; repeat split; auto; discriminate).
Qed.

(** A registration with a password of one no-break space is refused,
    and so is an email whose address is broken by an ideographic space;
    the same form with a password and a whole address passes. *)
Example form_on_samples :
  validate {| mode_of := Register; name := "Ann"; email := "ann@example.org";
              password := String "194" (String "160" "") |} = false
  /\ validate {| mode_of := Login; name := "";
                 email := ("ann@" ++ String "227" (String "128" (String "128" "example.org")))%string;
                 password := "secret" |} = false
  /\ validate {| mode_of := Register; name := "Ann"; email := "to ann@example.org now";
                 password := "secret" |} = true.
Proof. repeat split; vm_compute; reflexivity. Qed.

End FormProperties.

(** ** Logging in and out *)

Section AccountProperties.
Import Client Account.

(** X21. A successful login with a token that is not empty stores the
    token and shows the task view; with an empty or missing token
    nothing is stored and the login form stays.  The logout button,
    whatever the state, forgets the token and the user, removes the
    stored token and shows the login form, and a further render changes
    nothing. *)
Theorem session_follows_the_token (s : state) (t : option string) :
  let s1 := onSuccess t s in
  let s2 := logout_button s1 in
  token s1 = t
  /\ match t with
     | Some (String c r) =>
         stored_token s1 = t /\ path s1 = "/tasks"
     | _ => stored_token s1 = None /\ path s1 = "/login"
     end
  /\ token s2 = None /\ user s2 = None /\ stored_token s2 = None
  /\ path s2 = "/login" /\ render s2 = s2.
Proof.
  destruct s as [tk us st p lu ts ld ti de er ei et ed].
  destruct t as [[|c r]|]; vm_compute; repeat split; reflexivity.
Qed.

End AccountProperties.
